(** * CodEval: a shallow embedding of the grading engine of [codeval.py]

    The development follows [src/codeval.py]: the descriptor parser
    ([get_valid_test_file]), the regrade decision
    ([should_check_submission]), the workspace builder
    ([download_submission_attachments] followed by
    [copy_files_to_submission_dir]), the execution engine ([evaluate]) and
    the orchestrator ([grade_submissions]).

    Stateful code is written in a small monad [M] that threads the
    interpreter state (the module globals [compile_timeout] and
    [has_distributed_tests], the attribute [self.executable], the temporary
    directories) and collects, in order, the observable effects of a run
    (child processes, log lines, comments posted, bookkeeping calls).
    Python exceptions are the [Raised] outcome of a computation. *)

From Stdlib Require Import ZArith List Ascii String Bool Lia DecimalString.
From stdpp Require Import base option list strings gmap.
Import ListNotations.

Local Open Scope string_scope.
Local Open Scope list_scope.

(** ** Python builtins used by the source

    A Python [str] is represented by its UTF-8 encoding and [bytes] by
    itself, both as Rocq strings of 8-bit characters.  The order on [str]
    (code points) and the order on the encodings agree, and so do
    [startswith], [replace] and [split] with ASCII arguments. *)
Module Py.

Definition bytes : Type := string.

(** [str.isspace] on the ASCII range: TAB to CR, FS to US, and the space. *)
Definition isspace (c : ascii) : bool :=
  let n := nat_of_ascii c in
  ((9 <=? n)%nat && (n <=? 13)%nat) || ((28 <=? n)%nat && (n <=? 32)%nat).

Fixpoint lstrip (s : string) : string :=
  match s with
  | String c s' => if isspace c then lstrip s' else s
  | EmptyString => EmptyString
  end.

Fixpoint rev_onto (s acc : string) : string :=
  match s with
  | String c s' => rev_onto s' (String c acc)
  | EmptyString => acc
  end.

Definition rstrip (s : string) : string :=
  rev_onto (lstrip (rev_onto s EmptyString)) EmptyString.

(** [s.strip()] *)
Definition strip (s : string) : string := rstrip (lstrip s).

(** [s.split(sep)] for a one-character separator: consecutive separators
    give empty fields, and the empty string gives one empty field. *)
Fixpoint split (sep : ascii) (s : string) : list string :=
  match s with
  | EmptyString => [EmptyString]
  | String c s' =>
      if Ascii.eqb c sep then EmptyString :: split sep s'
      else match split sep s' with
           | w :: ws => String c w :: ws
           | [] => [String c EmptyString]
           end
  end.

(** [sep.join(l)] *)
Definition join (sep : string) (l : list string) : string := String.concat sep l.

(** [s.startswith(p)] *)
Definition startswith (s p : string) : bool := String.prefix p s.

(** [a > b] on [str]: lexicographic on code points, a proper prefix first. *)
Definition str_gt (a b : string) : bool := String.ltb b a.

Fixpoint replace_from (old new : string) (skip : nat) (s : string) : string :=
  match s with
  | EmptyString => EmptyString
  | String c s' =>
      match skip with
      | S k => replace_from old new k s'
      | O =>
          if String.prefix old s
          then new +:+ replace_from old new (String.length old - 1) s'
          else String c (replace_from old new 0 s')
      end
  end.

(** [s.replace(old, new)]: every occurrence, scanning from the left without
    overlap.  The source only calls it with a non-empty constant [old]; an
    empty [old] leaves [s] as it is here. *)
Definition replace (s old new : string) : string :=
  match old with
  | EmptyString => s
  | _ => replace_from old new 0 s
  end.

Definition digit_of (c : ascii) : option Z :=
  let n := nat_of_ascii c in
  if (48 <=? n)%nat && (n <=? 57)%nat then Some (Z.of_nat (n - 48)) else None.

(** Decimal digits, a single underscore allowed between two digits. *)
Fixpoint int_digits (acc : Z) (after_digit : bool) (s : string) : option Z :=
  match s with
  | EmptyString => if after_digit then Some acc else None
  | String c s' =>
      match digit_of c with
      | Some d => int_digits (10 * acc + d)%Z true s'
      | None =>
          if Ascii.eqb c "_" && after_digit then int_digits acc false s'
          else None
      end
  end.

(** [int(s)] in base 10, on ASCII digits; [None] stands for [ValueError]. *)
Definition int (s : string) : option Z :=
  match strip s with
  | String "+" r => int_digits 0 false r
  | String "-" r => Z.opp <$> int_digits 0 false r
  | r => int_digits 0 false r
  end.

(** [str(n)] for an [int] *)
Definition str_of_int (n : Z) : string := NilZero.string_of_int (Z.to_int n).

Definition dquote : ascii := ascii_of_nat 34.
Definition squote : ascii := "'"%char.
Definition backslash : ascii := "\"%char.

Definition hex_digit (n : nat) : ascii :=
  ascii_of_nat (if (n <? 10)%nat then 48 + n else 87 + n).

Definition contains (c : ascii) (s : string) : bool :=
  existsb (Ascii.eqb c) (list_ascii_of_string s).

Definition repr_char (q c : ascii) : string :=
  let n := nat_of_ascii c in
  if Ascii.eqb c q || Ascii.eqb c backslash then String backslash (String c "")
  else if (n =? 9)%nat then "\t"
  else if (n =? 10)%nat then "\n"
  else if (n =? 13)%nat then "\r"
  else if (n <? 32)%nat || (127 <=? n)%nat
       then "\x" +:+ String (hex_digit (n / 16)) (String (hex_digit (n mod 16)) "")
       else String c "".

Definition quote_for (s : string) : ascii :=
  if contains squote s && negb (contains dquote s) then dquote else squote.

(** [repr(b)] for [bytes], which is also [str(b)] and the text an f-string
    inserts for it. *)
Definition repr_bytes (b : bytes) : string :=
  let q := quote_for b in
  "b" +:+ String q (String.concat "" (map (repr_char q) (list_ascii_of_string b)))
      +:+ String q "".

Definition repr_str_char (q c : ascii) : string :=
  let n := nat_of_ascii c in
  if (128 <=? n)%nat then String c "" else repr_char q c.

(** [repr(s)] for [str]; the bytes of a character outside ASCII are kept
    (printable characters), the rest is escaped as for [bytes]. *)
Definition repr_str (s : string) : string :=
  let q := quote_for s in
  String q (String.concat "" (map (repr_str_char q) (list_ascii_of_string s)))
    +:+ String q "".

(** [repr(l)] for a list of [str] *)
Definition repr_str_list (l : list string) : string :=
  "[" +:+ String.concat ", " (map repr_str l) +:+ "]".

(** The lines [readlines()] returns, without their terminators.  The text is
    cut at every LF and CR; with universal newlines Python cuts CR LF once,
    which here leaves one more empty line, and the parser skips empty lines. *)
Fixpoint readlines (s : string) : list string :=
  match s with
  | EmptyString => [EmptyString]
  | String c s' =>
      if Ascii.eqb c (ascii_of_nat 10) || Ascii.eqb c (ascii_of_nat 13)
      then EmptyString :: readlines s'
      else match readlines s' with
           | w :: ws => String c w :: ws
           | [] => [String c EmptyString]
           end
  end.

(** Truth value of a [str] or [bytes]: non-empty. *)
Definition truthy (s : string) : bool :=
  match s with EmptyString => false | _ => true end.

End Py.

(** ** Exceptions, effects and the interpreter state *)

Inductive exn_class :=
| EnvironmentError | FileNotFoundError | KeyError | IndexError | ValueError
| TimeoutExpired | UnicodeDecodeError
| CollaboratorError  (* an [Exception] raised inside a collaborator *)
| SystemExit.        (* raised by [sys.exit]; not an [Exception] *)

(** An exception: its class and the text [str(e)] gives. *)
Record exn := Exn { exn_class_of : exn_class; exn_str : string }.

(** What [except Exception] catches. *)
Definition is_Exception (e : exn) : bool :=
  match exn_class_of e with SystemExit => false | _ => true end.

(** What [except subprocess.TimeoutExpired] catches. *)
Definition is_TimeoutExpired (e : exn) : bool :=
  match exn_class_of e with TimeoutExpired => true | _ => false end.

Inductive level := LDebug | LInfo | LWarn | LError.

(** The observable effects of a run, in the order they happen. *)
Inductive event :=
| Log (l : level) (msg : string)
| PrintExc (e : exn)
| Popen (pid : nat) (args : string) (cwd : option string) (stderr_to_stdout : bool)
| Communicate (pid : nat) (timeout : option Z)
| Kill (pid : nat)
| MarkInactive (assignment_id student_id : string)
| RunDistributed (command host_ip temp_fixed tmpdir testcases : string)
| SetAcls (dir : string)
| CopyTree (src dst : string)
| Edit (submission_id : Z) (text_comment : string).

(** A directory: file name to content.  Directories are flat: an archive
    entry is a file name, not a path. *)
Abbreviation dir := (gmap string Py.bytes).

(** The mutable state of the interpreter: the module globals of lines 21-22,
    the attribute [self.executable], the temporary directories by path, and
    the number of child processes started so far. *)
Record state := State {
  compile_timeout : Z;
  has_distributed_tests : bool;
  executable : option string;
  fs : gmap string dir;
  spawned : nat
}.

(** The state when the module has just been loaded (lines 20-22, 47). *)
Definition initial_state : state :=
  {| compile_timeout := 20; has_distributed_tests := false;
     executable := None; fs := ∅; spawned := 0 |}.

Definition set_compile_timeout (n : Z) (s : state) : state :=
  State n (has_distributed_tests s) (executable s) (fs s) (spawned s).
Definition set_has_distributed_tests (b : bool) (s : state) : state :=
  State (compile_timeout s) b (executable s) (fs s) (spawned s).
Definition set_executable (e : option string) (s : state) : state :=
  State (compile_timeout s) (has_distributed_tests s) e (fs s) (spawned s).
Definition set_fs (f : gmap string dir) (s : state) : state :=
  State (compile_timeout s) (has_distributed_tests s) (executable s) f (spawned s).
Definition set_spawned (n : nat) (s : state) : state :=
  State (compile_timeout s) (has_distributed_tests s) (executable s) (fs s) n.

Inductive result (A : Type) :=
| Ok (a : A)
| Raised (e : exn).
Arguments Ok {A} a.
Arguments Raised {A} e.

(** A computation: from a state to an outcome, the state it leaves (kept
    when it raises, as Python keeps its mutations) and the effects it had. *)
Definition M (A : Type) : Type := state → result A * state * list event.

Definition ret {A} (a : A) : M A := fun s => (Ok a, s, []).

Definition bind {A B} (m : M A) (f : A → M B) : M B :=
  fun s =>
    match m s with
    | (Ok a, s1, t1) => let '(r, s2, t2) := f a s1 in (r, s2, t1 ++ t2)
    | (Raised e, s1, t1) => (Raised e, s1, t1)
    end.

Definition raise {A} (e : exn) : M A := fun s => (Raised e, s, []).
Definition emit (ev : event) : M unit := fun s => (Ok tt, s, [ev]).
Definition gets {A} (f : state → A) : M A := fun s => (Ok (f s), s, []).
Definition modify (f : state → state) : M unit := fun s => (Ok tt, f s, []).

(** [try: body except <classes> as e: handler e] *)
Definition try_except {A} (body : M A) (catches : exn → bool) (handler : exn → M A) : M A :=
  fun s =>
    match body s with
    | (Raised e, s1, t1) =>
        if catches e
        then let '(r, s2, t2) := handler e s1 in (r, s2, t1 ++ t2)
        else (Raised e, s1, t1)
    | ok => ok
    end.

Declare Scope monad_scope.
Delimit Scope monad_scope with M.
Notation "x <- m ;; k" := (bind m (fun x => k))
  (at level 100, m at next level, k at level 200, right associativity) : monad_scope.
Notation "m ;; k" := (bind m (fun _ => k))
  (at level 100, k at level 200, right associativity) : monad_scope.
Local Open Scope monad_scope.

(** [for x in l: body x] *)
Fixpoint for_each {A} (l : list A) (body : A → M unit) : M unit :=
  match l with
  | [] => ret tt
  | x :: l' => body x ;; for_each l' body
  end.

(** [with tempfile.TemporaryDirectory(...) as d: body d], the name [path]
    being the one the operating system hands out: the directory starts
    empty and is removed however the body ends. *)
Definition with_tempdir {A} (path : string) (body : string → M A) : M A :=
  fun s =>
    let '(r, s1, t) := body path (set_fs (<[path := ∅]> (fs s)) s) in
    (r, set_fs (delete path (fs s1)) s1, t).

(** ** The data the learning-management system supplies *)

Record canvas_file := { display_name : string; file_data : Py.bytes }.
Record folder := { full_name : string; folder_files : list canvas_file }.

(** One entry of [submission.submission_comments]. *)
Record comment := { comment_text : string; created_at : string }.

(** A file reference; fetching it gives its content or fails with an error
    description (a transfer error). *)
Record attachment := { att_filename : string; att_fetch : string + Py.bytes }.

(** A submission as [get_submissions(include=[submission_comments, user])]
    returns it; [attachments] is [None] when the object has no such
    attribute.  [submitted_at] and [created_at] are ISO 8601 texts. *)
Record submission := {
  submission_id : Z;
  user_id : Z;
  user_name : string;
  submitted_at : string;
  submission_comments : list comment;
  attachments : option (list attachment)
}.

Record assignment := {
  assignment_id : Z;
  assignment_name : string;
  submissions : list submission
}.

Record course := { folders : list folder; assignments : list assignment }.

(** [self]: the sections of codeval.ini as [self.parser] holds them, and the
    path of that file.  [self.executable] is part of the [state]. *)
Record handler := {
  parser : gmap string (gmap string string);
  config_file : string
}.

(** [get_config()]: the options of the command line. *)
Record config := { verbose : bool; dry_run : bool; force : bool; copy_tmpdir : bool }.

(** The dictionary [distributed_tests_data] of lines 186-193, as far as the
    calls of this file read it. *)
Record dist_data := {
  dd_assignment_id : string;
  dd_student_id : string;
  dd_student_name : string;
  dd_submitted_at : string
}.

(** ** What the environment decides

    The behaviour of a child process, of the archive reader, of the codecs
    and of the remote services is not fixed by the source: a [world] gives
    it, and the theorems hold for every world. *)

(** A child process: what [communicate(timeout=t)] finds ([None]: the
    timeout expires first; otherwise stdout, stderr and the return code),
    and the output [communicate()] collects once the process was killed. *)
Record proc_behaviour := {
  pb_wait : Z → option (Py.bytes * Py.bytes * Z);
  pb_drain : Py.bytes
}.

Record world := {
  (* the n-th child process of the run, started with these arguments *)
  w_process : nat → string → proc_behaviour;
  (* the entries of an archive, or the description of why it cannot be read *)
  w_unzip : Py.bytes → string + list (string * Py.bytes);
  (* bytes.decode(): the text, or the description of the decoding error *)
  w_decode : Py.bytes → string + string;
  (* whether strptime accepts the text under the format of line 190 *)
  w_strptime : string → bool;
  (* run_distributed_tests: its output, or the description of its failure *)
  w_run_distributed : string → string → string → string → string → dist_data → string + Py.bytes;
  (* submission.edit(comment=...): the description of its failure, if any *)
  w_edit : submission → string → option string;
  (* the names tempfile gives the two kinds of temporary directory *)
  w_temp_fixed : assignment → string;
  w_tmpdir : submission → string
}.

(** ** Collaborators: logging, exits, files *)

Definition CODEVAL_FOLDER : string := "course files/CodEval".
Definition CODEVAL_SUFFIX : string := ".codeval".

Definition LF : string := String (ascii_of_nat 10) "".
Definition NUL : string := String (ascii_of_nat 0) "".

Definition debug (msg : string) : M unit := emit (Log LDebug msg).
Definition info (msg : string) : M unit := emit (Log LInfo msg).
Definition warn (msg : string) : M unit := emit (Log LWarn msg).
Definition error (msg : string) : M unit := emit (Log LError msg).

(** Modelled from the spec: [errorWithException] of commons.py is not under
    src.  The spec has its call sites fail fatally with an error
    description: it logs the message and raises an exception carrying it. *)
Definition errorWithException {A} (msg : string) : M A :=
  error msg ;; raise (Exn EnvironmentError msg).

(** [sys.exit(code)] *)
Definition sys_exit {A} (code : Z) : M A :=
  raise (Exn SystemExit (Py.str_of_int code)).

(** [traceback.print_exc()] *)
Definition print_exc (e : exn) : M unit := emit (PrintExc e).

(** A file of a temporary directory: the directory and the name in it. *)
Definition path : Type := string * string.
Definition path_str (p : path) : string := fst p +:+ "/" +:+ snd p.

Definition no_such_file {A} (what : string) : M A :=
  raise (Exn FileNotFoundError
           ("[Errno 2] No such file or directory: " +:+ Py.repr_str what)).

Definition get_dir (d : string) : M dir :=
  fun s =>
    match fs s !! d with
    | Some files => (Ok files, s, [])
    | None => no_such_file d s
    end.

Definition put_dir (d : string) (files : dir) : M unit :=
  modify (fun s => set_fs (<[d := files]> (fs s)) s).

Definition write_file (p : path) (data : Py.bytes) : M unit :=
  files <- get_dir (fst p) ;;
  put_dir (fst p) (<[snd p := data]> files).

Definition read_file (p : path) : M Py.bytes :=
  files <- get_dir (fst p) ;;
  match files !! snd p with
  | Some data => ret data
  | None => no_such_file (path_str p)
  end.

Definition remove_file (p : path) : M unit :=
  files <- get_dir (fst p) ;;
  match files !! snd p with
  | Some _ => put_dir (fst p) (delete (snd p) files)
  | None => no_such_file (path_str p)
  end.

(** The directory after the entries of an archive were written into it, in
    the order of the archive, each replacing a file of the same name. *)
Definition extract (entries : list (string * Py.bytes)) (files : dir) : dir :=
  foldl (fun d e => <[fst e := snd e]> d) files entries.

(** Modelled from the spec: [unzip] of file_utils.py is not under src.  The
    archive is extracted into the destination directory and then deleted;
    a corrupt archive or a failed extraction raises. *)
Definition unzip (w : world) (archive : path) (dest : string) (delete : bool) : M unit :=
  data <- read_file archive ;;
  match w_unzip w data with
  | inl why => raise (Exn CollaboratorError why)
  | inr entries =>
      files <- get_dir dest ;;
      put_dir dest (extract entries files) ;;
      if delete then remove_file archive else ret tt
  end.

(** Modelled from the spec: [download_attachment] of file_utils.py is not
    under src.  The file reference is fetched into the submission directory
    under its own name and the local path is returned; a transfer error
    raises. *)
Definition download_attachment (submission_dir : string) (a : attachment) : M path :=
  match att_fetch a with
  | inl why => raise (Exn CollaboratorError why)
  | inr data =>
      write_file (submission_dir, att_filename a) data ;;
      ret (submission_dir, att_filename a)
  end.

(** Modelled from the spec: [copy_files_to_submission_dir] of file_utils.py
    is not under src.  Every fixed file is copied into the submission
    directory and replaces a file of the same name there. *)
Definition copy_files_to_submission_dir (temp_fixed tmpdir : string) : M unit :=
  fixed <- get_dir temp_fixed ;;
  work <- get_dir tmpdir ;;
  put_dir tmpdir (fixed ∪ work).

(** Modelled from the spec: [set_acls] of file_utils.py is not under src and
    the spec gives it no outcome; it is recorded as an effect. *)
Definition set_acls (d : string) : M unit := emit (SetAcls d).

(** Modelled from the spec: [mark_submission_as_inactive_if_present] of
    distributed.py is not under src.  It is a best-effort bookkeeping call
    that never raises to its caller. *)
Definition mark_submission_as_inactive_if_present (assignment_id student_id : string) : M unit :=
  emit (MarkInactive assignment_id student_id).

(** Modelled from the spec: [run_distributed_tests] of distributed.py is not
    under src.  It runs the remote test command and returns its output. *)
Definition run_distributed_tests (w : world)
    (command host_ip temp_fixed tmpdir testcases : string) (data : dist_data) : M Py.bytes :=
  emit (RunDistributed command host_ip temp_fixed tmpdir testcases) ;;
  match w_run_distributed w command host_ip temp_fixed tmpdir testcases data with
  | inl why => raise (Exn CollaboratorError why)
  | inr out => ret out
  end.

(** [d[key]] on a mapping with [str] keys *)
Definition getitem {V} (d : gmap string V) (key : string) : M V :=
  match d !! key with
  | Some v => ret v
  | None => raise (Exn KeyError (Py.repr_str key))
  end.

(** [l[i]] on a list *)
Definition getindex {V} (l : list V) (i : nat) : M V :=
  match nth_error l i with
  | Some v => ret v
  | None => raise (Exn IndexError "list index out of range")
  end.

(** ** Child processes *)

Record process := { pid : nat; args : string }.

(** [subprocess.Popen(args, shell=True, stdout=PIPE, stderr=...)]: no [cwd]
    is ever passed, so the child inherits the working directory of the
    grader. *)
Definition popen (args : string) (stderr_to_stdout : bool) : M process :=
  n <- gets spawned ;;
  modify (set_spawned (S n)) ;;
  emit (Popen n args None stderr_to_stdout) ;;
  ret {| pid := n; args := args |}.

(** [p.communicate(timeout=t)]: stdout, stderr and [p.returncode]. *)
Definition communicate (w : world) (p : process) (t : Z) : M (Py.bytes * Py.bytes * Z) :=
  emit (Communicate (pid p) (Some t)) ;;
  match pb_wait (w_process w (pid p) (args p)) t with
  | Some r => ret r
  | None =>
      raise (Exn TimeoutExpired
               ("Command '" +:+ args p +:+ "' timed out after " +:+ Py.str_of_int t +:+ " seconds"))
  end.

(** [p.kill()] *)
Definition kill (p : process) : M unit := emit (Kill (pid p)).

(** [p.communicate()] on a killed process: what was left to read. *)
Definition communicate_killed (w : world) (p : process) : M Py.bytes :=
  emit (Communicate (pid p) None) ;;
  ret (pb_drain (w_process w (pid p) (args p))).

(** ** [CanvasHandler]: configuration checks and file lookup (lines 49-59, 224-238) *)

Definition _check_config (self : handler) (section key : string) : M unit :=
  match parser self !! section with
  | None =>
      error ("did not find [" +:+ section +:+ "] section in " +:+ config_file self +:+ ".") ;;
      sys_exit 1
  | Some sec =>
      match sec !! key with
      | None =>
          error ("did not find " +:+ key +:+ " in [" +:+ section +:+ "] in "
                 +:+ config_file self +:+ ".") ;;
          sys_exit 1
      | Some _ => ret tt
      end
  end.

Definition _check_distributed_config (self : handler) : M unit :=
  for_each ["dist_command"; "host_ip"] (fun key => _check_config self "RUN" key).

(** [get_file]: both callers pass [outpath], which is where the file goes. *)
Definition get_file (codeval_folder : folder) (file_name : string) (outpath : path) : M path :=
  let files := folder_files codeval_folder in
  let filtered_files := List.filter (fun f => String.eqb (display_name f) file_name) files in
  (if negb (Py.truthy file_name)
   then errorWithException "No file name was given." else ret tt) ;;
  (if (length filtered_files =? 0)%nat
   then errorWithException (file_name +:+ " file not found in " +:+ CODEVAL_FOLDER +:+ ".")
   else ret tt) ;;
  (if (1 <? length filtered_files)%nat
   then errorWithException
          ("Multiple files found matching " +:+ file_name +:+ ": "
           +:+ Py.repr_str_list (map display_name filtered_files) +:+ ".")
   else ret tt) ;;
  file <- getindex filtered_files 0 ;;
  let filepath := outpath in
  write_file filepath (file_data file) ;;
  debug (file_name +:+ " downloaded at " +:+ path_str filepath +:+ ".") ;;
  ret filepath.

(** ** The descriptor parser (lines 104-140) *)

(** One line of the descriptor: the body of the loop of lines 116-140. *)
Definition directive (w : world) (self : handler) (codeval_folder : folder)
    (dest_dir : string) (line : string) : M unit :=
  let line := Py.strip line in
  if negb (Py.truthy line) then ret tt
  else
    let line_args := Py.split " " line in
    line_args_0 <- getindex line_args 0 ;;
    if String.eqb line_args_0 "Z" then
      let file_name := Py.join "" (tl line_args) in
      debug ("downloading " +:+ file_name) ;;
      extra_files <- get_file codeval_folder file_name (dest_dir, "extrafiles.zip") ;;
      unzip w extra_files dest_dir true ;;
      debug ("unzipped " +:+ file_name)
    else if String.eqb line_args_0 "CTO" then
      line_args_1 <- getindex line_args 1 ;;
      match Py.int line_args_1 with
      | Some n => modify (set_compile_timeout n)
      | None =>
          raise (Exn ValueError
                   ("invalid literal for int() with base 10: " +:+ Py.repr_str line_args_1))
      end
    else if String.eqb line_args_0 "USING" then
      file_name <- getindex line_args 1 ;;
      listing <- get_dir dest_dir ;;
      match listing !! file_name with
      | None => errorWithException (file_name +:+ " not found in the " +:+ dest_dir +:+ " directory")
      | Some _ =>
          modify (set_executable (Some file_name)) ;;
          debug ("main executable set to " +:+ file_name
                 +:+ ". this will replace execute.sh in the config command.")
      end
    else if String.eqb line_args_0 "--DT--" then
      modify (set_has_distributed_tests true) ;;
      _check_distributed_config self
    else ret tt.

Definition get_valid_test_file (w : world) (self : handler) (course_name : string)
    (codeval_folder : folder) (assignment_name dest_dir : string) : M unit :=
  debug ("getting " +:+ assignment_name +:+ " from " +:+ course_name) ;;
  let test_file := assignment_name +:+ CODEVAL_SUFFIX in
  testcase_path <- get_file codeval_folder test_file (dest_dir, "testcases.txt") ;;
  (if negb (Py.truthy (path_str testcase_path))
   then error ("Cannot process assignment - " +:+ assignment_name +:+ " as " +:+ test_file
               +:+ " doesn't exist.") ;;
        raise (Exn FileNotFoundError test_file)
   else ret tt) ;;
  debug ("testcase file downloaded at " +:+ path_str testcase_path) ;;
  text <- read_file testcase_path ;;
  modify (set_executable None) ;;
  for_each (Py.readlines text) (directive w self codeval_folder dest_dir).

(** ** The regrade decision (lines 143-151) *)

(** The test of line 149 on one comment. *)
Definition graded_after (submitted : string) (c : comment) : bool :=
  Py.startswith (comment_text c) "[AG]" && Py.str_gt (created_at c) submitted.

Fixpoint any_graded_after (submitted : string) (comments : list comment) : bool :=
  match comments with
  | [] => false
  | c :: rest => if graded_after submitted c then true else any_graded_after submitted rest
  end.

Definition should_check_submission (sub : submission) : bool :=
  let comments := submission_comments sub in
  match comments with
  | [] => true
  | _ => if any_graded_after (submitted_at sub) (rev comments) then false else true
  end.

(** ** The assignment specs of a course (lines 94-102, 153-163) *)

Definition endswith (s suffix : string) : bool :=
  String.prefix (Py.rev_onto suffix "") (Py.rev_onto s "").

(** [s[:-n]] for [n > 0] *)
Definition drop_last (n : nat) (s : string) : string :=
  String.substring 0 (String.length s - n) s.

Definition specs_of (files : list canvas_file) : list string :=
  map (fun spec => drop_last (String.length CODEVAL_SUFFIX) (display_name spec))
      (List.filter (fun spec => endswith (display_name spec) CODEVAL_SUFFIX) files).

(** The folder of the specs and the names it has a spec for (the keys of
    the dictionary [specs]); [None] for the pair [(None, None)]. *)
Fixpoint get_assignment_specs (fs : list folder) : option (folder * list string) :=
  match fs with
  | [] => None
  | f :: rest =>
      if String.eqb (full_name f) CODEVAL_FOLDER
      then Some (f, specs_of (folder_files f))
      else get_assignment_specs rest
  end.

Definition in_specs (name : string) (specs : list string) : bool :=
  existsb (String.eqb name) specs.

(** ** The workspace builder (lines 219-222) *)

Definition download_submission_attachments (w : world) (atts : list attachment)
    (submission_dir : string) : M unit :=
  for_each atts (fun attachment =>
    attachment_path <- download_attachment submission_dir attachment ;;
    unzip w attachment_path submission_dir true).

(** ** The execution engine (lines 240-300) *)

Definition evaluate_distributed_tests (w : world) (self : handler)
    (temp_fixed tmpdir : string) (distributed_tests_data : dist_data) : M Py.bytes :=
  run <- getitem (parser self) "RUN" ;;
  command <- getitem run "dist_command" ;;
  host_ip <- getitem run "host_ip" ;;
  run_distributed_tests w command host_ip temp_fixed tmpdir
    (tmpdir +:+ "/testcases.txt") distributed_tests_data.

(** The line appended to the output of a run that was killed (line 275). *)
Definition timeout_notice (timeout : Z) : Py.bytes :=
  LF +:+ "TOOK LONGER THAN " +:+ Py.str_of_int timeout +:+ " seconds to run. FAILED" +:+ LF.

(** The precommand of lines 246-253. *)
Definition run_precommand (w : world) (run : gmap string string) : M unit :=
  match run !! "precommand" with
  | Some precommand =>
      debug ("running precommand - " +:+ precommand) ;;
      p <- popen precommand false ;;
      timeout <- gets compile_timeout ;;
      r <- communicate w p timeout ;;
      let '(out, err, _) := r in
      debug ("precommand result - " +:+ Py.repr_bytes out) ;;
      if Py.truthy err then errorWithException (Py.repr_bytes err) else ret tt
  | None => ret tt
  end.

(** The evaluation command of lines 255-261, after its two substitutions. *)
Definition build_command (command : string) (exe : option string) (tmpdir : string) : string :=
  let command :=
    match exe with
    | Some e => if Py.truthy e then Py.replace command "EVALUATE" e
                else Py.replace command "EVALUATE" "./evaluate.sh"
    | None => Py.replace command "EVALUATE" "./evaluate.sh"
    end in
  Py.replace command "SUBMISSIONS" tmpdir.

(** Lines 263-280: [inl out] when the function returns [out] from inside the
    [try] statement, [inr out] when control leaves it by its end. *)
Definition run_command (w : world) (command : string) (d : dist_data)
    : M (Py.bytes + Py.bytes) :=
  p <- popen command true ;;
  try_except
    (timeout <- gets compile_timeout ;;
     r <- communicate w p timeout ;;
     let '(out, _, returncode) := r in
     if negb (returncode =? 0)%Z then
       mark_submission_as_inactive_if_present (dd_assignment_id d) (dd_student_id d) ;;
       ret (inl out)
     else ret (inr out))
    is_TimeoutExpired
    (fun _ =>
       kill p ;;
       out <- communicate_killed w p ;;
       timeout <- gets compile_timeout ;;
       let out := out +:+ timeout_notice timeout in
       mark_submission_as_inactive_if_present (dd_assignment_id d) (dd_student_id d) ;;
       ret (inl out)).

Definition evaluate (w : world) (self : handler) (temp_fixed tmpdir : string)
    (distributed_tests_data : dist_data) : M Py.bytes :=
  run <- getitem (parser self) "RUN" ;;
  command <- getitem run "command" ;;
  (if negb (Py.truthy command)
   then errorWithException ("commands section under [RUN] in " +:+ config_file self +:+ " is empty")
   else ret tt) ;;
  run_precommand w run ;;
  debug ("command before " +:+ command) ;;
  exe <- gets executable ;;
  let command := build_command command exe tmpdir in
  debug ("command after " +:+ command) ;;
  r <- run_command w command distributed_tests_data ;;
  match r with
  | inl out => ret out
  | inr out =>
      dt <- gets has_distributed_tests ;;
      if dt then
        more <- evaluate_distributed_tests w self temp_fixed tmpdir distributed_tests_data ;;
        ret (out +:+ more)
      else ret out
  end.

(** ** The orchestrator (lines 165-217) *)

(** [os.path.basename] *)
Fixpoint basename_from (s last : string) : string :=
  match s with
  | EmptyString => last
  | String c s' => if Ascii.eqb c "/" then basename_from s' s' else basename_from s' last
  end.
Definition basename (s : string) : string := basename_from s s.

(** The text of the comment posted for a grade message (lines 210-211). *)
Definition grade_comment (message : string) : string :=
  "[AG]" +:+ LF +:+ Py.replace message NUL "\0".

(** Lines 184-185: the student's files first, the fixed files over them. *)
Definition build_workspace (w : world) (atts : list attachment)
    (temp_fixed tmpdir : string) : M unit :=
  download_submission_attachments w atts tmpdir ;;
  copy_files_to_submission_dir temp_fixed tmpdir.

(** Lines 183-195: the statements inside the [try] of one submission. *)
Definition grade_steps (w : world) (self : handler) (a : assignment)
    (temp_fixed tmpdir : string) (sub : submission) : M string :=
  debug ("checking submission by user " +:+ user_name sub +:+ ".") ;;
  build_workspace w (default [] (attachments sub)) temp_fixed tmpdir ;;
  (if w_strptime w (submitted_at sub) then ret tt
   else raise (Exn ValueError
                 ("time data " +:+ Py.repr_str (submitted_at sub)
                  +:+ " does not match format '%Y-%m-%dT%H:%M:%S%z'"))) ;;
  let distributed_tests_data :=
    {| dd_assignment_id := Py.str_of_int (assignment_id a);
       dd_student_id := Py.str_of_int (user_id sub);
       dd_student_name := user_name sub;
       dd_submitted_at := submitted_at sub |} in
  output <- evaluate w self temp_fixed tmpdir distributed_tests_data ;;
  match w_decode w output with
  | inr message => ret message
  | inl why => raise (Exn UnicodeDecodeError why)
  end.

(** Lines 196-199: what the handler of that [try] does with the exception. *)
Definition grade_failure (sub : submission) (e : exn) : M string :=
  print_exc e ;;
  let message := exn_str e in
  info ("Could not evaluate submission " +:+ Py.str_of_int (submission_id sub)
        +:+ " due to error: " +:+ exn_str e) ;;
  ret message.

(** Lines 182-199: the message to report for one submission. *)
Definition grade_message (w : world) (self : handler) (a : assignment)
    (temp_fixed tmpdir : string) (sub : submission) : M string :=
  try_except (grade_steps w self a temp_fixed tmpdir sub) is_Exception (grade_failure sub).

(** Lines 204-213: the grade message is logged on a dry run and posted
    otherwise. *)
Definition report (w : world) (cfg : config) (sub : submission) (message : string) : M unit :=
  if dry_run cfg then
    info ("would have said " +:+ message +:+ " to " +:+ user_name sub)
  else
    let message' := Py.replace message NUL "\0" in
    try_except
      (debug ("said " +:+ message +:+ " to " +:+ user_name sub) ;;
       emit (Edit (submission_id sub) (grade_comment message)) ;;
       match w_edit w sub (grade_comment message) with
       | Some why => raise (Exn CollaboratorError why)
       | None => ret tt
       end)
      is_Exception
      (fun e => warn ("ERROR " +:+ exn_str e +:+ " sending " +:+ message' +:+ " to "
                      +:+ user_name sub)).

(** Lines 178-213: one submission that is to be graded. *)
Definition grade_submission (w : world) (cfg : config) (self : handler) (a : assignment)
    (temp_fixed : string) (sub : submission) : M unit :=
  with_tempdir (w_tmpdir w sub) (fun tmpdir =>
    debug ("tmpdir is " +:+ tmpdir) ;;
    set_acls tmpdir ;;
    message <- grade_message w self a temp_fixed tmpdir sub ;;
    (if copy_tmpdir cfg then
       info ("copying " +:+ tmpdir +:+ " " +:+ basename tmpdir) ;;
       emit (CopyTree tmpdir (basename tmpdir))
     else ret tt) ;;
    report w cfg sub message).

(** The test of lines 176-177. *)
Definition eligible (cfg : config) (sub : submission) : bool :=
  match attachments sub with
  | Some _ => force cfg || should_check_submission sub
  | None => false
  end.

(** Lines 176-213: the body of the loop over the submissions. *)
Definition grade_if_eligible (w : world) (cfg : config) (self : handler) (a : assignment)
    (temp_fixed : string) (sub : submission) : M unit :=
  if eligible cfg sub then grade_submission w cfg self a temp_fixed sub else ret tt.

(** Lines 215-217: the handler of the [try] around one assignment. *)
Definition skip_assignment (a : assignment) (e : exn) : M unit :=
  print_exc e ;;
  warn ("Could not process " +:+ assignment_name a
        +:+ " due to error. skipping assignment: " +:+ exn_str e).

(** Lines 172-217: one assignment that has a spec. *)
Definition grade_assignment (w : world) (cfg : config) (self : handler)
    (course_name : string) (codeval_folder : folder) (a : assignment) : M unit :=
  with_tempdir (w_temp_fixed w a) (fun temp_fixed =>
    try_except
      (get_valid_test_file w self course_name codeval_folder (assignment_name a) temp_fixed ;;
       for_each (submissions a) (grade_if_eligible w cfg self a temp_fixed))
      is_Exception
      (skip_assignment a)).

(** Lines 96-102 with the loop body of line 171: one assignment of the
    course, graded when it has a spec. *)
Definition grade_if_spec (w : world) (cfg : config) (self : handler)
    (course_name : string) (codeval_folder : folder) (codeval_specs : list string)
    (a : assignment) : M unit :=
  if in_specs (assignment_name a) codeval_specs then
    debug ("grading " +:+ assignment_name a) ;;
    grade_assignment w cfg self course_name codeval_folder a
  else
    debug ("skipping " +:+ assignment_name a +:+ " (no " +:+ assignment_name a
           +:+ CODEVAL_SUFFIX +:+ " file)").

(** [grade_submissions], from the course [get_course] has found.  The
    generator [get_assignments] is run in step with the loop that consumes
    it. *)
Definition grade_submissions (w : world) (cfg : config) (self : handler)
    (course_name : string) (c : course) : M unit :=
  match get_assignment_specs (folders c) with
  | Some (codeval_folder, (_ :: _) as codeval_specs) =>
      for_each (assignments c)
        (grade_if_spec w cfg self course_name codeval_folder codeval_specs)
  | _ =>
      error ("no *" +:+ CODEVAL_SUFFIX +:+ " files found in " +:+ CODEVAL_FOLDER)
  end.

(** ** Reading a run *)

Definition outcome {A} (x : result A * state * list event) : result A := x.1.1.
Definition final {A} (x : result A * state * list event) : state := x.1.2.
Definition effects {A} (x : result A * state * list event) : list event := x.2.

(** [wp m s Q]: run from [s], [m] ends with an outcome, a state and effects
    that satisfy [Q]. *)
Definition wp {A} (m : M A) (s : state) (Q : result A → state → list event → Prop) : Prop :=
  Q (outcome (m s)) (final (m s)) (effects (m s)).

(** From whatever state [m] is run, every effect of it satisfies [P] and
    every exception it raises is accepted by [C]. *)
Definition sound {A} (P : event → Prop) (C : exn → bool) (m : M A) : Prop :=
  ∀ s, Forall P (effects (m s)) ∧ ∀ e, outcome (m s) = Raised e → C e = true.

(** [m] never raises. *)
Definition total {A} (m : M A) : Prop :=
  ∀ s, ∃ a, outcome (m s) = Ok a.

(** [m1] and [m2] end alike from every state, and have the same effects
    among those [keep] selects. *)
Definition sim {A} (keep : event → bool) (m1 m2 : M A) : Prop :=
  ∀ s, outcome (m1 s) = outcome (m2 s)
       ∧ final (m1 s) = final (m2 s)
       ∧ List.filter keep (effects (m1 s)) = List.filter keep (effects (m2 s)).

Definition is_edit (ev : event) : bool :=
  match ev with Edit _ _ => true | _ => false end.

Definition is_kill (ev : event) : bool :=
  match ev with Kill _ => true | _ => false end.

Definition is_popen (ev : event) : bool :=
  match ev with Popen _ _ _ _ => true | _ => false end.

Definition is_run_distributed (ev : event) : bool :=
  match ev with RunDistributed _ _ _ _ _ => true | _ => false end.

(** The effects of reporting a grade message (lines 204-213): the comment
    posted and the three log lines about it. *)
Definition is_report (ev : event) : bool :=
  match ev with
  | Edit _ _ => true
  | Log LInfo msg => String.prefix "would have said " msg
  | Log LDebug msg => String.prefix "said " msg
  | Log LWarn msg => String.prefix "ERROR " msg
  | _ => false
  end.

Definition not_report (ev : event) : bool := negb (is_report ev).

(** An effect that is no posted comment, or a posted comment whose text
    starts with the marker line. *)
Definition marked_if_edit (ev : event) : Prop :=
  match ev with
  | Edit _ text => Py.startswith text ("[AG]" +:+ LF) = true
  | _ => True
  end.

Definition with_dry_run (b : bool) (cfg : config) : config :=
  {| verbose := verbose cfg; dry_run := b; force := force cfg; copy_tmpdir := copy_tmpdir cfg |}.

(** The state in which the body of [with_tempdir path] starts. *)
Definition entered (path : string) (s : state) : state :=
  set_fs (<[path := ∅]> (fs s)) s.

(** The event by which a grade message reaches its reader: the log line of
    a dry run, the comment posted otherwise. *)
Definition report_event (cfg : config) (sub : submission) (message : string) : event :=
  if dry_run cfg
  then Log LInfo ("would have said " +:+ message +:+ " to " +:+ user_name sub)
  else Edit (submission_id sub) (grade_comment message).

(** [RUN] has the two keys of distributed testing (lines 57-59). *)
Definition dist_configured (self : handler) : bool :=
  match parser self !! "RUN" with
  | Some run =>
      match run !! "dist_command", run !! "host_ip" with
      | Some _, Some _ => true
      | _, _ => false
      end
  | None => false
  end.

(** Whether the precommand, if there is one, ends in time with an empty
    error stream when it is the next process started from [s]. *)
Definition precommand_passes (w : world) (run : gmap string string) (s : state) : bool :=
  match run !! "precommand" with
  | None => true
  | Some precommand =>
      match pb_wait (w_process w (spawned s) precommand) (compile_timeout s) with
      | Some (_, err, _) => negb (Py.truthy err)
      | None => false
      end
  end.

(** The process number of the evaluation command of a run started from [s]. *)
Definition main_pid (run : gmap string string) (s : state) : nat :=
  match run !! "precommand" with
  | Some _ => S (spawned s)
  | None => spawned s
  end.

(** The files the attachments of a submission leave in a directory: each is
    fetched under its name, extracted, and its archive deleted. *)
Definition student_files (w : world) (atts : list attachment) (work : dir) : dir :=
  foldl (fun d a =>
           match att_fetch a with
           | inr data =>
               match w_unzip w data with
               | inr entries => delete (att_filename a) (extract entries (<[att_filename a := data]> d))
               | inl _ => d
               end
           | inl _ => d
           end) work atts.

(** Every attachment can be fetched and is a readable archive. *)
Definition attachments_ok (w : world) (atts : list attachment) : bool :=
  forallb (fun a =>
             match att_fetch a with
             | inr data => match w_unzip w data with inr _ => true | inl _ => false end
             | inl _ => false
             end) atts.

(** The effects of a precommand that ends in time. *)
Definition precommand_effects (w : world) (run : gmap string string) (s : state) : list event :=
  match run !! "precommand" with
  | None => []
  | Some precommand =>
      match pb_wait (w_process w (spawned s) precommand) (compile_timeout s) with
      | Some (out, _, _) =>
          [Log LDebug ("running precommand - " +:+ precommand);
           Popen (spawned s) precommand None false;
           Communicate (spawned s) (Some (compile_timeout s));
           Log LDebug ("precommand result - " +:+ Py.repr_bytes out)]
      | None => []
      end
  end.

(** Waiting for a child process, or running the distributed tests. *)
Definition is_wait_or_remote (ev : event) : bool :=
  match ev with
  | Communicate _ _ => true
  | RunDistributed _ _ _ _ _ => true
  | _ => false
  end.

(** ** Concrete courses, configurations and worlds *)
Module Sample.

Definition passes : proc_behaviour :=
  {| pb_wait := fun _ => Some ("PASSED" +:+ LF, "", 0%Z); pb_drain := "" |}.

(** A process that outlives every timeout, with some output already written. *)
Definition hangs : proc_behaviour :=
  {| pb_wait := fun _ => None; pb_drain := "test 1 ok" +:+ LF |}.

Definition fails : proc_behaviour :=
  {| pb_wait := fun _ => Some ("FAILED" +:+ LF, "", 1%Z); pb_drain := "" |}.

(** A world in which archives hold what [entries] says, every process
    behaves as [proc] says and every service answers. *)
Definition world_of (proc : nat → string → proc_behaviour)
    (entries : Py.bytes → string + list (string * Py.bytes)) : world :=
  {| w_process := proc;
     w_unzip := entries;
     w_decode := fun b => inr b;
     w_strptime := fun _ => true;
     w_run_distributed := fun _ _ _ _ _ _ => inr ("REMOTE OK" +:+ LF);
     w_edit := fun _ _ => None;
     w_temp_fixed := fun a => "/tmp/codeval" +:+ Py.str_of_int (assignment_id a) +:+ "fixed";
     w_tmpdir := fun sub => "/tmp/codeval" +:+ Py.str_of_int (submission_id sub) +:+ "submission" |}.

(** The archive [ZIP] holds a.txt and b.txt; nothing else is an archive. *)
Definition entries (data : Py.bytes) : string + list (string * Py.bytes) :=
  if String.eqb data "ZIP"
  then inr [("a.txt", "student a"); ("b.txt", "student b")]
  else inl "File is not a zip file".

Definition all_pass : world := world_of (fun _ _ => passes) entries.

(** The precommand [make] hangs; the evaluation command passes. *)
Definition make_hangs : world :=
  world_of (fun _ cmd => if String.eqb cmd "make" then hangs else passes) entries.

(** The evaluation command hangs; a precommand passes. *)
Definition tests_hang : world :=
  world_of (fun _ cmd => if String.eqb cmd "make" then passes else hangs) entries.

(** The precommand [make] ends in time and writes to its error stream. *)
Definition warns : proc_behaviour :=
  {| pb_wait := fun _ => Some ("cc main.c" +:+ LF, "main.c: warning", 0%Z); pb_drain := "" |}.

Definition make_warns : world :=
  world_of (fun _ cmd => if String.eqb cmd "make" then warns else passes) entries.

Definition tests_fail : world :=
  world_of (fun _ cmd => if String.eqb cmd "make" then passes else fails) entries.

Definition run_plain : gmap string string :=
  {[ "command" := "EVALUATE SUBMISSIONS" ]}.

Definition run_make : gmap string string :=
  <[ "precommand" := "make" ]> run_plain.

Definition run_dist : gmap string string :=
  <[ "dist_command" := "dist HOST" ]> (<[ "host_ip" := "10.0.0.1" ]> run_plain).

Definition self_of (run : gmap string string) : handler :=
  {| parser := {[ "RUN" := run ]}; config_file := "codeval.ini" |}.

Definition options (dry forced : bool) : config :=
  {| verbose := false; dry_run := dry; force := forced; copy_tmpdir := false |}.

Definition data : dist_data :=
  {| dd_assignment_id := "1"; dd_student_id := "3";
     dd_student_name := "ann"; dd_submitted_at := "2024-03-01T12:00:00Z" |}.

Definition zip : attachment := {| att_filename := "work.zip"; att_fetch := inr "ZIP" |}.

(** A submission never graded. *)
Definition fresh : submission :=
  {| submission_id := 7; user_id := 3; user_name := "ann";
     submitted_at := "2024-03-01T12:00:00Z";
     submission_comments := [];
     attachments := Some [zip] |}.

Definition with_comments (cs : list comment) (sub : submission) : submission :=
  {| submission_id := submission_id sub; user_id := user_id sub; user_name := user_name sub;
     submitted_at := submitted_at sub;
     submission_comments := cs;
     attachments := attachments sub |}.

(** Graded by a comment created at the very time of the submission. *)
Definition graded_at_once : submission :=
  with_comments [ {| comment_text := grade_comment "PASSED"; created_at := "2024-03-01T12:00:00Z" |} ] fresh.

(** Graded by a comment created a minute after the submission. *)
Definition graded_later : submission :=
  with_comments [ {| comment_text := grade_comment "PASSED"; created_at := "2024-03-01T12:01:00Z" |} ] fresh.

(** A submission whose attachment cannot be fetched. *)
Definition broken : submission :=
  {| submission_id := 8; user_id := 4; user_name := "bob";
     submitted_at := "2024-03-01T13:00:00Z";
     submission_comments := [];
     attachments := Some [ {| att_filename := "work.zip"; att_fetch := inl "404 Not Found" |} ] |}.

Definition hw1 : assignment :=
  {| assignment_id := 1; assignment_name := "hw1"; submissions := [fresh] |}.
Definition hw2 : assignment :=
  {| assignment_id := 2; assignment_name := "hw2"; submissions := [fresh] |}.

(** hw1 raises the timeout and enables distributed tests; hw2 has an empty
    descriptor. *)
Definition specs_folder : folder :=
  {| full_name := CODEVAL_FOLDER;
     folder_files :=
       [ {| display_name := "hw1.codeval"; file_data := "CTO 45" +:+ LF +:+ "--DT--" +:+ LF |};
         {| display_name := "hw2.codeval"; file_data := "" |} ] |}.

Definition two_assignments : course :=
  {| folders := [specs_folder]; assignments := [hw1; hw2] |}.

(** One assignment with two submissions, the first of which cannot be
    fetched. *)
Definition hw3 : assignment :=
  {| assignment_id := 3; assignment_name := "hw3"; submissions := [broken; fresh] |}.

Definition fixed_files : dir := {[ "a.txt" := "fixed a" ]}.

(** A state with the fixed files in place and an empty submission directory. *)
Definition prepared : state :=
  set_fs (<[ "/tmp/fixed" := fixed_files ]> (<[ "/tmp/sub" := ∅ ]> ∅)) initial_state.

End Sample.

(** ** Reading a run, continued *)

Definition is_mark_inactive (ev : event) : bool :=
  match ev with MarkInactive _ _ => true | _ => false end.

(** What [communicate] finds for the evaluation command of a run of
    [evaluate] started from [s]. *)
Definition main_wait (w : world) (run : gmap string string) (command tmpdir : string)
    (s : state) : option (Py.bytes * Py.bytes * Z) :=
  pb_wait (w_process w (main_pid run s) (build_command command (executable s) tmpdir))
          (compile_timeout s).

(** The evaluation command times out. *)
Definition main_expires (w : world) (run : gmap string string) (command tmpdir : string)
    (s : state) : bool :=
  match main_wait w run command tmpdir s with
  | None => true
  | Some _ => false
  end.

(** The evaluation command times out or exits with a non-zero code. *)
Definition main_fails (w : world) (run : gmap string string) (command tmpdir : string)
    (s : state) : bool :=
  match main_wait w run command tmpdir s with
  | None => true
  | Some (_, _, returncode) => negb (returncode =? 0)%Z
  end.

(** [m] leaves a state that [R] relates to the one it started from. *)
Definition stable {A} (R : state → state → Prop) (m : M A) : Prop :=
  ∀ s, R s (final (m s)).

(** The settings a descriptor decides are the same in both states. *)
Definition same_settings (s s' : state) : Prop :=
  compile_timeout s' = compile_timeout s
  ∧ has_distributed_tests s' = has_distributed_tests s
  ∧ executable s' = executable s.



(** The files of a folder that [get_file] keeps for a name (line 227). *)
Definition named (file_name : string) (files : list canvas_file) : list canvas_file :=
  List.filter (fun f => String.eqb (display_name f) file_name) files.

(** The first token of a descriptor line, as [directive] reads it. *)
Definition keyword (line : string) : string :=
  hd "" (Py.split " " (Py.strip line)).

(** Whether some line of a descriptor starts with the keyword [kw]. *)
Definition uses (kw : string) (text : Py.bytes) : bool :=
  existsb (fun line => String.eqb (keyword line) kw) (Py.readlines text).

(** When [m] returns normally, it leaves a state that [R] relates to the one
    it started from. *)
Definition stable_ok {A} (R : state → state → Prop) (m : M A) : Prop :=
  ∀ s a, outcome (m s) = Ok a → R s (final (m s)).

(** The executable, if one is set, is a file of the directory [dest_dir],
    and no archive of extra files is left in that directory. *)
Definition executable_present (dest_dir : string) (s : state) : Prop :=
  ∃ files : dir,
    fs s !! dest_dir = Some files
    ∧ files !! "extrafiles.zip" = None
    ∧ ∀ f, executable s = Some f → is_Some (files !! f).

(** The ids of the submissions a comment was posted to, in order. *)
Definition posted_to (t : list event) : list Z :=
  flat_map (fun ev => match ev with Edit id _ => [id] | _ => [] end) t.

(** ** Courses (lines 61-92) *)

(** [needle in s] on [str]: some suffix of [s] starts with [needle].  The
    encoding being UTF-8, a match on the bytes is a match on the text. *)
Fixpoint str_contains (needle s : string) : bool :=
  String.prefix needle s
  || match s with
     | EmptyString => false
     | String _ rest => str_contains needle rest
     end.

(** An assignment group of a course. *)
Record assignment_group := { ag_name : string; ag_id : Z }.

(** A course as [canvas.get_courses] lists it.  A course may lack the
    attributes [start_at_date] and [end_at_date]; a datetime is the instant
    it denotes, in microseconds. *)
Record canvas_course := {
  cc_name : string;
  start_at_date : option Z;
  end_at_date : option Z;
  (* get_folders with the files, get_assignments with the submissions *)
  cc_content : course;
  (* the attribute [name] of each folder of get_folders, in order *)
  cc_folder_names : list string;
  (* get_assignment_groups *)
  cc_groups : list assignment_group
}.

(** A course of the list [get_courses] returns, with the attributes [start]
    and [end] the loop has set on it. *)
Record listed_course := {
  listed_of : canvas_course;
  start : Z;
  end_ : Z
}.

(** [get_courses], on the courses the API call returns and the value of
    [datetime.now] at the call. *)
Fixpoint get_courses (courses : list canvas_course) (now : Z) (name : string)
    (is_active is_finished : bool) : list listed_course :=
  match courses with
  | [] => []
  | c :: rest =>
      let start := default now (start_at_date c) in
      let end_ := default now (end_at_date c) in
      let course_list := get_courses rest now name is_active is_finished in
      if is_active && ((start >? now)%Z || (end_ <? now)%Z) then course_list
      else if is_finished && (end_ <? now)%Z then course_list
      else if str_contains name (cc_name c)
           then {| listed_of := c; start := start; end_ := end_ |} :: course_list
           else course_list
  end.

Definition listed_name (c : listed_course) : string := cc_name (listed_of c).

(** [get_course]: [listed] is what the API and the clock give at the call
    of line 63, [relisted] what they give at the call of line 66. *)
Definition get_course (listed relisted : list canvas_course * Z) (name : string)
    (is_active : bool) : M listed_course :=
  let course_list := get_courses listed.1 listed.2 name is_active false in
  match course_list with
  | [] =>
      error ("no courses found that contain " +:+ name +:+ ". options are:") ;;
      for_each (get_courses relisted.1 relisted.2 "" is_active false)
        (fun c => error ("    " +:+ listed_name c)) ;;
      sys_exit 2
  | [c] => ret c
  | _ =>
      error ("multiple courses found for " +:+ name +:+ ": "
             +:+ Py.repr_str_list (map listed_name course_list)) ;;
      for_each course_list (fun c => error ("    " +:+ listed_name c)) ;;
      sys_exit 2
  end.

(** ** The grading command (lines 165-166, 439-447) *)

(** The method [grade_submissions] of [CanvasHandler], from its first line. *)
Definition CanvasHandler_grade_submissions (w : world) (cfg : config) (self : handler)
    (listed relisted : list canvas_course * Z) (course_name : string) : M unit :=
  c <- get_course listed relisted course_name true ;;
  grade_submissions w cfg self course_name (cc_content (listed_of c)).

(** The command [grade_submissions]; [set_config] makes its options what
    [get_config] returns from then on. *)
Definition cmd_grade_submissions (w : world) (self : handler)
    (listed relisted : list canvas_course * Z)
    (dry verbose_ : bool) (course_name : string) (force_ copytmpdir : bool) : M unit :=
  (if dry then warn "This is a dry run. No updates to canvas will be made." else ret tt) ;;
  let cfg := {| verbose := verbose_; dry_run := dry; force := force_;
                copy_tmpdir := copytmpdir |} in
  CanvasHandler_grade_submissions w cfg self listed relisted course_name.

(** ** The constructor (lines 30-47) *)

(** [__init__], on the sections [parser.read] has found in codeval.ini.
    [connect url token] is [Canvas(url, token).get_current_user()]: the
    description of the failure of either call, or the name and the id of
    the user. *)
Definition init (self : handler) (connect : string → string → string + string * Z) : M unit :=
  for_each ["url"; "token"] (fun key => _check_config self "SERVER" key) ;;
  for_each ["command"] (fun key => _check_config self "RUN" key) ;;
  try_except
    (server <- getitem (parser self) "SERVER" ;;
     url <- getitem server "url" ;;
     server <- getitem (parser self) "SERVER" ;;
     token <- getitem server "token" ;;
     match connect url token with
     | inl failure => raise (Exn CollaboratorError failure)
     | inr (name, ident) =>
         info ("connected to canvas as " +:+ name
               +:+ " (" +:+ Py.str_of_int ident +:+ ")")
     end)
    (fun _ => true)
    (fun _ => errorWithException "there was a problem accessing canvas.") ;;
  modify (set_executable None).

(** [RUN] has the key command, and [SERVER] the keys url and token. *)
Definition configured (self : handler) : bool :=
  match parser self !! "SERVER", parser self !! "RUN" with
  | Some server, Some run =>
      match server !! "url", server !! "token", run !! "command" with
      | Some _, Some _, Some _ => true
      | _, _, _ => false
      end
  | _, _ => false
  end.

(** ** Exceptions that leave a computation *)


Definition is_error_log (ev : event) : bool :=
  match ev with Log LError _ => true | _ => false end.


(** ** The configuration of distributed testing, throughout a run *)

(** Distributed tests are not turned on without their configuration. *)
Definition dist_ok (self : handler) (s : state) : Prop :=
  has_distributed_tests s = true → dist_configured self = true.

Definition not_key_error (e : exn) : bool :=
  match exn_class_of e with
  | KeyError => false
  | _ => true
  end.

(** No traceback of a [KeyError] is printed. *)
Definition no_key_error_shown (ev : event) : Prop :=
  match ev with
  | PrintExc e => not_key_error e = true
  | _ => True
  end.

(** Run from a state that satisfies [I], [m] has effects that satisfy [P];
    it leaves a state that satisfies [I] when it returns and when it raises
    an [Exception]; and what it raises is accepted by [C]. *)
Definition guarded {A} (I : state → Prop) (P : event → Prop) (C : exn → bool) (m : M A)
    : Prop :=
  ∀ s, I s →
    Forall P (effects (m s))
    ∧ match outcome (m s) with
      | Ok _ => I (final (m s))
      | Raised e => C e = true ∧ (is_Exception e = true → I (final (m s)))
      end.

(** ** Creating an assignment (lines 302-324, 339-428) *)

(** What the command can raise: the exceptions of the grading side, and
    the [NameError] of a name that is bound nowhere. *)
Inductive aexn :=
| Known (e : exn)
| NameError (name : string).

(** [str(e)] *)
Definition aexn_str (e : aexn) : string :=
  match e with
  | Known e => exn_str e
  | NameError name => "name " +:+ Py.repr_str name +:+ " is not defined"
  end.

(** What [except Exception] catches. *)
Definition is_Exception' (e : aexn) : bool :=
  match e with
  | Known e => is_Exception e
  | NameError _ => true
  end.

(** The effects of the command: those the grading side has too (its log
    lines), the tracebacks, and the calls that change the course.  The
    dictionaries of lines 387-393 and 412-419 are given by their three
    entries that are not constants. *)
Inductive aevent :=
| Did (ev : event)
| Traceback (e : aexn)
| Upload (folder : nat) (file : string)
| EditAssignment (assignment : Z) (name : string) (group : Z) (description : string)
| CreateTopic (title : string)
| CreateAssignment (name : string) (group : Z) (description : string)
| UpdateTopic (message : string).

(** The globals of the module: those of the grading side, and the three
    the command assigns. *)
Record globals := Globals {
  grading : state;
  file_dict : gmap string string;
  html : string;
  assign_name : string
}.

Definition set_grading (s : state) (g : globals) : globals :=
  Globals s (file_dict g) (html g) (assign_name g).
Definition set_file_dict (d : gmap string string) (g : globals) : globals :=
  Globals (grading g) d (html g) (assign_name g).
Definition set_html (h : string) (g : globals) : globals :=
  Globals (grading g) (file_dict g) h (assign_name g).
Definition set_assign_name (n : string) (g : globals) : globals :=
  Globals (grading g) (file_dict g) (html g) n.

(** The globals as the module initialises them (lines 20-26). *)
Definition initial_globals : globals :=
  {| grading := initial_state; file_dict := ∅; html := ""; assign_name := "" |}.

Inductive aresult (A : Type) :=
| AOk (a : A)
| ARaised (e : aexn).
Arguments AOk {A} a.
Arguments ARaised {A} e.

(** A computation of the command. *)
Definition K (A : Type) : Type := globals → aresult A * globals * list aevent.

Definition aret {A} (a : A) : K A := fun g => (AOk a, g, []).

Definition abind {A B} (m : K A) (f : A → K B) : K B :=
  fun g =>
    match m g with
    | (AOk a, g1, t1) => let '(r, g2, t2) := f a g1 in (r, g2, t1 ++ t2)
    | (ARaised e, g1, t1) => (ARaised e, g1, t1)
    end.

Definition araise {A} (e : aexn) : K A := fun g => (ARaised e, g, []).
Definition aemit (ev : aevent) : K unit := fun g => (AOk tt, g, [ev]).
Definition agets {A} (f : globals → A) : K A := fun g => (AOk (f g), g, []).
Definition amodify (f : globals → globals) : K unit := fun g => (AOk tt, f g, []).

(** A computation of the grading side, run on its globals. *)
Definition lift {A} (m : M A) : K A :=
  fun g =>
    let '(r, s, t) := m (grading g) in
    (match r with Ok a => AOk a | Raised e => ARaised (Known e) end,
     set_grading s g, map Did t).

(** [try: body except <classes> as e: handler e else: orelse a], [a] being
    what the body has bound. *)
Definition try_else {A B} (body : K A) (catches : aexn → bool) (handler : aexn → K B)
    (orelse : A → K B) : K B :=
  fun g =>
    match body g with
    | (AOk a, g1, t1) => let '(r, g2, t2) := orelse a g1 in (r, g2, t1 ++ t2)
    | (ARaised e, g1, t1) =>
        if catches e
        then let '(r, g2, t2) := handler e g1 in (r, g2, t1 ++ t2)
        else (ARaised e, g1, t1)
    end.

Declare Scope author_scope.
Delimit Scope author_scope with K.
Notation "x <- m ;; k" := (abind m (fun x => k))
  (at level 100, m at next level, k at level 200, right associativity) : author_scope.
Notation "m ;; k" := (abind m (fun _ => k))
  (at level 100, k at level 200, right associativity) : author_scope.

(** [for x in l: body x] *)
Fixpoint afor_each {A} (l : list A) (body : A → K unit) : K unit :=
  match l with
  | [] => aret tt
  | x :: l' => (body x ;; afor_each l' body)%K
  end.

(** [for x in l: v = body v x], from the value [v] has before the loop. *)
Fixpoint afold {A V} (l : list A) (v : V) (body : V → A → K V) : K V :=
  match l with
  | [] => aret v
  | x :: l' => (v' <- body v x ;; afold l' v' body)%K
  end.

(** The elements of a list with their positions. *)
Definition indexed {A} (l : list A) : list (nat * A) := combine (seq 0 (length l)) l.

(** A discussion topic, as far as the command reads it. *)
Record topic := { topic_html_url : string; topic_title : string }.

(** What lies outside the program, for this command. *)
Record authoring_world := {
  (* os.listdir(path) when path exists and is no regular file *)
  aw_listdir : string → option (list string);
  aw_isfile : string → bool;
  (* fol.upload(file), on the folder of that position: the description of
     its failure, or the filename and the url of file_spec[1] *)
  aw_upload : nat → string → string + string * string;
  (* convertMD2Html.mdToHtml(spec, file_dict): the description of its
     failure, or the HTML *)
  aw_mdToHtml : string → gmap string string → string + string;
  (* convertMD2Html.assignment_name, after that call *)
  aw_assignment_name : string → gmap string string → string;
  (* assignment.edit: the description of its failure, if any *)
  aw_edit_assignment : Z → string → Z → string → option string;
  aw_create_discussion_topic : string → string + topic;
  (* course.create_assignment: the html_url of the assignment created *)
  aw_create_assignment : string → Z → string → string + string;
  aw_update_topic : string → option string
}.

(** A call of the API: the call is made, and fails or gives its result. *)
Definition call {A} (ev : aevent) (r : string + A) : K A :=
  (aemit ev ;;
   match r with
   | inl why => araise (Known (Exn CollaboratorError why))
   | inr a => aret a
   end)%K.

Definition failure_of (r : option string) : string + unit :=
  match r with
  | Some why => inl why
  | None => inr tt
  end.

(** [upload_assignment_files] (lines 302-324) *)
Definition upload_assignment_files (w : authoring_world) (cfg : config) (self : handler)
    (local_path : string) (course : canvas_course) : K unit :=
  match aw_listdir w local_path with
  | Some assign_directory =>
      match assign_directory with
      | [] => lift (error "assignmentFiles directory is empty. Exiting!!")
      | _ =>
          afor_each assign_directory (fun file =>
            let canvas_folders := indexed (cc_folder_names course) in
            afor_each canvas_folders (fun fol =>
              if String.eqb (snd fol) "CodEval" then
                if dry_run cfg then
                  (lift (info "would not upload the files") ;;
                   url <- lift (server <- getitem (parser self) "SERVER" ;;
                                getitem server "url")%M ;;
                   amodify (fun g => set_file_dict (<[file := url]> (file_dict g)) g))%K
                else
                  try_else
                    (call (Upload (fst fol) (local_path +:+ "/" +:+ file))
                          (aw_upload w (fst fol) (local_path +:+ "/" +:+ file)))
                    is_Exception'
                    (fun e =>
                       aemit (Traceback e) ;;
                       lift (errorWithException
                               ("Error uploading the file " +:+ file
                                +:+ " in CodEval folder due to error : " +:+ aexn_str e
                                +:+ ". Exiting!!")))%K
                    (fun file_spec =>
                       amodify (fun g =>
                         set_file_dict (<[fst file_spec := snd file_spec]> (file_dict g)) g))
              else aret tt))
      end
  | None => aret tt
  end.

(** Lines 380-398: the assignment exists. *)
Definition update_assignments (w : authoring_world) (dry : bool) (course : canvas_course)
    (grp_name : assignment_group) : K unit :=
  afor_each (assignments (cc_content course)) (fun assignment =>
    (name <- agets assign_name ;;
     if String.eqb (assignment_name assignment) name then
       if dry then lift (info ("would update " +:+ name +:+ "."))
       else
         description <- agets html ;;
         try_else
           (call (EditAssignment (assignment_id assignment) name (ag_id grp_name) description)
                 (failure_of (aw_edit_assignment w (assignment_id assignment) name
                                (ag_id grp_name) description)))
           is_Exception'
           (fun e =>
              aemit (Traceback e) ;;
              lift (errorWithException
                      ("Editing assignment " +:+ name +:+ " failed with the exception : "
                       +:+ aexn_str e)))
           (fun _ => lift (info ("Successfully edited assignment " +:+ name)))
     else aret tt)%K).

(** Lines 400-428: there is no assignment of that name.  On a dry run the
    argument of [info] reads [assignment_name], which is neither a local
    nor a global of the module. *)
Definition create_new_assignment (w : authoring_world) (dry : bool)
    (grp_name : assignment_group) : K unit :=
  if dry then araise (NameError "assignment_name")
  else
    (name <- agets assign_name ;;
     try_else
       (dis_topic <- call (CreateTopic name) (aw_create_discussion_topic w name) ;;
        lift (debug ("Created Discussion Topic: " +:+ name)) ;;
        let disUrlHtml :=
          "<a href=" +:+ topic_html_url dis_topic +:+ ">" +:+ topic_title dis_topic +:+ "</a>" in
        h <- agets html ;;
        let description := Py.replace h "HW_URL" disUrlHtml in
        created_url <- call (CreateAssignment name (ag_id grp_name) description)
                            (aw_create_assignment w name (ag_id grp_name) description) ;;
        lift (debug ("Crated new assignment: " +:+ name)) ;;
        let message :=
          "This Discussion is for Assignment <a href=" +:+ created_url +:+ ">" +:+ name
          +:+ "</a>" in
        call (UpdateTopic message) (failure_of (aw_update_topic w message)) ;;
        lift (debug ("Updated the Discussion Topic by linking it with the corresponding "
                     +:+ "assignment: " +:+ name)))
       is_Exception'
       (fun e =>
          aemit (Traceback e) ;;
          lift (errorWithException
                  ("Creating Discussion topic and assignment failed due to the exception: "
                   +:+ aexn_str e)))
       (fun _ => lift (info ("Successfully created assignment and Discussion Topic " +:+ name))))%K.

(** Lines 377-428: the assignment is updated or created. *)
Definition write_assignment (w : authoring_world) (dry : bool) (course : canvas_course)
    (grp_name : assignment_group) : K unit :=
  let canvas_assignments := assignments (cc_content course) in
  (lift (debug "Successfully got all the assignments from the desired course") ;;
   let canvas_assign_names := map assignment_name canvas_assignments in
   name <- agets assign_name ;;
   if existsb (String.eqb name) canvas_assign_names
   then update_assignments w dry course grp_name
   else create_new_assignment w dry grp_name)%K.

(** The command [create_assignment] (lines 339-428); [local_path] is the
    global [path]. *)
Definition create_assignment (w : authoring_world) (self : handler)
    (listed relisted : list canvas_course * Z) (local_path : string)
    (dry verbose_ : bool) (course_name group_name specname : string) : K unit :=
  let cfg := {| verbose := verbose_; dry_run := dry; force := false; copy_tmpdir := false |} in
  (found <- try_else (lift (get_course listed relisted course_name true))
              is_Exception'
              (fun e =>
                 lift (errorWithException
                         ("get_course api failed with following error : " +:+ aexn_str e)))
              (fun found =>
                 lift (debug ("Successfully retrieved the course: " +:+ course_name)) ;;
                 aret found) ;;
   let course := listed_of found in
   upload_assignment_files w cfg self local_path course ;;
   lift (debug "Successfully uploaded the files in the CodEval folder") ;;
   let spec_abs_path := local_path +:+ "/" +:+ specname in
   (if negb (aw_isfile w spec_abs_path)
    then lift (errorWithException
                 ("The specification file:" +:+ spec_abs_path
                  +:+ " does not exist in the CodEval folder. Exiting!!"))
    else aret tt) ;;
   files <- agets file_dict ;;
   try_else
     (match aw_mdToHtml w spec_abs_path files with
      | inl why => araise (Known (Exn CollaboratorError why))
      | inr converted => amodify (set_html converted)
      end)
     is_Exception'
     (fun e =>
        aemit (Traceback e) ;;
        lift (errorWithException "Error in convertMD2Html::mdToHtml function"))
     (fun _ => lift (debug "Successfully converted the assignment description to HTML")) ;;
   amodify (set_assign_name (aw_assignment_name w spec_abs_path files)) ;;
   grp_name <- afold (cc_groups course) None (fun grp_name assign_group =>
                 if String.eqb (ag_name assign_group) group_name then
                   lift (debug ("The group id is: " +:+ Py.str_of_int (ag_id assign_group))) ;;
                   aret (Some assign_group)
                 else aret grp_name) ;;
   match grp_name with
   | None =>
       lift (errorWithException
               ("The group name : " +:+ group_name +:+ " does not exist. Exiting!"))
   | Some grp_name => write_assignment w dry course grp_name
   end)%K.

(** Reading a run of the command. *)
Definition aoutcome {A} (x : aresult A * globals * list aevent) : aresult A := x.1.1.
Definition afinal {A} (x : aresult A * globals * list aevent) : globals := x.1.2.
Definition aeffects {A} (x : aresult A * globals * list aevent) : list aevent := x.2.

(** The effects that change the course. *)
Definition changes_course (ev : aevent) : bool :=
  match ev with
  | Did _ | Traceback _ => false
  | _ => true
  end.

Definition is_upload (ev : aevent) : bool :=
  match ev with Upload _ _ => true | _ => false end.

(** The changes made to the assignments and the discussion topics. *)
Definition course_changes (t : list aevent) : list aevent :=
  List.filter (fun ev => changes_course ev && negb (is_upload ev)) t.

(** An effect that is no change to the assignments or the topics. *)
Definition quiet (ev : aevent) : Prop :=
  changes_course ev && negb (is_upload ev) = false.

(** An exception of the grading side. *)
Definition is_known (e : aexn) : bool :=
  match e with Known _ => true | NameError _ => false end.

(** [awp m g Q]: run from [g], [m] ends with an outcome, globals and
    effects that satisfy [Q]. *)
Definition awp {A} (m : K A) (g : globals) (Q : aresult A → globals → list aevent → Prop)
    : Prop :=
  Q (aoutcome (m g)) (afinal (m g)) (aeffects (m g)).

(** From whatever globals [m] is run, every effect of it satisfies [P] and
    every exception it raises is accepted by [C]. *)
Definition asound {A} (P : aevent → Prop) (C : aexn → bool) (m : K A) : Prop :=
  ∀ g, Forall P (aeffects (m g)) ∧ ∀ e, aoutcome (m g) = ARaised e → C e = true.

(** The three globals of the command are the same in both. *)
Definition same_globals (g g' : globals) : Prop :=
  file_dict g' = file_dict g ∧ html g' = html g ∧ assign_name g' = assign_name g.

(** The last group of the name [group_name], if any. *)
Definition last_group (group_name : string) (groups : list assignment_group)
    (v : option assignment_group) : option assignment_group :=
  fold_left (fun acc grp => if String.eqb (ag_name grp) group_name then Some grp else acc)
            groups v.



(** The url of the server in the configuration. *)
Definition server_url (self : handler) : option string :=
  server ← parser self !! "SERVER"; server !! "url".

(** The assignments of a course that have the name [name]. *)
Definition called (name : string) (c : canvas_course) : list assignment :=
  List.filter (fun a => String.eqb (assignment_name a) name) (assignments (cc_content c)).

(** The CodEval folders of a course, by their positions. *)
Definition upload_folders (c : canvas_course) : list nat :=
  map fst (List.filter (fun fol => String.eqb (snd fol) "CodEval") (indexed (cc_folder_names c))).

(** ** More concrete inputs *)
Module Cases.

(** A world in which no comment can be posted. *)
Definition posting_fails : world :=
  {| w_process := fun _ _ => Sample.passes;
     w_unzip := Sample.entries;
     w_decode := fun b => inr b;
     w_strptime := fun _ => true;
     w_run_distributed := fun _ _ _ _ _ _ => inr ("REMOTE OK" +:+ LF);
     w_edit := fun _ _ => Some "403 Forbidden";
     w_temp_fixed := w_temp_fixed Sample.all_pass;
     w_tmpdir := w_tmpdir Sample.all_pass |}.

(** A folder whose descriptor hw4 fetches the archive of extra files and
    names b.txt, one of its entries, as the executable. *)
Definition using_folder : folder :=
  {| full_name := CODEVAL_FOLDER;
     folder_files :=
       [ {| display_name := "hw4.codeval";
            file_data := "Z extra.zip" +:+ LF +:+ "USING b.txt" +:+ LF +:+ "T 1" +:+ LF |};
         {| display_name := "extra.zip"; file_data := "ZIP" |} ] |}.

(** A course that has ended, one under way, and one without dates. *)
Definition cs100 : canvas_course :=
  {| cc_name := "CS 100 Intro"; start_at_date := Some 10%Z; end_at_date := Some 50%Z;
     cc_content := {| folders := []; assignments := [] |};
     cc_folder_names := []; cc_groups := [] |}.

Definition cs101 : canvas_course :=
  {| cc_name := "CS 101 Programming"; start_at_date := Some 100%Z; end_at_date := Some 200%Z;
     cc_content := Sample.two_assignments;
     cc_folder_names := ["CodEval"; "unfiled"];
     cc_groups := [ {| ag_name := "Assignments"; ag_id := 11%Z |};
                    {| ag_name := "Exams"; ag_id := 12%Z |} ] |}.

Definition cs102 : canvas_course :=
  {| cc_name := "CS 102 Data"; start_at_date := None; end_at_date := None;
     cc_content := {| folders := []; assignments := [] |};
     cc_folder_names := []; cc_groups := [] |}.

(** What the API lists, at a time when cs101 is under way. *)
Definition term : list canvas_course * Z := ([cs100; cs101; cs102], 150%Z).

(** A configuration file with all that the constructor asks for. *)
Definition complete : handler :=
  {| parser := {[ "SERVER" := {[ "url" := "https://canvas.example"; "token" := "secret" ]};
                  "RUN" := Sample.run_plain ]};
     config_file := "codeval.ini" |}.

(** The directory assignmentFiles holds the spec hw9.md and a figure; the
    conversion names the assignment hw9, which the course does not have. *)
Definition desk : authoring_world :=
  {| aw_listdir := fun _ => Some ["hw9.md"; "fig.png"];
     aw_isfile := fun p => String.eqb p "assignmentFiles/hw9.md";
     aw_upload := fun _ file => inr (file, "https://canvas.example/files/" +:+ file);
     aw_mdToHtml := fun _ _ => inr "<h1>hw9</h1> HW_URL";
     aw_assignment_name := fun _ _ => "hw9";
     aw_edit_assignment := fun _ _ _ _ => None;
     aw_create_discussion_topic :=
       fun title => inr {| topic_html_url := "https://canvas.example/topics/1";
                           topic_title := title |};
     aw_create_assignment := fun _ _ _ => inr "https://canvas.example/assignments/9";
     aw_update_topic := fun _ => None |}.

End Cases.

(** * Properties *)

(** ** The monad *)

Lemma wp_ret {A} (a : A) s (Q : result A → state → list event → Prop) :
  Q (Ok a) s [] → wp (ret a) s Q.
Proof. exact id. Qed.

Lemma wp_raise {A} e s (Q : result A → state → list event → Prop) :
  Q (Raised e) s [] → wp (raise e) s Q.
Proof. exact id. Qed.

Lemma wp_emit ev s (Q : result unit → state → list event → Prop) :
  Q (Ok tt) s [ev] → wp (emit ev) s Q.
Proof. exact id. Qed.

Lemma wp_gets {A} (f : state → A) s (Q : result A → state → list event → Prop) :
  Q (Ok (f s)) s [] → wp (gets f) s Q.
Proof. exact id. Qed.

Lemma wp_modify f s (Q : result unit → state → list event → Prop) :
  Q (Ok tt) (f s) [] → wp (modify f) s Q.
Proof. exact id. Qed.

Lemma wp_bind {A B} (m : M A) (f : A → M B) s (Q : result B → state → list event → Prop) :
  wp m s (fun r s1 t1 =>
            match r with
            | Ok a => wp (f a) s1 (fun r2 s2 t2 => Q r2 s2 (t1 ++ t2))
            | Raised e => Q (Raised e) s1 t1
            end) →
  wp (bind m f) s Q.
Proof.
  unfold wp, bind, outcome, final, effects.
  destruct (m s) as [[[a|e] s1] t1]; simpl; [|exact id].
  destruct (f a s1) as [[r2 s2] t2]; exact id.
Qed.

Lemma wp_try {A} (body : M A) (catches : exn → bool) (handler : exn → M A) s (Q : result A → state → list event → Prop) :
  wp body s (fun r s1 t1 =>
               match r with
               | Ok a => Q (Ok a) s1 t1
               | Raised e =>
                   if catches e
                   then wp (handler e) s1 (fun r2 s2 t2 => Q r2 s2 (t1 ++ t2))
                   else Q (Raised e) s1 t1
               end) →
  wp (try_except body catches handler) s Q.
Proof.
  unfold wp, try_except, outcome, final, effects.
  destruct (body s) as [[[a|e] s1] t1]; simpl; [exact id|].
  destruct (catches e); [|exact id].
  destruct (handler e s1) as [[r2 s2] t2]; exact id.
Qed.

Lemma wp_run {A} (m : M A) s (Q : result A → state → list event → Prop) r s' t :
  m s = (r, s', t) → Q r s' t → wp m s Q.
Proof. unfold wp; intros ->; exact id. Qed.

(** ** The regrade decision *)

Lemma any_graded_after_spec submitted comments :
  any_graded_after submitted comments = true
  ↔ ∃ c, In c comments ∧ graded_after submitted c = true.
Proof.
  induction comments as [|c rest IH]; simpl.
  - split; [discriminate | intros (c & [] & _)].
  - destruct (graded_after submitted c) eqn:E.
    + split; [|reflexivity]. intros _. exists c. auto.
    + rewrite IH. split.
      * intros (c' & Hin & Hc'). exists c'. auto.
      * intros (c' & [<- | Hin] & Hc'); [congruence|]. exists c'. auto.
Qed.

Lemma should_check_submission_false sub :
  should_check_submission sub = false
  ↔ ∃ c, In c (submission_comments sub) ∧ graded_after (submitted_at sub) c = true.
Proof.
  unfold should_check_submission.
  destruct (submission_comments sub) as [|c0 rest] eqn:E.
  - split; [discriminate | intros (c & [] & _)].
  - rewrite <- E. destruct (any_graded_after _ _) eqn:Hany.
    + apply any_graded_after_spec in Hany as (c & Hin & Hc).
      split; [|reflexivity]. intros _. exists c. split; [|exact Hc].
      apply in_rev. exact Hin.
    + split; [discriminate|]. intros (c & Hin & Hc).
      assert (any_graded_after (submitted_at sub) (rev (submission_comments sub)) = true) as H.
      { apply any_graded_after_spec. exists c. split; [|exact Hc]. apply in_rev in Hin. exact Hin. }
      congruence.
Qed.

Lemma str_gt_irrefl t : Py.str_gt t t = false.
Proof.
  unfold Py.str_gt, String.ltb.
  pose proof (String.compare_antisym t t) as H.
  destruct (t ?= t)%string; simpl in H; congruence.
Qed.

(** ** The execution engine *)

Lemma run_command_timeout w command d s :
  pb_wait (w_process w (spawned s) command) (compile_timeout s) = None →
  run_command w command d s
  = (Ok (inl (pb_drain (w_process w (spawned s) command) +:+ timeout_notice (compile_timeout s))),
     set_spawned (S (spawned s)) s,
     [Popen (spawned s) command None true;
      Communicate (spawned s) (Some (compile_timeout s));
      Kill (spawned s);
      Communicate (spawned s) None;
      MarkInactive (dd_assignment_id d) (dd_student_id d)]).
Proof.
  intros H.
  unfold run_command, popen, communicate, communicate_killed, kill,
    mark_submission_as_inactive_if_present, try_except, bind, gets, modify, emit, ret, raise.
  cbn [pid args compile_timeout set_spawned spawned].
  rewrite H. reflexivity.
Qed.

Lemma run_command_exit w command d s out err rc :
  pb_wait (w_process w (spawned s) command) (compile_timeout s) = Some (out, err, rc) →
  run_command w command d s
  = if (rc =? 0)%Z
    then (Ok (inr out), set_spawned (S (spawned s)) s,
          [Popen (spawned s) command None true;
           Communicate (spawned s) (Some (compile_timeout s))])
    else (Ok (inl out), set_spawned (S (spawned s)) s,
          [Popen (spawned s) command None true;
           Communicate (spawned s) (Some (compile_timeout s));
           MarkInactive (dd_assignment_id d) (dd_student_id d)]).
Proof.
  intros H.
  unfold run_command, popen, communicate, communicate_killed, kill,
    mark_submission_as_inactive_if_present, try_except, bind, gets, modify, emit, ret, raise.
  cbn [pid args compile_timeout set_spawned spawned].
  rewrite H. destruct (rc =? 0)%Z; reflexivity.
Qed.

Lemma run_precommand_passes w run s :
  precommand_passes w run s = true →
  run_precommand w run s
  = (Ok tt, set_spawned (main_pid run s) s, precommand_effects w run s).
Proof.
  unfold precommand_passes, run_precommand, main_pid, precommand_effects.
  destruct (run !! "precommand") as [pre|]; [|destruct s; reflexivity].
  unfold popen, communicate, errorWithException, error, debug, bind, gets, modify, emit, ret, raise.
  cbn [pid args compile_timeout set_spawned spawned].
  destruct (pb_wait _ _) as [[[out err] rc]|]; [|discriminate].
  destruct (Py.truthy err); [discriminate|]. reflexivity.
Qed.

(** One step of a run: the rule of the head construct. *)
Ltac wp_step :=
  first [ apply wp_ret | apply wp_raise | apply wp_emit | apply wp_gets
        | apply wp_modify | apply wp_bind | apply wp_try ];
  cbv beta iota.

(** An evaluation command that outlives the timeout: the whole run of
    [evaluate]. *)
Lemma evaluate_killed w self temp_fixed tmpdir d s run command :
  parser self !! "RUN" = Some run →
  run !! "command" = Some command →
  Py.truthy command = true →
  precommand_passes w run s = true →
  pb_wait (w_process w (main_pid run s) (build_command command (executable s) tmpdir))
          (compile_timeout s) = None →
  evaluate w self temp_fixed tmpdir d s
  = (Ok (pb_drain (w_process w (main_pid run s) (build_command command (executable s) tmpdir))
         +:+ timeout_notice (compile_timeout s)),
     set_spawned (S (main_pid run s)) s,
     precommand_effects w run s
     ++ [Log LDebug ("command before " +:+ command);
         Log LDebug ("command after " +:+ build_command command (executable s) tmpdir);
         Popen (main_pid run s) (build_command command (executable s) tmpdir) None true;
         Communicate (main_pid run s) (Some (compile_timeout s));
         Kill (main_pid run s);
         Communicate (main_pid run s) None;
         MarkInactive (dd_assignment_id d) (dd_student_id d)]).
Proof.
  intros Hrun Hcmd Htruthy Hpre Hwait.
  pose proof (run_precommand_passes _ _ _ Hpre) as Hp.
  pose proof (run_command_timeout w (build_command command (executable s) tmpdir) d
                (set_spawned (main_pid run s) s) Hwait) as Hc.
  unfold evaluate, bind, getitem.
  rewrite Hrun. unfold ret at 1. rewrite Hcmd. unfold ret at 1. rewrite Htruthy.
  cbn [negb]. unfold ret at 1. rewrite Hp.
  unfold debug, emit, gets.
  cbn [executable set_spawned].
  cbn [executable set_spawned compile_timeout spawned] in Hc. rewrite Hc.
  unfold ret. reflexivity.
Qed.

(** An evaluation command that exits with a non-zero code: the whole run
    of [evaluate]. *)
Lemma evaluate_failed w self temp_fixed tmpdir d s run command out err rc :
  parser self !! "RUN" = Some run →
  run !! "command" = Some command →
  Py.truthy command = true →
  precommand_passes w run s = true →
  pb_wait (w_process w (main_pid run s) (build_command command (executable s) tmpdir))
          (compile_timeout s) = Some (out, err, rc) →
  rc ≠ 0%Z →
  evaluate w self temp_fixed tmpdir d s
  = (Ok out,
     set_spawned (S (main_pid run s)) s,
     precommand_effects w run s
     ++ [Log LDebug ("command before " +:+ command);
         Log LDebug ("command after " +:+ build_command command (executable s) tmpdir);
         Popen (main_pid run s) (build_command command (executable s) tmpdir) None true;
         Communicate (main_pid run s) (Some (compile_timeout s));
         MarkInactive (dd_assignment_id d) (dd_student_id d)]).
Proof.
  intros Hrun Hcmd Htruthy Hpre Hwait Hrc.
  pose proof (run_precommand_passes _ _ _ Hpre) as Hp.
  pose proof (run_command_exit w (build_command command (executable s) tmpdir) d
                (set_spawned (main_pid run s) s) out err rc Hwait) as Hc.
  apply Z.eqb_neq in Hrc. rewrite Hrc in Hc.
  unfold evaluate, bind, getitem.
  rewrite Hrun. unfold ret at 1. rewrite Hcmd. unfold ret at 1. rewrite Htruthy.
  cbn [negb]. unfold ret at 1. rewrite Hp.
  unfold debug, emit, gets.
  cbn [executable set_spawned].
  cbn [executable set_spawned compile_timeout spawned] in Hc. rewrite Hc.
  unfold ret. reflexivity.
Qed.

(** A precommand that is configured: what it does in each of its cases. *)
Lemma run_precommand_cases w run s precommand :
  run !! "precommand" = Some precommand →
  run_precommand w run s
  = match pb_wait (w_process w (spawned s) precommand) (compile_timeout s) with
    | Some (out, err, _) =>
        if Py.truthy err
        then (Raised (Exn EnvironmentError (Py.repr_bytes err)),
              set_spawned (S (spawned s)) s,
              [Log LDebug ("running precommand - " +:+ precommand);
               Popen (spawned s) precommand None false;
               Communicate (spawned s) (Some (compile_timeout s));
               Log LDebug ("precommand result - " +:+ Py.repr_bytes out);
               Log LError (Py.repr_bytes err)])
        else (Ok tt,
              set_spawned (S (spawned s)) s,
              [Log LDebug ("running precommand - " +:+ precommand);
               Popen (spawned s) precommand None false;
               Communicate (spawned s) (Some (compile_timeout s));
               Log LDebug ("precommand result - " +:+ Py.repr_bytes out)])
    | None =>
        (Raised (Exn TimeoutExpired
                   ("Command '" +:+ precommand +:+ "' timed out after "
                    +:+ Py.str_of_int (compile_timeout s) +:+ " seconds")),
         set_spawned (S (spawned s)) s,
         [Log LDebug ("running precommand - " +:+ precommand);
          Popen (spawned s) precommand None false;
          Communicate (spawned s) (Some (compile_timeout s))])
    end.
Proof.
  intros Hpre. unfold run_precommand. rewrite Hpre.
  unfold popen, communicate, errorWithException, error, debug, bind, gets, modify, emit, ret, raise.
  cbn [pid args compile_timeout set_spawned spawned].
  destruct (pb_wait _ _) as [[[out err] rc]|]; [|reflexivity].
  destruct (Py.truthy err); reflexivity.
Qed.

(** When the precommand raises, [evaluate] ends there. *)
Lemma evaluate_precommand_raises w self temp_fixed tmpdir d s run command e s' t :
  parser self !! "RUN" = Some run →
  run !! "command" = Some command →
  Py.truthy command = true →
  run_precommand w run s = (Raised e, s', t) →
  evaluate w self temp_fixed tmpdir d s = (Raised e, s', t).
Proof.
  intros Hrun Hcmd Htruthy Hp.
  unfold evaluate, bind, getitem.
  rewrite Hrun. unfold ret at 1. rewrite Hcmd. unfold ret at 1. rewrite Htruthy.
  cbn [negb]. unfold ret at 1. rewrite Hp. reflexivity.
Qed.

(** The effects of [evaluate] start with those of the precommand. *)
Lemma evaluate_precommand_first w self temp_fixed tmpdir d s run command :
  parser self !! "RUN" = Some run →
  run !! "command" = Some command →
  Py.truthy command = true →
  ∃ rest, effects (evaluate w self temp_fixed tmpdir d s)
          = effects (run_precommand w run s) ++ rest.
Proof.
  intros Hrun Hcmd Htruthy.
  unfold evaluate, bind at 1 2 3 4, getitem.
  rewrite Hrun. unfold ret at 1. rewrite Hcmd. unfold ret at 1. rewrite Htruthy.
  cbn [negb]. unfold ret at 1.
  destruct (run_precommand w run s) as [[[[]|e] s1] t1]; unfold effects; simpl.
  - match goal with |- context [bind ?m ?f s1] => destruct (bind m f s1) as [[r2 s2] t2] end.
    exists t2. reflexivity.
  - exists []. rewrite app_nil_r. reflexivity.
Qed.

Lemma precommand_effects_no_kill w run s :
  List.filter is_kill (precommand_effects w run s) = [].
Proof.
  unfold precommand_effects.
  destruct (run !! "precommand"); [|reflexivity].
  destruct (pb_wait _ _) as [[[] ?]|]; reflexivity.
Qed.

Lemma precommand_effects_no_distributed w run s :
  existsb is_run_distributed (precommand_effects w run s) = false.
Proof.
  unfold precommand_effects.
  destruct (run !! "precommand"); [|reflexivity].
  destruct (pb_wait _ _) as [[[] ?]|]; reflexivity.
Qed.

(** ** Claims about the regrade decision *)

(** C1, as stated, fails: a submission whose only marker comment was created
    at exactly [submitted_at] is not treated as graded; the decision
    returns [True] and the submission is run again. *)
Lemma equal_timestamp_is_regraded :
  (∃ c, In c (submission_comments Sample.graded_at_once)
        ∧ Py.startswith (comment_text c) "[AG]" = true
        ∧ created_at c = submitted_at Sample.graded_at_once)
  ∧ should_check_submission Sample.graded_at_once = true.
Proof.
  split; [|reflexivity].
  eexists. split; [left; reflexivity|]. split; reflexivity.
Qed.

(** C1, amended: the decision returns [False] exactly when some comment
    starts with the marker and was created strictly after [submitted_at]
    (line 149 compares with [>]); when every marker comment carries the
    time of the submission itself, it returns [True]. *)
Theorem should_check_submission_strictly_after (sub : submission) :
  (should_check_submission sub = false
   ↔ ∃ c, In c (submission_comments sub)
          ∧ Py.startswith (comment_text c) "[AG]" = true
          ∧ Py.str_gt (created_at c) (submitted_at sub) = true)
  ∧ ((∀ c, In c (submission_comments sub) →
           Py.startswith (comment_text c) "[AG]" = true →
           created_at c = submitted_at sub) →
     should_check_submission sub = true).
Proof.
  assert (should_check_submission sub = false
          ↔ ∃ c, In c (submission_comments sub)
                 ∧ Py.startswith (comment_text c) "[AG]" = true
                 ∧ Py.str_gt (created_at c) (submitted_at sub) = true) as Hiff.
  { rewrite should_check_submission_false. unfold graded_after.
    split; intros (c & Hin & H); exists c; split; try exact Hin.
    - apply andb_true_iff in H. exact H.
    - apply andb_true_iff. exact H. }
  split; [exact Hiff|].
  intros Hall. destruct (should_check_submission sub) eqn:E; [reflexivity|].
  destruct (proj1 Hiff eq_refl) as (c & Hin & Hmark & Hgt).
  rewrite (Hall c Hin Hmark), str_gt_irrefl in Hgt. discriminate.
Qed.

(** ** Claims about the execution engine *)

(** C2, as stated, fails: the precommand is started with no working
    directory of its own.  In this run the submission directory is /tmp/sub,
    and neither child process is given a [cwd]. *)
Lemma precommand_not_started_in_workdir :
  List.filter is_popen
    (effects (evaluate Sample.all_pass (Sample.self_of Sample.run_make)
                "/tmp/fixed" "/tmp/sub" Sample.data initial_state))
  = [Popen 0 "make" None false; Popen 1 "./evaluate.sh /tmp/sub" None true].
Proof. vm_compute. reflexivity. Qed.

(** C2, amended: a configured precommand is the first child process of an
    evaluation; it is started without a [cwd] (it inherits the working
    directory of the grader), it is waited for under [compile_timeout], and
    when it ends with a non-empty error stream [evaluate] raises with that
    stream and no other process is started. *)
Theorem precommand_aborts_evaluation w self temp_fixed tmpdir d s run command precommand :
  parser self !! "RUN" = Some run →
  run !! "command" = Some command →
  Py.truthy command = true →
  run !! "precommand" = Some precommand →
  (∃ rest, effects (evaluate w self temp_fixed tmpdir d s)
           = [Log LDebug ("running precommand - " +:+ precommand);
              Popen (spawned s) precommand None false;
              Communicate (spawned s) (Some (compile_timeout s))] ++ rest)
  ∧ (∀ out err rc,
       pb_wait (w_process w (spawned s) precommand) (compile_timeout s) = Some (out, err, rc) →
       Py.truthy err = true →
       outcome (evaluate w self temp_fixed tmpdir d s)
       = Raised (Exn EnvironmentError (Py.repr_bytes err))
       ∧ List.filter is_popen (effects (evaluate w self temp_fixed tmpdir d s))
         = [Popen (spawned s) precommand None false]).
Proof.
  intros Hrun Hcmd Htruthy Hpre. split.
  - destruct (evaluate_precommand_first w self temp_fixed tmpdir d s run command
                Hrun Hcmd Htruthy) as (rest & ->).
    rewrite (run_precommand_cases w run s precommand Hpre).
    destruct (pb_wait _ _) as [[[out err] rc]|].
    + destruct (Py.truthy err); unfold effects; simpl; eexists; reflexivity.
    + unfold effects; simpl. eexists; reflexivity.
  - intros out err rc Hwait Herr.
    pose proof (run_precommand_cases w run s precommand Hpre) as Hp.
    rewrite Hwait, Herr in Hp.
    rewrite (evaluate_precommand_raises w self temp_fixed tmpdir d s run command _ _ _
               Hrun Hcmd Htruthy Hp).
    split; reflexivity.
Qed.

(** A run in which [make] writes a warning to its error stream. *)
Lemma precommand_aborts_evaluation_witness :
  outcome (evaluate Sample.make_warns (Sample.self_of Sample.run_make)
             "/tmp/fixed" "/tmp/sub" Sample.data initial_state)
  = Raised (Exn EnvironmentError "b'main.c: warning'")
  ∧ List.filter is_popen
      (effects (evaluate Sample.make_warns (Sample.self_of Sample.run_make)
                  "/tmp/fixed" "/tmp/sub" Sample.data initial_state))
    = [Popen 0 "make" None false].
Proof.
  apply (proj2 (precommand_aborts_evaluation Sample.make_warns (Sample.self_of Sample.run_make)
                  "/tmp/fixed" "/tmp/sub" Sample.data initial_state
                  Sample.run_make "EVALUATE SUBMISSIONS" "make"
                  eq_refl eq_refl eq_refl eq_refl)
               ("cc main.c" +:+ LF) "main.c: warning" 0%Z);
    reflexivity.
Defined.

(** C4: the code breaks the claim on the precommand.  When [make] outlives
    the timeout, [communicate] raises [TimeoutExpired] out of [evaluate]:
    the child is never killed and what it had written is dropped, while
    the evaluation command is killed and its output kept (lines 272-280). *)
Theorem precommand_timeout_is_not_killed :
  evaluate Sample.make_hangs (Sample.self_of Sample.run_make)
    "/tmp/fixed" "/tmp/sub" Sample.data initial_state
  = (Raised (Exn TimeoutExpired "Command 'make' timed out after 20 seconds"),
     set_spawned 1 initial_state,
     [Log LDebug "running precommand - make";
      Popen 0 "make" None false;
      Communicate 0 (Some 20%Z)]).
Proof. vm_compute. reflexivity. Qed.

(** C5: an evaluation command that outlives the timeout makes [evaluate]
    return normally, and the bytes it returns are the output collected
    after the kill followed by the notice line with the threshold. *)
Theorem evaluate_timeout_notice w self temp_fixed tmpdir d s run command :
  parser self !! "RUN" = Some run →
  run !! "command" = Some command →
  Py.truthy command = true →
  precommand_passes w run s = true →
  pb_wait (w_process w (main_pid run s) (build_command command (executable s) tmpdir))
          (compile_timeout s) = None →
  outcome (evaluate w self temp_fixed tmpdir d s)
  = Ok (pb_drain (w_process w (main_pid run s) (build_command command (executable s) tmpdir))
        +:+ LF +:+ "TOOK LONGER THAN " +:+ Py.str_of_int (compile_timeout s)
        +:+ " seconds to run. FAILED" +:+ LF)
  ∧ List.filter is_kill (effects (evaluate w self temp_fixed tmpdir d s))
    = [Kill (main_pid run s)].
Proof.
  intros Hrun Hcmd Htruthy Hpre Hwait.
  rewrite (evaluate_killed w self temp_fixed tmpdir d s run command Hrun Hcmd Htruthy Hpre Hwait).
  split; [reflexivity|].
  unfold effects; simpl. rewrite List.filter_app.
  rewrite precommand_effects_no_kill. reflexivity.
Qed.

(** A run in which the tests hang after [make] has passed. *)
Lemma evaluate_timeout_notice_witness :
  outcome (evaluate Sample.tests_hang (Sample.self_of Sample.run_make)
             "/tmp/fixed" "/tmp/sub" Sample.data initial_state)
  = Ok ("test 1 ok" +:+ LF +:+ LF +:+ "TOOK LONGER THAN 20 seconds to run. FAILED" +:+ LF).
Proof.
  apply (proj1 (evaluate_timeout_notice Sample.tests_hang (Sample.self_of Sample.run_make)
                  "/tmp/fixed" "/tmp/sub" Sample.data initial_state
                  Sample.run_make "EVALUATE SUBMISSIONS"
                  eq_refl eq_refl eq_refl eq_refl eq_refl)).
Defined.

(** C6: when the evaluation command times out or exits with a non-zero
    code, [evaluate] calls the inactive-marking operation with the ids of
    the assignment and of the student, whatever [has_distributed_tests]
    is, and runs no distributed test. *)
Theorem failed_evaluation_marks_inactive w self temp_fixed tmpdir d s run command :
  parser self !! "RUN" = Some run →
  run !! "command" = Some command →
  Py.truthy command = true →
  precommand_passes w run s = true →
  match pb_wait (w_process w (main_pid run s) (build_command command (executable s) tmpdir))
                (compile_timeout s) with
  | Some (_, _, returncode) => returncode ≠ 0%Z
  | None => True
  end →
  In (MarkInactive (dd_assignment_id d) (dd_student_id d))
     (effects (evaluate w self temp_fixed tmpdir d s))
  ∧ existsb is_run_distributed (effects (evaluate w self temp_fixed tmpdir d s)) = false.
Proof.
  intros Hrun Hcmd Htruthy Hpre Hfail.
  destruct (pb_wait _ _) as [[[out err] rc]|] eqn:Hwait.
  - rewrite (evaluate_failed w self temp_fixed tmpdir d s run command out err rc
               Hrun Hcmd Htruthy Hpre Hwait Hfail).
    unfold effects; simpl. split.
    + apply in_or_app. right. simpl. auto 10.
    + rewrite existsb_app, precommand_effects_no_distributed. reflexivity.
  - rewrite (evaluate_killed w self temp_fixed tmpdir d s run command
               Hrun Hcmd Htruthy Hpre Hwait).
    unfold effects; simpl. split.
    + apply in_or_app. right. simpl. auto 10.
    + rewrite existsb_app, precommand_effects_no_distributed. reflexivity.
Qed.

(** A run whose tests fail while distributed testing is off. *)
Lemma failed_evaluation_marks_inactive_witness :
  has_distributed_tests initial_state = false
  ∧ In (MarkInactive "1" "3")
       (effects (evaluate Sample.tests_fail (Sample.self_of Sample.run_plain)
                   "/tmp/fixed" "/tmp/sub" Sample.data initial_state)).
Proof.
  split; [reflexivity|].
  apply (proj1 (failed_evaluation_marks_inactive Sample.tests_fail
                  (Sample.self_of Sample.run_plain)
                  "/tmp/fixed" "/tmp/sub" Sample.data initial_state
                  Sample.run_plain "EVALUATE SUBMISSIONS"
                  eq_refl eq_refl eq_refl eq_refl ltac:(vm_compute; discriminate))).
Defined.

(** ** Claims about the descriptor *)

(** C3: the code breaks the claim.  hw1 says CTO 45 and --DT--; hw2, graded
    next, has an empty descriptor, and yet its submission is run under a
    timeout of 45 seconds and is given a distributed test, because the two
    globals are never reset (unlike [self.executable], line 114).  Parsed
    first, the descriptor of hw2 leaves the defaults 20 and [False]. *)
Theorem descriptor_settings_leak_to_next_assignment :
  (let r := grade_submissions Sample.all_pass (Sample.options false false)
              (Sample.self_of Sample.run_dist) "cs101" Sample.two_assignments initial_state in
   compile_timeout (final r) = 45%Z
   ∧ has_distributed_tests (final r) = true
   ∧ List.filter is_wait_or_remote (effects r)
     = [Communicate 0 (Some 45%Z);
        RunDistributed "dist HOST" "10.0.0.1" "/tmp/codeval1fixed" "/tmp/codeval7submission"
          "/tmp/codeval7submission/testcases.txt";
        Communicate 1 (Some 45%Z);
        RunDistributed "dist HOST" "10.0.0.1" "/tmp/codeval2fixed" "/tmp/codeval7submission"
          "/tmp/codeval7submission/testcases.txt"])
  ∧ (let r := get_valid_test_file Sample.all_pass (Sample.self_of Sample.run_dist) "cs101"
                Sample.specs_folder "hw2" "/tmp/codeval2fixed"
                (entered "/tmp/codeval2fixed" initial_state) in
     outcome r = Ok tt
     ∧ compile_timeout (final r) = 20%Z
     ∧ has_distributed_tests (final r) = false).
Proof. vm_compute. repeat split; reflexivity. Qed.

(** ** The workspace builder *)

Lemma get_dir_run d files s :
  fs s !! d = Some files → get_dir d s = (Ok files, s, []).
Proof. unfold get_dir. intros ->. reflexivity. Qed.

Lemma extract_keeps entries (files : dir) name :
  is_Some (files !! name) → is_Some (extract entries files !! name).
Proof.
  unfold extract. revert files.
  induction entries as [|[n c] entries IH]; intros files H; simpl; [exact H|].
  apply IH. destruct (decide (n = name)) as [->|Hne].
  - rewrite lookup_insert_eq. eauto.
  - rewrite lookup_insert_ne by exact Hne. exact H.
Qed.

(** One attachment: fetched, extracted, its archive removed. *)
Lemma attachment_step w tmpdir a data entries work s :
  att_fetch a = inr data →
  w_unzip w data = inr entries →
  fs s !! tmpdir = Some work →
  (attachment_path <- download_attachment tmpdir a ;;
   unzip w attachment_path tmpdir true) s
  = (Ok tt,
     set_fs (<[tmpdir := delete (att_filename a)
                           (extract entries (<[att_filename a := data]> work))]> (fs s)) s,
     []).
Proof.
  intros Hfetch Hzip Hwork.
  assert (is_Some (extract entries (<[att_filename a := data]> work) !! att_filename a))
    as [kept Hkept].
  { apply extract_keeps. rewrite lookup_insert_eq. eauto. }
  unfold download_attachment, unzip, write_file, read_file, remove_file, put_dir.
  rewrite Hfetch.
  unfold bind, modify, ret. cbn [fst snd].
  rewrite (get_dir_run _ _ _ Hwork).
  unfold get_dir. cbn [fs set_fs].
  rewrite !lookup_insert_eq. rewrite Hzip.
  cbn [fs set_fs fst snd]. rewrite !lookup_insert_eq. cbn [fst snd]. rewrite Hkept.
  cbn [fs set_fs app fst snd]. rewrite !insert_insert_eq.
  destruct s; reflexivity.
Qed.

Lemma download_submission_attachments_run w atts tmpdir : ∀ work s,
  attachments_ok w atts = true →
  fs s !! tmpdir = Some work →
  download_submission_attachments w atts tmpdir s
  = (Ok tt, set_fs (<[tmpdir := student_files w atts work]> (fs s)) s, []).
Proof.
  unfold download_submission_attachments, student_files.
  induction atts as [|a atts IH]; intros work s Hok Hwork.
  - simpl. unfold ret. rewrite insert_id by exact Hwork. destruct s; reflexivity.
  - simpl in Hok. apply andb_true_iff in Hok as [Ha Hok].
    destruct (att_fetch a) as [|data] eqn:Hfetch; [discriminate|].
    destruct (w_unzip w data) as [|entries] eqn:Hzip; [discriminate|].
    cbn [for_each foldl]. rewrite Hfetch, Hzip.
    unfold bind at 1.
    rewrite (attachment_step w tmpdir a data entries work s Hfetch Hzip Hwork).
    rewrite (IH (delete (att_filename a) (extract entries (<[att_filename a := data]> work)))).
    + cbn [fs set_fs app]. rewrite insert_insert_eq. reflexivity.
    + exact Hok.
    + cbn [fs set_fs]. apply lookup_insert_eq.
Qed.

Lemma build_workspace_run w atts temp_fixed tmpdir s fixed work :
  temp_fixed ≠ tmpdir →
  fs s !! temp_fixed = Some fixed →
  fs s !! tmpdir = Some work →
  attachments_ok w atts = true →
  build_workspace w atts temp_fixed tmpdir s
  = (Ok tt, set_fs (<[tmpdir := fixed ∪ student_files w atts work]> (fs s)) s, []).
Proof.
  intros Hne Hfixed Hwork Hok.
  unfold build_workspace, bind.
  rewrite (download_submission_attachments_run w atts tmpdir work s Hok Hwork).
  unfold copy_files_to_submission_dir, bind, put_dir, modify, get_dir.
  cbn [fs set_fs].
  rewrite lookup_insert_ne by congruence. rewrite Hfixed.
  cbn [fs set_fs]. rewrite lookup_insert_eq. cbn [fs set_fs app].
  rewrite insert_insert_eq. reflexivity.
Qed.

(** C8: in the working directory that [download_submission_attachments]
    followed by [copy_files_to_submission_dir] leaves, a name of the fixed
    directory has the fixed content, and every other name has what the
    student's archives left there. *)
Theorem fixed_files_take_precedence w atts temp_fixed tmpdir s (fixed : dir) :
  temp_fixed ≠ tmpdir →
  fs s !! temp_fixed = Some fixed →
  fs s !! tmpdir = Some ∅ →
  attachments_ok w atts = true →
  outcome (build_workspace w atts temp_fixed tmpdir s) = Ok tt
  ∧ ∃ work : dir,
      fs (final (build_workspace w atts temp_fixed tmpdir s)) !! tmpdir = Some work
      ∧ (∀ name content, fixed !! name = Some content → work !! name = Some content)
      ∧ (∀ name, fixed !! name = None → work !! name = student_files w atts ∅ !! name).
Proof.
  intros Hne Hfixed Hwork Hok.
  rewrite (build_workspace_run w atts temp_fixed tmpdir s fixed ∅ Hne Hfixed Hwork Hok).
  split; [reflexivity|].
  exists (fixed ∪ student_files w atts ∅).
  split; [apply lookup_insert_eq|]. split.
  - intros name content H. apply lookup_union_Some_l. exact H.
  - intros name H. apply lookup_union_r. exact H.
Qed.

(** The fixed directory has a.txt; the archive has another a.txt, and b.txt. *)
Lemma fixed_files_take_precedence_witness :
  ∃ work : dir,
    fs (final (build_workspace Sample.all_pass [Sample.zip] "/tmp/fixed" "/tmp/sub"
                 Sample.prepared)) !! "/tmp/sub" = Some work
    ∧ work !! "a.txt" = Some "fixed a"
    ∧ work !! "b.txt" = Some "student b".
Proof.
  destruct (fixed_files_take_precedence Sample.all_pass [Sample.zip] "/tmp/fixed" "/tmp/sub"
              Sample.prepared Sample.fixed_files
              ltac:(discriminate) eq_refl eq_refl eq_refl)
    as (_ & work & Hwork & Hfixed & Hstudent).
  exists work. split; [exact Hwork|]. split.
  - apply Hfixed. reflexivity.
  - rewrite Hstudent; reflexivity.
Defined.

(** ** What a computation can emit and raise *)

Section Sound.

Context (P : event → Prop) (C : exn → bool).

Lemma sound_ret {A} (a : A) : sound P C (ret a).
Proof. intros s. split; [constructor | discriminate]. Qed.

Lemma sound_gets {A} (f : state → A) : sound P C (gets f).
Proof. intros s. split; [constructor | discriminate]. Qed.

Lemma sound_modify f : sound P C (modify f).
Proof. intros s. split; [constructor | discriminate]. Qed.

Lemma sound_emit ev : P ev → sound P C (emit ev).
Proof. intros H s. split; [repeat constructor; exact H | discriminate]. Qed.

Lemma sound_raise {A} e : C e = true → sound P C (@raise A e).
Proof.
  intros H s. split; [constructor|].
  unfold outcome; simpl. intros e' [= <-]. exact H.
Qed.

Lemma sound_bind {A B} (m : M A) (f : A → M B) :
  sound P C m → (∀ a, sound P C (f a)) → sound P C (bind m f).
Proof.
  intros Hm Hf s. specialize (Hm s). unfold bind, effects, outcome in *.
  destruct (m s) as [[[a|e] s1] t1]; simpl in *.
  2:{ destruct Hm as [Hm1 Hm2]. split; [exact Hm1|].
      intros e' [= <-]. apply Hm2. reflexivity. }
  specialize (Hf a s1). unfold effects, outcome in Hf.
  destruct (f a s1) as [[r2 s2] t2]; simpl in *.
  destruct Hm as [Hm _], Hf as [Hf1 Hf2]. split; [|exact Hf2].
  apply Forall_app. split; assumption.
Qed.

Lemma sound_try {A} (body : M A) (catches : exn → bool) (handler : exn → M A) :
  sound P C body → (∀ e, sound P C (handler e)) → sound P C (try_except body catches handler).
Proof.
  intros Hm Hf s. specialize (Hm s). unfold try_except, effects, outcome in *.
  destruct (body s) as [[[a|e] s1] t1]; simpl in *; [exact Hm|].
  destruct (catches e); [|exact Hm].
  specialize (Hf e s1). unfold effects, outcome in Hf.
  destruct (handler e s1) as [[r2 s2] t2]; simpl in *.
  destruct Hm as [Hm _], Hf as [Hf1 Hf2]. split; [|exact Hf2].
  apply Forall_app. split; assumption.
Qed.

Lemma sound_for_each {A} (l : list A) (body : A → M unit) :
  (∀ x, sound P C (body x)) → sound P C (for_each l body).
Proof.
  intros H. induction l as [|x l IH]; simpl.
  - apply sound_ret.
  - apply sound_bind; [apply H | intros _; exact IH].
Qed.

Lemma sound_with_tempdir {A} path (body : string → M A) :
  (∀ d, sound P C (body d)) → sound P C (with_tempdir path body).
Proof.
  intros H s. specialize (H path (set_fs (<[path := ∅]> (fs s)) s)).
  unfold with_tempdir, effects, outcome in *.
  destruct (body path _) as [[r s1] t]. exact H.
Qed.

(** No effect but a posted comment is constrained, and every [Exception]
    is accepted. *)
Hypothesis P_other : ∀ ev, is_edit ev = false → P ev.
Hypothesis C_Exception : ∀ e, is_Exception e = true → C e = true.

Ltac sound_leaf :=
  first [ apply sound_ret | apply sound_gets | apply sound_modify
        | apply sound_emit; apply P_other; reflexivity
        | apply sound_raise; apply C_Exception; reflexivity ].

Ltac sound_step :=
  lazymatch goal with
  | |- sound _ _ (bind _ _) => apply sound_bind; [|intros]
  | |- sound _ _ (try_except _ _ _) => apply sound_try; [|intros]
  | |- sound _ _ (for_each _ _) => apply sound_for_each; intros
  | |- sound _ _ (with_tempdir _ _) => apply sound_with_tempdir; intros
  | |- sound _ _ (if ?b then _ else _) => destruct b
  | |- sound _ _ (match ?x with _ => _ end) => destruct x
  | |- _ => first [ sound_leaf | assumption ]
  end.

Ltac sound_auto := repeat sound_step.

Lemma sound_errorWithException {A} msg : sound P C (@errorWithException A msg).
Proof. unfold errorWithException, error. sound_auto. Qed.

Lemma sound_get_dir d : sound P C (get_dir d).
Proof.
  intros s. unfold get_dir, no_such_file, raise, effects, outcome.
  destruct (fs s !! d); simpl; split; try constructor; try discriminate.
  intros e [= <-]. apply C_Exception. reflexivity.
Qed.

Lemma sound_put_dir d files : sound P C (put_dir d files).
Proof. unfold put_dir. sound_auto. Qed.

Lemma sound_write_file p data : sound P C (write_file p data).
Proof. unfold write_file. pose proof sound_get_dir. pose proof sound_put_dir. sound_auto; auto. Qed.

Lemma sound_read_file p : sound P C (read_file p).
Proof. unfold read_file, no_such_file. pose proof sound_get_dir. sound_auto; auto. Qed.

Lemma sound_remove_file p : sound P C (remove_file p).
Proof.
  unfold remove_file, no_such_file. pose proof sound_get_dir. pose proof sound_put_dir.
  sound_auto; auto.
Qed.

Lemma sound_unzip w archive dest del : sound P C (unzip w archive dest del).
Proof.
  unfold unzip.
  pose proof sound_get_dir. pose proof sound_put_dir.
  pose proof sound_read_file. pose proof sound_remove_file.
  sound_auto; auto.
Qed.

Lemma sound_getitem {V} (d : gmap string V) key : sound P C (getitem d key).
Proof. unfold getitem. sound_auto. Qed.

Lemma sound_getindex {V} (l : list V) i : sound P C (getindex l i).
Proof. unfold getindex. sound_auto. Qed.

Lemma sound_get_file folder file_name outpath : sound P C (get_file folder file_name outpath).
Proof.
  unfold get_file, debug.
  pose proof (@sound_errorWithException unit). pose proof sound_write_file.
  pose proof (@sound_getindex canvas_file).
  sound_auto; auto.
Qed.

Lemma sound_download_submission_attachments w atts d :
  sound P C (download_submission_attachments w atts d).
Proof.
  unfold download_submission_attachments, download_attachment.
  pose proof sound_write_file. pose proof sound_unzip.
  sound_auto; auto.
Qed.

Lemma sound_build_workspace w atts temp_fixed tmpdir :
  sound P C (build_workspace w atts temp_fixed tmpdir).
Proof.
  unfold build_workspace, copy_files_to_submission_dir.
  pose proof sound_download_submission_attachments.
  pose proof sound_get_dir. pose proof sound_put_dir.
  sound_auto; auto.
Qed.

Lemma sound_popen a b : sound P C (popen a b).
Proof. unfold popen. sound_auto. Qed.

Lemma sound_communicate w p t : sound P C (communicate w p t).
Proof. unfold communicate. sound_auto. Qed.

Lemma sound_run_precommand w run : sound P C (run_precommand w run).
Proof.
  unfold run_precommand, debug.
  pose proof sound_popen. pose proof sound_communicate.
  pose proof (@sound_errorWithException unit).
  sound_auto; auto.
Qed.

Lemma sound_run_command w command d : sound P C (run_command w command d).
Proof.
  unfold run_command, kill, communicate_killed, mark_submission_as_inactive_if_present.
  pose proof sound_popen. pose proof sound_communicate.
  sound_auto; auto.
Qed.

Lemma sound_evaluate_distributed_tests w self temp_fixed tmpdir d :
  sound P C (evaluate_distributed_tests w self temp_fixed tmpdir d).
Proof.
  unfold evaluate_distributed_tests, run_distributed_tests.
  pose proof (@sound_getitem string). pose proof (@sound_getitem (gmap string string)).
  sound_auto; auto.
Qed.

Lemma sound_evaluate w self temp_fixed tmpdir d :
  sound P C (evaluate w self temp_fixed tmpdir d).
Proof.
  unfold evaluate, debug.
  pose proof (@sound_getitem string). pose proof (@sound_getitem (gmap string string)).
  pose proof (@sound_errorWithException unit).
  pose proof sound_run_precommand. pose proof sound_run_command.
  pose proof sound_evaluate_distributed_tests.
  sound_auto; auto.
Qed.

Lemma sound_grade_steps w self a temp_fixed tmpdir sub :
  sound P C (grade_steps w self a temp_fixed tmpdir sub).
Proof.
  unfold grade_steps, debug.
  pose proof sound_build_workspace. pose proof sound_evaluate.
  sound_auto; auto.
Qed.

Lemma sound_grade_message w self a temp_fixed tmpdir sub :
  sound P C (grade_message w self a temp_fixed tmpdir sub).
Proof.
  unfold grade_message, grade_failure, print_exc, info.
  pose proof sound_grade_steps.
  sound_auto; auto.
Qed.

(** Either [RUN] has the keys of distributed testing, or [C] accepts every
    exception, the exit of [_check_config] included. *)
Context (self : handler).
Hypothesis C_exit : dist_configured self = false → ∀ e, C e = true.

Lemma sound__check_distributed_config : sound P C (_check_distributed_config self).
Proof.
  unfold _check_distributed_config, _check_config, sys_exit, error. cbn [for_each].
  destruct (dist_configured self) eqn:Hd.
  - unfold dist_configured in Hd.
    destruct (parser self !! "RUN") as [run|]; [|discriminate].
    destruct (run !! "dist_command"); [|discriminate].
    destruct (run !! "host_ip"); [|discriminate].
    sound_auto.
  - pose proof (C_exit eq_refl) as Hall.
    repeat first [ sound_step | apply sound_raise; apply Hall ].
Qed.

Lemma sound_directive w folder dest_dir line :
  sound P C (directive w self folder dest_dir line).
Proof.
  unfold directive, debug.
  pose proof (@sound_getindex string). pose proof sound_get_file.
  pose proof sound_unzip. pose proof sound_get_dir.
  pose proof (@sound_errorWithException unit).
  pose proof sound__check_distributed_config.
  sound_auto; auto.
Qed.

Lemma sound_get_valid_test_file w course_name folder name dest_dir :
  sound P C (get_valid_test_file w self course_name folder name dest_dir).
Proof.
  unfold get_valid_test_file, debug, error.
  pose proof sound_get_file. pose proof sound_read_file. pose proof sound_directive.
  sound_auto; auto.
Qed.

(** A comment that is posted satisfies [P]. *)
Context (cfg : config).
Hypothesis P_posted :
  dry_run cfg = false → ∀ sub message, P (Edit (submission_id sub) (grade_comment message)).

Lemma sound_report w sub message : sound P C (report w cfg sub message).
Proof.
  unfold report, info, debug, warn.
  destruct (dry_run cfg) eqn:Hdry; [sound_auto|].
  specialize (P_posted eq_refl).
  repeat first [ apply sound_emit; apply P_posted | sound_step ].
Qed.

Lemma sound_grade_submission w a temp_fixed sub :
  sound P C (grade_submission w cfg self a temp_fixed sub).
Proof.
  unfold grade_submission, debug, set_acls, info.
  pose proof sound_grade_message. pose proof sound_report.
  sound_auto; auto.
Qed.

Lemma sound_grade_if_eligible w a temp_fixed sub :
  sound P C (grade_if_eligible w cfg self a temp_fixed sub).
Proof.
  unfold grade_if_eligible. pose proof sound_grade_submission. sound_auto; auto.
Qed.

Lemma sound_grade_assignment w course_name folder a :
  sound P C (grade_assignment w cfg self course_name folder a).
Proof.
  unfold grade_assignment, skip_assignment, print_exc, warn.
  pose proof sound_get_valid_test_file. pose proof sound_grade_if_eligible.
  sound_auto; auto.
Qed.

Lemma sound_grade_if_spec w course_name folder specs a :
  sound P C (grade_if_spec w cfg self course_name folder specs a).
Proof.
  unfold grade_if_spec, debug. pose proof sound_grade_assignment. sound_auto; auto.
Qed.

Lemma sound_grade_submissions w course_name c :
  sound P C (grade_submissions w cfg self course_name c).
Proof.
  unfold grade_submissions, error. pose proof sound_grade_if_spec.
  sound_auto; auto.
Qed.

End Sound.

(** ** Computations that never raise *)

Lemma total_ret {A} (a : A) : total (ret a).
Proof. intros s. exists a. reflexivity. Qed.

Lemma total_emit ev : total (emit ev).
Proof. intros s. exists tt. reflexivity. Qed.

Lemma total_bind {A B} (m : M A) (f : A → M B) :
  total m → (∀ a, total (f a)) → total (bind m f).
Proof.
  intros Hm Hf s. destruct (Hm s) as [a Ha]. unfold bind, outcome in *.
  destruct (m s) as [[r s1] t1]; simpl in Ha; subst r.
  destruct (Hf a s1) as [b Hb]. unfold outcome in Hb.
  destruct (f a s1) as [[r2 s2] t2]; simpl in *. exists b. exact Hb.
Qed.

Lemma total_try {A} (body : M A) (catches : exn → bool) (handler : exn → M A) :
  sound (fun _ => True) catches body → (∀ e, total (handler e)) →
  total (try_except body catches handler).
Proof.
  intros Hbody Hh s. destruct (Hbody s) as [_ Hc]. unfold try_except, outcome in *.
  destruct (body s) as [[[a|e] s1] t1]; simpl in *; [exists a; reflexivity|].
  rewrite (Hc e eq_refl).
  destruct (Hh e s1) as [b Hb]. unfold outcome in Hb.
  destruct (handler e s1) as [[r2 s2] t2]; simpl in *. exists b. exact Hb.
Qed.

Lemma total_for_each {A} (l : list A) (body : A → M unit) :
  (∀ x, total (body x)) → total (for_each l body).
Proof.
  intros H. induction l as [|x l IH]; simpl.
  - apply total_ret.
  - apply total_bind; [apply H | intros _; exact IH].
Qed.

Lemma total_with_tempdir {A} path (body : string → M A) :
  (∀ d, total (body d)) → total (with_tempdir path body).
Proof.
  intros H s. destruct (H path (entered path s)) as [a Ha].
  unfold with_tempdir, entered, outcome in *.
  destruct (body path _) as [[r s1] t]. exists a. exact Ha.
Qed.

Lemma total_unit (m : M unit) s : total m → outcome (m s) = Ok tt.
Proof. intros H. destruct (H s) as [[] ->]. reflexivity. Qed.

(** A loop whose body never raises goes through every element: the loop
    over [l1 ++ l2] is the loop over [l1] followed by the loop over [l2]
    from the state the first has left. *)
Lemma for_each_app_total {A} (body : A → M unit) (l1 l2 : list A) s :
  (∀ x, total (body x)) →
  outcome (for_each (l1 ++ l2) body s) = Ok tt
  ∧ effects (for_each (l1 ++ l2) body s)
    = effects (for_each l1 body s) ++ effects (for_each l2 body (final (for_each l1 body s)))
  ∧ final (for_each (l1 ++ l2) body s)
    = final (for_each l2 body (final (for_each l1 body s))).
Proof.
  intros H. split; [apply total_unit, total_for_each, H|].
  revert s. induction l1 as [|x l1 IH]; intros s; [split; reflexivity|].
  cbn [app for_each]. unfold bind.
  pose proof (total_unit (body x) s (H x)) as Hx. unfold outcome in Hx.
  destruct (body x s) as [[r s1] t1]; simpl in Hx; subst r.
  specialize (IH s1). unfold effects, final in *.
  destruct (for_each (l1 ++ l2) body s1) as [[r2 s2] t2].
  destruct (for_each l1 body s1) as [[r3 s3] t3]. simpl in *.
  destruct IH as [-> ->]. split; [|reflexivity]. apply app_assoc.
Qed.

Lemma total_grade_message w self a temp_fixed tmpdir sub :
  total (grade_message w self a temp_fixed tmpdir sub).
Proof.
  apply total_try.
  - apply sound_grade_steps; auto.
  - intros e. unfold grade_failure, print_exc, info.
    repeat first [ apply total_bind; [|intros] | apply total_emit | apply total_ret ].
Qed.

Lemma total_report w cfg sub message : total (report w cfg sub message).
Proof.
  unfold report, info, debug, warn. destruct (dry_run cfg); [apply total_emit|].
  apply total_try; [|intros; apply total_emit].
  repeat first [ apply sound_bind; [|intros] | apply sound_emit; exact I ].
  destruct (w_edit _ _ _); [apply sound_raise; reflexivity | apply sound_ret].
Qed.

Lemma total_grade_submission w cfg self a temp_fixed sub :
  total (grade_submission w cfg self a temp_fixed sub).
Proof.
  unfold grade_submission, debug, set_acls, info.
  apply total_with_tempdir. intros d.
  repeat first [ apply total_bind; [|intros] | apply total_emit | apply total_ret
               | apply total_grade_message | apply total_report ].
  destruct (copy_tmpdir cfg);
    repeat first [ apply total_bind; [|intros] | apply total_emit | apply total_ret ].
Qed.

Lemma total_grade_if_eligible w cfg self a temp_fixed sub :
  total (grade_if_eligible w cfg self a temp_fixed sub).
Proof.
  unfold grade_if_eligible.
  destruct (eligible cfg sub); [apply total_grade_submission | apply total_ret].
Qed.

Lemma total_grade_assignment w cfg self course_name folder a :
  dist_configured self = true →
  total (grade_assignment w cfg self course_name folder a).
Proof.
  intros Hd. unfold grade_assignment.
  apply total_with_tempdir. intros d. apply total_try.
  - apply sound_bind.
    + apply sound_get_valid_test_file; auto. congruence.
    + intros _. apply sound_for_each. intros sub.
      apply (sound_grade_if_eligible (fun _ => True) is_Exception); auto.
  - intros e. unfold skip_assignment, print_exc, warn.
    repeat first [ apply total_bind; [|intros] | apply total_emit ].
Qed.

Lemma total_grade_if_spec w cfg self course_name folder specs a :
  dist_configured self = true →
  total (grade_if_spec w cfg self course_name folder specs a).
Proof.
  intros Hd. unfold grade_if_spec, debug.
  destruct (in_specs _ _); [|apply total_emit].
  apply total_bind; [apply total_emit|]. intros _. apply total_grade_assignment, Hd.
Qed.

Lemma total_grade_submissions w cfg self course_name c :
  dist_configured self = true →
  total (grade_submissions w cfg self course_name c).
Proof.
  intros Hd. unfold grade_submissions, error.
  destruct (get_assignment_specs _) as [[folder [|spec specs]]|]; try apply total_emit.
  apply total_for_each. intros a. apply total_grade_if_spec, Hd.
Qed.

Lemma wp_with_tempdir {A} path (body : string → M A) s
    (Q : result A → state → list event → Prop) :
  wp (body path) (entered path s) (fun r s1 t => Q r (set_fs (delete path (fs s1)) s1) t) →
  wp (with_tempdir path body) s Q.
Proof.
  unfold wp, with_tempdir, entered, outcome, final, effects.
  destruct (body path _) as [[r s1] t]. exact id.
Qed.

(** Reporting a message has the event by which the message is delivered. *)
Lemma report_delivers w cfg sub message s :
  In (report_event cfg sub message) (effects (report w cfg sub message s)).
Proof.
  unfold report, report_event, info, debug, warn, try_except, bind, emit, raise, ret, effects.
  destruct (dry_run cfg); simpl; [auto|].
  destruct (w_edit _ _ _); simpl; auto.
Qed.

(** When the guarded steps of a submission raise, the submission is still
    reported, and the message is the text of the exception. *)
Lemma grade_submission_reports_failure w cfg self a temp_fixed sub s e :
  outcome (grade_steps w self a temp_fixed (w_tmpdir w sub) sub (entered (w_tmpdir w sub) s))
  = Raised e →
  In (report_event cfg sub (exn_str e))
     (effects (grade_submission w cfg self a temp_fixed sub s)).
Proof.
  intros Hsteps.
  assert (is_Exception e = true) as Hexn.
  { eapply (sound_grade_steps (fun _ => True) is_Exception); [auto | auto | exact Hsteps]. }
  change (wp (grade_submission w cfg self a temp_fixed sub) s
            (fun _ _ t => In (report_event cfg sub (exn_str e)) t)).
  unfold grade_submission, debug, set_acls, info.
  apply wp_with_tempdir.
  do 2 (wp_step; wp_step).
  wp_step. unfold grade_message. wp_step.
  destruct (grade_steps w self a temp_fixed (w_tmpdir w sub) sub (entered (w_tmpdir w sub) s))
    as [[r s1] t1] eqn:Hrun.
  unfold outcome in Hsteps; simpl in Hsteps; subst r.
  eapply wp_run; [exact Hrun|]. cbv beta iota. rewrite Hexn.
  unfold grade_failure, print_exc, info.
  do 2 (wp_step; wp_step).
  assert (∀ s' (Q : list event → Prop),
            (∀ t2, In (report_event cfg sub (exn_str e)) t2 → Q t2) →
            wp (report w cfg sub (exn_str e)) s' (fun _ _ t2 => Q t2)) as Hrep.
  { intros s' Q HQ. unfold wp. apply HQ, report_delivers. }
  apply wp_bind. destruct (copy_tmpdir cfg).
  - do 2 wp_step. wp_step. apply Hrep. intros t2 Ht2.
    rewrite !in_app_iff. tauto.
  - wp_step. apply Hrep. intros t2 Ht2.
    rewrite !in_app_iff. tauto.
Qed.

(** When preparing an assignment raises an [Exception], the assignment ends
    there with a warning, and none of its submissions is touched. *)
Lemma grade_assignment_skips w cfg self course_name folder a s e :
  outcome (get_valid_test_file w self course_name folder (assignment_name a) (w_temp_fixed w a)
             (entered (w_temp_fixed w a) s)) = Raised e →
  is_Exception e = true →
  outcome (grade_assignment w cfg self course_name folder a s) = Ok tt
  ∧ effects (grade_assignment w cfg self course_name folder a s)
    = effects (get_valid_test_file w self course_name folder (assignment_name a)
                 (w_temp_fixed w a) (entered (w_temp_fixed w a) s))
      ++ [PrintExc e;
          Log LWarn ("Could not process " +:+ assignment_name a
                     +:+ " due to error. skipping assignment: " +:+ exn_str e)].
Proof.
  intros Hraise Hexn.
  destruct (get_valid_test_file _ _ _ _ _ _ _) as [[r s1] t1] eqn:Hrun.
  unfold outcome in Hraise; simpl in Hraise; subst r.
  assert (grade_assignment w cfg self course_name folder a s
          = (Ok tt, set_fs (delete (w_temp_fixed w a) (fs s1)) s1,
             t1 ++ [PrintExc e;
                    Log LWarn ("Could not process " +:+ assignment_name a
                               +:+ " due to error. skipping assignment: " +:+ exn_str e)]))
    as ->; [|split; reflexivity].
  unfold grade_assignment, with_tempdir, try_except.
  fold (entered (w_temp_fixed w a) s). unfold bind at 1.
  rewrite Hrun, Hexn. reflexivity.
Qed.

(** ** Runs that differ only in how they report *)

Section Sim.

Context (keep : event → bool).

Lemma sim_refl {A} (m : M A) : sim keep m m.
Proof. intros s. auto. Qed.

Lemma sim_bind {A B} (m1 m2 : M A) (f1 f2 : A → M B) :
  sim keep m1 m2 → (∀ a, sim keep (f1 a) (f2 a)) → sim keep (bind m1 f1) (bind m2 f2).
Proof.
  intros Hm Hf s. specialize (Hm s). unfold bind, outcome, final, effects in *.
  destruct (m1 s) as [[r1 s1] t1], (m2 s) as [[r2 s2] t2]; simpl in Hm.
  destruct Hm as (-> & -> & Ht).
  destruct r2 as [a|e]; [|auto].
  specialize (Hf a s2). unfold outcome, final, effects in Hf.
  destruct (f1 a s2) as [[r1' s1'] t1'], (f2 a s2) as [[r2' s2'] t2']; simpl in *.
  destruct Hf as (-> & -> & Ht'). repeat split.
  rewrite !List.filter_app. congruence.
Qed.

Lemma sim_try {A} (b1 b2 : M A) (catches : exn → bool) (h1 h2 : exn → M A) :
  sim keep b1 b2 → (∀ e, sim keep (h1 e) (h2 e)) →
  sim keep (try_except b1 catches h1) (try_except b2 catches h2).
Proof.
  intros Hm Hf s. specialize (Hm s). unfold try_except, outcome, final, effects in *.
  destruct (b1 s) as [[r1 s1] t1], (b2 s) as [[r2 s2] t2]; simpl in Hm.
  destruct Hm as (-> & -> & Ht).
  destruct r2 as [a|e]; [auto|].
  destruct (catches e); [|auto].
  specialize (Hf e s2). unfold outcome, final, effects in Hf.
  destruct (h1 e s2) as [[r1' s1'] t1'], (h2 e s2) as [[r2' s2'] t2']; simpl in *.
  destruct Hf as (-> & -> & Ht'). repeat split.
  rewrite !List.filter_app. congruence.
Qed.

Lemma sim_for_each {A} (l : list A) (b1 b2 : A → M unit) :
  (∀ x, sim keep (b1 x) (b2 x)) → sim keep (for_each l b1) (for_each l b2).
Proof.
  intros H. induction l as [|x l IH]; simpl.
  - apply sim_refl.
  - apply sim_bind; [apply H | intros _; exact IH].
Qed.

Lemma sim_with_tempdir {A} path (b1 b2 : string → M A) :
  (∀ d, sim keep (b1 d) (b2 d)) → sim keep (with_tempdir path b1) (with_tempdir path b2).
Proof.
  intros H s. specialize (H path (entered path s)).
  unfold with_tempdir, entered, outcome, final, effects in *.
  destruct (b1 path _) as [[r1 s1] t1], (b2 path _) as [[r2 s2] t2]; simpl in *.
  destruct H as (-> & -> & Ht). auto.
Qed.

End Sim.

Lemma not_report_dry rest : not_report (Log LInfo ("would have said " +:+ rest)) = false.
Proof. destruct rest; reflexivity. Qed.

Lemma not_report_said rest : not_report (Log LDebug ("said " +:+ rest)) = false.
Proof. destruct rest; reflexivity. Qed.

Lemma not_report_warn rest : not_report (Log LWarn ("ERROR " +:+ rest)) = false.
Proof. destruct rest; reflexivity. Qed.

(** Logging a grade message and posting it end alike and differ in nothing
    but the effects of reporting. *)
Lemma sim_report w cfg sub message :
  dry_run cfg = true →
  sim not_report (report w cfg sub message) (report w (with_dry_run false cfg) sub message).
Proof.
  intros Hdry s. unfold report. rewrite Hdry. cbn [dry_run with_dry_run].
  unfold info, debug, warn, try_except, bind, emit, raise, ret, outcome, final, effects.
  destruct (w_edit _ _ _);
    cbn [is_Exception exn_class_of exn_str fst snd List.filter app];
    rewrite ?not_report_dry, ?not_report_said, ?not_report_warn;
    cbn [not_report is_report negb]; auto.
Qed.

Lemma sim_grade_submissions w cfg self course_name c :
  dry_run cfg = true →
  sim not_report (grade_submissions w cfg self course_name c)
                 (grade_submissions w (with_dry_run false cfg) self course_name c).
Proof.
  intros Hdry. unfold grade_submissions.
  destruct (get_assignment_specs _) as [[folder [|spec specs]]|]; try apply sim_refl.
  apply sim_for_each. intros a. unfold grade_if_spec.
  destruct (in_specs _ _); [|apply sim_refl].
  apply sim_bind; [apply sim_refl|]. intros _.
  unfold grade_assignment. apply sim_with_tempdir. intros temp_fixed.
  apply sim_try; [|intros; apply sim_refl].
  apply sim_bind; [apply sim_refl|]. intros _.
  apply sim_for_each. intros sub. unfold grade_if_eligible, eligible.
  cbn [force with_dry_run].
  destruct (attachments sub); [|apply sim_refl].
  destruct (force cfg || should_check_submission sub); [|apply sim_refl].
  unfold grade_submission. apply sim_with_tempdir. intros tmpdir.
  do 3 (apply sim_bind; [apply sim_refl|]; intros ?).
  cbn [copy_tmpdir with_dry_run].
  apply sim_bind; [apply sim_refl|]. intros _.
  apply sim_report, Hdry.
Qed.

Lemma no_edit_existsb (t : list event) :
  Forall (fun ev => is_edit ev = false) t → existsb is_edit t = false.
Proof.
  induction 1 as [|ev t Hev _ IH]; [reflexivity|].
  simpl. rewrite Hev, IH. reflexivity.
Qed.

(** ** Claims about the orchestrator *)

(** C7, as stated, fails: preparing hw1, whose descriptor says --DT--, with
    a [RUN] section that has no dist_command makes [_check_config] call
    [sys.exit(1)]; [except Exception] does not catch it, the run ends
    there, and hw2 is never looked at. *)
Lemma missing_distributed_config_halts_the_batch :
  outcome (grade_submissions Sample.all_pass (Sample.options false false)
             (Sample.self_of Sample.run_plain) "cs101" Sample.two_assignments initial_state)
  = Raised (Exn SystemExit "1")
  ∧ effects (grade_submissions Sample.all_pass (Sample.options false false)
               (Sample.self_of Sample.run_plain) "cs101" Sample.two_assignments initial_state)
    = [Log LDebug "grading hw1";
       Log LDebug "getting hw1 from cs101";
       Log LDebug "hw1.codeval downloaded at /tmp/codeval1fixed/testcases.txt.";
       Log LDebug "testcase file downloaded at /tmp/codeval1fixed/testcases.txt";
       Log LError "did not find dist_command in [RUN] in codeval.ini."].
Proof. vm_compute. split; reflexivity. Qed.

(** C7, amended: an [Exception] raised by the guarded steps of a submission
    is caught, the submission is reported with the text of the exception
    as its message, and the loop over the submissions goes on; an
    [Exception] raised while an assignment is prepared ends that
    assignment with a warning; and when [RUN] has dist_command and host_ip
    the loop over the assignments goes through all of them and
    [grade_submissions] returns normally. *)
Theorem failures_are_isolated w cfg self course_name codeval_folder codeval_specs :
  (∀ a temp_fixed sub s,
     outcome (grade_submission w cfg self a temp_fixed sub s) = Ok tt
     ∧ ∀ e,
         outcome (grade_steps w self a temp_fixed (w_tmpdir w sub) sub
                    (entered (w_tmpdir w sub) s)) = Raised e →
         In (report_event cfg sub (exn_str e))
            (effects (grade_submission w cfg self a temp_fixed sub s)))
  ∧ (∀ a temp_fixed subs1 subs2 s,
       outcome (for_each (subs1 ++ subs2) (grade_if_eligible w cfg self a temp_fixed) s) = Ok tt
       ∧ effects (for_each (subs1 ++ subs2) (grade_if_eligible w cfg self a temp_fixed) s)
         = effects (for_each subs1 (grade_if_eligible w cfg self a temp_fixed) s)
           ++ effects (for_each subs2 (grade_if_eligible w cfg self a temp_fixed)
                         (final (for_each subs1 (grade_if_eligible w cfg self a temp_fixed) s))))
  ∧ (∀ a s e,
       outcome (get_valid_test_file w self course_name codeval_folder (assignment_name a)
                  (w_temp_fixed w a) (entered (w_temp_fixed w a) s)) = Raised e →
       is_Exception e = true →
       outcome (grade_assignment w cfg self course_name codeval_folder a s) = Ok tt
       ∧ effects (grade_assignment w cfg self course_name codeval_folder a s)
         = effects (get_valid_test_file w self course_name codeval_folder (assignment_name a)
                      (w_temp_fixed w a) (entered (w_temp_fixed w a) s))
           ++ [PrintExc e;
               Log LWarn ("Could not process " +:+ assignment_name a
                          +:+ " due to error. skipping assignment: " +:+ exn_str e)])
  ∧ (dist_configured self = true →
     ∀ as1 as2 s,
       outcome (for_each (as1 ++ as2)
                  (grade_if_spec w cfg self course_name codeval_folder codeval_specs) s) = Ok tt
       ∧ effects (for_each (as1 ++ as2)
                    (grade_if_spec w cfg self course_name codeval_folder codeval_specs) s)
         = effects (for_each as1
                      (grade_if_spec w cfg self course_name codeval_folder codeval_specs) s)
           ++ effects (for_each as2
                         (grade_if_spec w cfg self course_name codeval_folder codeval_specs)
                         (final (for_each as1
                                   (grade_if_spec w cfg self course_name codeval_folder
                                      codeval_specs) s))))
  ∧ (dist_configured self = true →
     ∀ c s, outcome (grade_submissions w cfg self course_name c s) = Ok tt).
Proof.
  split; [|split; [|split; [|split]]].
  - intros a temp_fixed sub s. split.
    + apply total_unit, total_grade_submission.
    + intros e. apply grade_submission_reports_failure.
  - intros a temp_fixed subs1 subs2 s.
    destruct (for_each_app_total (grade_if_eligible w cfg self a temp_fixed) subs1 subs2 s)
      as (Hok & Heff & _); [intros sub; apply total_grade_if_eligible|].
    split; assumption.
  - intros a s e. apply grade_assignment_skips.
  - intros Hd as1 as2 s.
    destruct (for_each_app_total
                (grade_if_spec w cfg self course_name codeval_folder codeval_specs) as1 as2 s)
      as (Hok & Heff & _); [intros a; apply total_grade_if_spec, Hd|].
    split; assumption.
  - intros Hd c s. apply total_unit, total_grade_submissions, Hd.
Qed.

(** Of two submissions, the first cannot be fetched: it is reported with
    that error, and a run over two assignments returns normally. *)
Lemma failures_are_isolated_witness :
  In (Edit 8 ("[AG]" +:+ LF +:+ "404 Not Found"))
     (effects (grade_submission Sample.all_pass (Sample.options false false)
                 (Sample.self_of Sample.run_dist) Sample.hw3 "/tmp/fixed" Sample.broken
                 Sample.prepared))
  ∧ outcome (grade_submissions Sample.all_pass (Sample.options false false)
               (Sample.self_of Sample.run_dist) "cs101" Sample.two_assignments initial_state)
    = Ok tt.
Proof.
  destruct (failures_are_isolated Sample.all_pass (Sample.options false false)
              (Sample.self_of Sample.run_dist) "cs101" Sample.specs_folder ["hw1"; "hw2"])
    as (Hsub & _ & _ & _ & Hall).
  split.
  - apply (proj2 (Hsub Sample.hw3 "/tmp/fixed" Sample.broken Sample.prepared)
             (Exn CollaboratorError "404 Not Found")).
    vm_compute. reflexivity.
  - apply Hall. vm_compute. reflexivity.
Defined.

Lemma grade_comment_marked message :
  Py.startswith (grade_comment message) ("[AG]" +:+ LF) = true
  ∧ Py.startswith (grade_comment message) "[AG]" = true.
Proof.
  unfold grade_comment, Py.startswith.
  destruct (Py.replace message NUL "\0"); split; reflexivity.
Qed.

(** C9: every comment the grader posts starts with the marker [AG] and a
    newline; and a submission that has such a comment, created after
    [submitted_at], is skipped by a pass that is not forced. *)
Theorem posted_comment_stops_regrading w cfg self course_name c s :
  Forall marked_if_edit (effects (grade_submissions w cfg self course_name c s))
  ∧ ∀ sub message t a temp_fixed s',
      In {| comment_text := grade_comment message; created_at := t |}
         (submission_comments sub) →
      Py.str_gt t (submitted_at sub) = true →
      force cfg = false →
      should_check_submission sub = false
      ∧ grade_if_eligible w cfg self a temp_fixed sub s' = (Ok tt, s', []).
Proof.
  split.
  - apply (sound_grade_submissions marked_if_edit (fun _ => true)); auto.
    + intros [] H; try exact I. discriminate.
    + intros _ sub message. apply grade_comment_marked.
  - intros sub message t a temp_fixed s' Hin Hgt Hforce.
    assert (should_check_submission sub = false) as Hskip.
    { apply should_check_submission_false. eexists. split; [exact Hin|].
      unfold graded_after. cbn [comment_text created_at].
      rewrite (proj2 (grade_comment_marked message)), Hgt. reflexivity. }
    split; [exact Hskip|].
    unfold grade_if_eligible, eligible. rewrite Hforce, Hskip.
    destruct (attachments sub); reflexivity.
Qed.

(** A submission graded a minute after it was handed in. *)
Lemma posted_comment_stops_regrading_witness :
  should_check_submission Sample.graded_later = false
  ∧ grade_if_eligible Sample.all_pass (Sample.options false false)
      (Sample.self_of Sample.run_plain) Sample.hw1 "/tmp/fixed" Sample.graded_later
      Sample.prepared
    = (Ok tt, Sample.prepared, []).
Proof.
  apply (proj2 (posted_comment_stops_regrading Sample.all_pass (Sample.options false false)
                  (Sample.self_of Sample.run_plain) "cs101" Sample.two_assignments
                  initial_state)
               Sample.graded_later "PASSED" "2024-03-01T12:01:00Z").
  - left. reflexivity.
  - reflexivity.
  - reflexivity.
Defined.

(** C10: on a dry run no comment is posted; each grade message is logged
    and nothing else; and the run ends with the same outcome and state,
    and with the same effects apart from those of reporting, as the run
    that posts. *)
Theorem dry_run_posts_nothing w cfg self course_name c s :
  dry_run cfg = true →
  existsb is_edit (effects (grade_submissions w cfg self course_name c s)) = false
  ∧ (∀ sub message s',
       report w cfg sub message s'
       = (Ok tt, s', [Log LInfo ("would have said " +:+ message +:+ " to " +:+ user_name sub)]))
  ∧ outcome (grade_submissions w cfg self course_name c s)
    = outcome (grade_submissions w (with_dry_run false cfg) self course_name c s)
  ∧ final (grade_submissions w cfg self course_name c s)
    = final (grade_submissions w (with_dry_run false cfg) self course_name c s)
  ∧ List.filter not_report (effects (grade_submissions w cfg self course_name c s))
    = List.filter not_report
        (effects (grade_submissions w (with_dry_run false cfg) self course_name c s)).
Proof.
  intros Hdry. split; [|split].
  - apply no_edit_existsb.
    apply (sound_grade_submissions (fun ev => is_edit ev = false) (fun _ => true)); auto.
    congruence.
  - intros sub message s'. unfold report. rewrite Hdry. reflexivity.
  - apply (sim_grade_submissions w cfg self course_name c Hdry s).
Qed.

(** A dry run over two assignments. *)
Lemma dry_run_posts_nothing_witness :
  existsb is_edit
    (effects (grade_submissions Sample.all_pass (Sample.options true false)
                (Sample.self_of Sample.run_dist) "cs101" Sample.two_assignments initial_state))
  = false.
Proof.
  apply (proj1 (dry_run_posts_nothing Sample.all_pass (Sample.options true false)
                  (Sample.self_of Sample.run_dist) "cs101" Sample.two_assignments
                  initial_state eq_refl)).
Defined.

(** * Further properties of the file *)

(** ** The execution engine, continued *)

Lemma evaluate_distributed_tests_run w self temp_fixed tmpdir d s run dist_command host_ip :
  parser self !! "RUN" = Some run →
  run !! "dist_command" = Some dist_command →
  run !! "host_ip" = Some host_ip →
  evaluate_distributed_tests w self temp_fixed tmpdir d s
  = (match w_run_distributed w dist_command host_ip temp_fixed tmpdir
             (tmpdir +:+ "/testcases.txt") d with
     | inr more => Ok more
     | inl why => Raised (Exn CollaboratorError why)
     end,
     s,
     [RunDistributed dist_command host_ip temp_fixed tmpdir (tmpdir +:+ "/testcases.txt")]).
Proof.
  intros Hrun Hdc Hip.
  unfold evaluate_distributed_tests, run_distributed_tests, getitem, bind.
  rewrite Hrun. unfold ret at 1. rewrite Hdc. unfold ret at 1. rewrite Hip.
  unfold ret at 1, emit.
  destruct (w_run_distributed _ _ _ _ _ _ _); reflexivity.
Qed.

(** An evaluation command that exits with code 0: the whole run of
    [evaluate]. *)
Lemma evaluate_passed w self temp_fixed tmpdir d s run command out err :
  parser self !! "RUN" = Some run →
  run !! "command" = Some command →
  Py.truthy command = true →
  precommand_passes w run s = true →
  main_wait w run command tmpdir s = Some (out, err, 0%Z) →
  evaluate w self temp_fixed tmpdir d s
  = let local :=
      precommand_effects w run s
      ++ [Log LDebug ("command before " +:+ command);
          Log LDebug ("command after " +:+ build_command command (executable s) tmpdir);
          Popen (main_pid run s) (build_command command (executable s) tmpdir) None true;
          Communicate (main_pid run s) (Some (compile_timeout s))] in
    if has_distributed_tests s then
      let r := evaluate_distributed_tests w self temp_fixed tmpdir d
                 (set_spawned (S (main_pid run s)) s) in
      (match outcome r with
       | Ok more => Ok (out +:+ more)
       | Raised e => Raised e
       end, final r, local ++ effects r)
    else (Ok out, set_spawned (S (main_pid run s)) s, local).
Proof.
  unfold main_wait. intros Hrun Hcmd Htruthy Hpre Hwait.
  pose proof (run_precommand_passes _ _ _ Hpre) as Hp.
  pose proof (run_command_exit w (build_command command (executable s) tmpdir) d
                (set_spawned (main_pid run s) s) out err 0%Z Hwait) as Hc.
  cbn [Z.eqb] in Hc.
  unfold evaluate, bind, getitem.
  rewrite Hrun. unfold ret at 1. rewrite Hcmd. unfold ret at 1. rewrite Htruthy.
  cbn [negb]. unfold ret at 1. rewrite Hp.
  unfold debug, emit, gets.
  cbn [executable set_spawned].
  cbn [executable set_spawned compile_timeout spawned] in Hc. rewrite Hc.
  cbn [has_distributed_tests set_spawned].
  destruct (has_distributed_tests s).
  - unfold outcome, final, effects.
    match goal with |- context [evaluate_distributed_tests ?a ?b ?c ?d ?e ?f] =>
      change (set_spawned (S (main_pid run s)) s) with f;
      destruct (evaluate_distributed_tests a b c d e f) as [[[more|e'] s3] t3]
    end; cbn [fst snd app]; unfold ret;
      rewrite <- ?app_assoc; cbn [app]; rewrite ?app_nil_r; reflexivity.
  - unfold ret. cbn [app]. reflexivity.
Qed.

Lemma evaluate_distributed_tests_effects w self temp_fixed tmpdir d s :
  Forall (fun ev => is_run_distributed ev = true)
         (effects (evaluate_distributed_tests w self temp_fixed tmpdir d s)).
Proof.
  unfold evaluate_distributed_tests, run_distributed_tests, getitem, bind, effects.
  destruct (parser self !! "RUN") as [run|]; [|constructor].
  unfold ret at 1. destruct (run !! "dist_command"); [|constructor].
  unfold ret at 1. destruct (run !! "host_ip"); [|constructor].
  unfold ret at 1, emit.
  destruct (w_run_distributed _ _ _ _ _ _ _); repeat constructor.
Qed.

Lemma existsb_false_of_Forall (f g : event → bool) (t : list event) :
  (∀ ev, g ev = true → f ev = false) →
  Forall (fun ev => g ev = true) t → existsb f t = false.
Proof.
  intros Hfg. induction 1 as [|ev t Hev _ IH]; [reflexivity|].
  simpl. rewrite (Hfg ev Hev), IH. reflexivity.
Qed.

Lemma precommand_effects_no_mark w run s :
  existsb is_mark_inactive (precommand_effects w run s) = false.
Proof.
  unfold precommand_effects.
  destruct (run !! "precommand"); [|reflexivity].
  destruct (pb_wait _ _) as [[[] ?]|]; reflexivity.
Qed.

Lemma precommand_effects_no_kill_at_all w run s :
  existsb is_kill (precommand_effects w run s) = false.
Proof.
  unfold precommand_effects.
  destruct (run !! "precommand"); [|reflexivity].
  destruct (pb_wait _ _) as [[[] ?]|]; reflexivity.
Qed.

(** X1: once the precommand has passed, the inactive-marking call is made
    exactly when the evaluation command times out or exits with a non-zero
    code, and a child is killed exactly when the evaluation command times
    out. *)
Theorem evaluate_marks_exactly_on_failure w self temp_fixed tmpdir d s run command :
  parser self !! "RUN" = Some run →
  run !! "command" = Some command →
  Py.truthy command = true →
  precommand_passes w run s = true →
  existsb is_mark_inactive (effects (evaluate w self temp_fixed tmpdir d s))
  = main_fails w run command tmpdir s
  ∧ existsb is_kill (effects (evaluate w self temp_fixed tmpdir d s))
    = main_expires w run command tmpdir s.
Proof.
  intros Hrun Hcmd Htruthy Hpre.
  unfold main_fails, main_expires.
  destruct (main_wait w run command tmpdir s) as [[[out err] rc]|] eqn:Hwait.
  - destruct (Z.eq_dec rc 0%Z) as [->|Hrc].
    + rewrite (evaluate_passed w self temp_fixed tmpdir d s run command out err
                 Hrun Hcmd Htruthy Hpre Hwait).
      cbv zeta. cbn [Z.eqb negb].
      destruct (has_distributed_tests s); unfold effects; cbn [snd];
        rewrite ?existsb_app, precommand_effects_no_mark, precommand_effects_no_kill_at_all;
        cbn [existsb is_mark_inactive is_kill orb];
        rewrite ?(existsb_false_of_Forall is_mark_inactive is_run_distributed),
                ?(existsb_false_of_Forall is_kill is_run_distributed);
        try (split; reflexivity);
        try (apply (evaluate_distributed_tests_effects w self temp_fixed tmpdir d));
        try (intros []; simpl; congruence).
    + rewrite (evaluate_failed w self temp_fixed tmpdir d s run command out err rc
                 Hrun Hcmd Htruthy Hpre Hwait Hrc).
      apply Z.eqb_neq in Hrc. rewrite Hrc.
      unfold effects; cbn [snd].
      rewrite !existsb_app, precommand_effects_no_mark, precommand_effects_no_kill_at_all.
      split; reflexivity.
  - rewrite (evaluate_killed w self temp_fixed tmpdir d s run command
               Hrun Hcmd Htruthy Hpre Hwait).
    unfold effects; cbn [snd].
    rewrite !existsb_app, precommand_effects_no_mark, precommand_effects_no_kill_at_all.
    split; reflexivity.
Qed.

(** The tests pass after [make] has passed: nothing is marked, nothing killed. *)
Lemma evaluate_marks_exactly_on_failure_witness :
  existsb is_mark_inactive
    (effects (evaluate Sample.all_pass (Sample.self_of Sample.run_make)
                "/tmp/fixed" "/tmp/sub" Sample.data initial_state)) = false
  ∧ existsb is_kill
      (effects (evaluate Sample.all_pass (Sample.self_of Sample.run_make)
                  "/tmp/fixed" "/tmp/sub" Sample.data initial_state)) = false.
Proof.
  apply (evaluate_marks_exactly_on_failure Sample.all_pass (Sample.self_of Sample.run_make)
           "/tmp/fixed" "/tmp/sub" Sample.data initial_state
           Sample.run_make "EVALUATE SUBMISSIONS" eq_refl eq_refl eq_refl eq_refl).
Defined.

(** X2: when the evaluation command exits with code 0 and distributed
    testing is on, the distributed test is run once, after the local
    command, and [evaluate] returns the local output followed by the remote
    one; when the distributed run fails, [evaluate] raises its error and
    the local output is not returned. *)
Theorem distributed_output_is_appended w self temp_fixed tmpdir d s run command out err
    dist_command host_ip :
  parser self !! "RUN" = Some run →
  run !! "command" = Some command →
  Py.truthy command = true →
  precommand_passes w run s = true →
  main_wait w run command tmpdir s = Some (out, err, 0%Z) →
  has_distributed_tests s = true →
  run !! "dist_command" = Some dist_command →
  run !! "host_ip" = Some host_ip →
  evaluate w self temp_fixed tmpdir d s
  = (match w_run_distributed w dist_command host_ip temp_fixed tmpdir
             (tmpdir +:+ "/testcases.txt") d with
     | inr more => Ok (out +:+ more)
     | inl why => Raised (Exn CollaboratorError why)
     end,
     set_spawned (S (main_pid run s)) s,
     precommand_effects w run s
     ++ [Log LDebug ("command before " +:+ command);
         Log LDebug ("command after " +:+ build_command command (executable s) tmpdir);
         Popen (main_pid run s) (build_command command (executable s) tmpdir) None true;
         Communicate (main_pid run s) (Some (compile_timeout s));
         RunDistributed dist_command host_ip temp_fixed tmpdir (tmpdir +:+ "/testcases.txt")]).
Proof.
  intros Hrun Hcmd Htruthy Hpre Hwait Hdt Hdc Hip.
  rewrite (evaluate_passed w self temp_fixed tmpdir d s run command out err
             Hrun Hcmd Htruthy Hpre Hwait).
  cbv zeta. rewrite Hdt.
  rewrite (evaluate_distributed_tests_run w self temp_fixed tmpdir d _ run dist_command host_ip
             Hrun Hdc Hip).
  unfold outcome, final, effects. cbn [fst snd].
  rewrite <- app_assoc. cbn [app].
  destruct (w_run_distributed _ _ _ _ _ _ _); reflexivity.
Qed.

(** A passing submission of an assignment with distributed tests. *)
Lemma distributed_output_is_appended_witness :
  outcome (evaluate Sample.all_pass (Sample.self_of Sample.run_dist)
             "/tmp/fixed" "/tmp/sub" Sample.data
             (set_has_distributed_tests true initial_state))
  = Ok ("PASSED" +:+ LF +:+ "REMOTE OK" +:+ LF).
Proof.
  rewrite (distributed_output_is_appended Sample.all_pass (Sample.self_of Sample.run_dist)
             "/tmp/fixed" "/tmp/sub" Sample.data (set_has_distributed_tests true initial_state)
             Sample.run_dist "EVALUATE SUBMISSIONS" ("PASSED" +:+ LF) "" "dist HOST" "10.0.0.1"
             eq_refl eq_refl eq_refl eq_refl eq_refl eq_refl eq_refl eq_refl).
  reflexivity.
Defined.

(** X3: [evaluate] starts a child process only if [RUN] has a non-empty
    command. *)
Theorem no_process_without_command w self temp_fixed tmpdir d s :
  existsb is_popen (effects (evaluate w self temp_fixed tmpdir d s)) = true →
  ∃ run command,
    parser self !! "RUN" = Some run
    ∧ run !! "command" = Some command
    ∧ Py.truthy command = true.
Proof.
  unfold evaluate, getitem, bind at 1 2 3.
  destruct (parser self !! "RUN") as [run|] eqn:Hrun; [|discriminate].
  unfold ret at 1. destruct (run !! "command") as [command|] eqn:Hcmd; [|discriminate].
  unfold ret at 1. destruct (Py.truthy command) eqn:Htruthy.
  - intros _. exists run, command. auto.
  - cbn [negb]. unfold errorWithException, error, bind, emit, raise. discriminate.
Qed.

(** A run with a command. *)
Lemma no_process_without_command_witness :
  ∃ run command,
    parser (Sample.self_of Sample.run_plain) !! "RUN" = Some run
    ∧ run !! "command" = Some command
    ∧ Py.truthy command = true.
Proof.
  apply (no_process_without_command Sample.all_pass (Sample.self_of Sample.run_plain)
           "/tmp/fixed" "/tmp/sub" Sample.data initial_state).
  vm_compute. reflexivity.
Defined.

(** ** Reporting *)

(** X4: when posting the comment fails, [report] still returns normally:
    the failure is logged as one warning after the attempt, and the state
    is left as it was. *)
Theorem failed_post_is_only_warned w cfg sub message s why :
  dry_run cfg = false →
  w_edit w sub (grade_comment message) = Some why →
  report w cfg sub message s
  = (Ok tt, s,
     [Log LDebug ("said " +:+ message +:+ " to " +:+ user_name sub);
      Edit (submission_id sub) (grade_comment message);
      Log LWarn ("ERROR " +:+ why +:+ " sending " +:+ Py.replace message NUL "\0"
                 +:+ " to " +:+ user_name sub)]).
Proof.
  intros Hdry Hedit. unfold report. rewrite Hdry.
  unfold debug, warn, try_except, bind, emit, raise. rewrite Hedit. reflexivity.
Qed.

(** A post that is refused. *)
Lemma failed_post_is_only_warned_witness :
  outcome (report Cases.posting_fails (Sample.options false false) Sample.fresh "PASSED"
             initial_state) = Ok tt.
Proof.
  rewrite (failed_post_is_only_warned Cases.posting_fails (Sample.options false false)
             Sample.fresh "PASSED" initial_state "403 Forbidden" eq_refl eq_refl).
  reflexivity.
Defined.

(** ** What a computation does to the state *)

Section Frame.

Context (R : state → state → Prop).
Hypothesis R_refl : ∀ s, R s s.
Hypothesis R_trans : ∀ s1 s2 s3, R s1 s2 → R s2 s3 → R s1 s3.

Lemma stable_ret {A} (a : A) : stable R (ret a).
Proof. intros s. apply R_refl. Qed.

Lemma stable_raise {A} e : stable R (@raise A e).
Proof. intros s. apply R_refl. Qed.

Lemma stable_emit ev : stable R (emit ev).
Proof. intros s. apply R_refl. Qed.

Lemma stable_gets {A} (f : state → A) : stable R (gets f).
Proof. intros s. apply R_refl. Qed.

Lemma stable_modify f : (∀ s, R s (f s)) → stable R (modify f).
Proof. intros H s. apply H. Qed.

Lemma stable_bind {A B} (m : M A) (f : A → M B) :
  stable R m → (∀ a, stable R (f a)) → stable R (bind m f).
Proof.
  intros Hm Hf s. specialize (Hm s). unfold bind, final in *.
  destruct (m s) as [[[a|e] s1] t1]; simpl in *; [|exact Hm].
  specialize (Hf a s1). unfold final in Hf.
  destruct (f a s1) as [[r2 s2] t2]; simpl in *. eauto.
Qed.

Lemma stable_try {A} (body : M A) (catches : exn → bool) (handler : exn → M A) :
  stable R body → (∀ e, stable R (handler e)) → stable R (try_except body catches handler).
Proof.
  intros Hm Hf s. specialize (Hm s). unfold try_except, final in *.
  destruct (body s) as [[[a|e] s1] t1]; simpl in *; [exact Hm|].
  destruct (catches e); [|exact Hm].
  specialize (Hf e s1). unfold final in Hf.
  destruct (handler e s1) as [[r2 s2] t2]; simpl in *. eauto.
Qed.

Lemma stable_for_each {A} (l : list A) (body : A → M unit) :
  (∀ x, stable R (body x)) → stable R (for_each l body).
Proof.
  intros H. induction l as [|x l IH]; simpl.
  - apply stable_ret.
  - apply stable_bind; [apply H | intros _; exact IH].
Qed.

(** Starting a process, and writing into a directory that exists, are
    within [R]. *)
Hypothesis R_spawned : ∀ s n, R s (set_spawned n s).
Hypothesis R_put : ∀ s d files, is_Some (fs s !! d) → R s (set_fs (<[d := files]> (fs s)) s).

Ltac stable_step :=
  lazymatch goal with
  | |- stable _ (bind _ _) => apply stable_bind; [|intros]
  | |- stable _ (try_except _ _ _) => apply stable_try; [|intros]
  | |- stable _ (for_each _ _) => apply stable_for_each; intros
  | |- stable _ (if ?b then _ else _) => destruct b
  | |- stable _ (match ?x with _ => _ end) => destruct x
  | |- stable _ (modify _) => apply stable_modify; intros; solve [auto]
  | |- _ => first [ apply stable_ret | apply stable_raise | apply stable_emit
                  | apply stable_gets | assumption ]
  end.

Ltac stable_auto := repeat stable_step.

Lemma stable_get_dir d : stable R (get_dir d).
Proof.
  intros s. unfold get_dir, no_such_file, raise, final.
  destruct (fs s !! d); apply R_refl.
Qed.

(** Reading a directory and writing it back, then going on. *)
Lemma stable_update_dir {B} d (g : dir → dir) (k : M B) :
  stable R k → stable R (files <- get_dir d ;; put_dir d (g files) ;; k).
Proof.
  intros Hk s. unfold bind, get_dir, put_dir, modify, no_such_file, raise, final.
  destruct (fs s !! d) as [files|] eqn:Hd; cbn [fst snd]; [|apply R_refl].
  specialize (Hk (set_fs (<[d := g files]> (fs s)) s)). unfold final in Hk.
  destruct (k _) as [[r2 s2] t2]; cbn [fst snd] in *.
  eapply R_trans; [|exact Hk]. apply R_put. eauto.
Qed.

Lemma stable_write_file p data : stable R (write_file p data).
Proof.
  intros s. unfold write_file, bind, get_dir, put_dir, modify, no_such_file, raise, final.
  destruct (fs s !! p.1) as [files|] eqn:Hd; cbn [fst snd]; [|apply R_refl].
  apply R_put. eauto.
Qed.

Lemma stable_read_file p : stable R (read_file p).
Proof.
  unfold read_file, no_such_file. pose proof stable_get_dir. stable_auto; auto.
Qed.

Lemma stable_remove_file p : stable R (remove_file p).
Proof.
  intros s. unfold remove_file, bind, get_dir, put_dir, modify, no_such_file, raise, final.
  destruct (fs s !! p.1) as [files|] eqn:Hd; cbn [fst snd]; [|apply R_refl].
  destruct (files !! p.2); cbn [fst snd]; [|apply R_refl].
  apply R_put. eauto.
Qed.

Lemma stable_unzip w archive dest del : stable R (unzip w archive dest del).
Proof.
  unfold unzip. apply stable_bind; [apply stable_read_file|]. intros data.
  destruct (w_unzip w data); [apply stable_raise|].
  apply stable_update_dir.
  destruct del; [apply stable_remove_file | apply stable_ret].
Qed.

Lemma stable_errorWithException {A} msg : stable R (@errorWithException A msg).
Proof. unfold errorWithException, error. stable_auto. Qed.

Lemma stable_getitem {V} (d : gmap string V) key : stable R (getitem d key).
Proof. unfold getitem. stable_auto. Qed.

Lemma stable_getindex {V} (l : list V) i : stable R (getindex l i).
Proof. unfold getindex. stable_auto. Qed.

Lemma stable_get_file folder file_name outpath : stable R (get_file folder file_name outpath).
Proof.
  unfold get_file, debug.
  pose proof (@stable_errorWithException unit). pose proof stable_write_file.
  pose proof (@stable_getindex canvas_file).
  stable_auto; auto.
Qed.

Lemma stable_download_submission_attachments w atts d :
  stable R (download_submission_attachments w atts d).
Proof.
  unfold download_submission_attachments, download_attachment.
  pose proof stable_write_file. pose proof stable_unzip.
  stable_auto; auto.
Qed.

Lemma stable_copy_files_to_submission_dir temp_fixed tmpdir :
  stable R (copy_files_to_submission_dir temp_fixed tmpdir).
Proof.
  unfold copy_files_to_submission_dir.
  apply stable_bind; [apply stable_get_dir|]. intros fixed.
  intros s. unfold bind, get_dir, put_dir, modify, no_such_file, raise, final.
  destruct (fs s !! tmpdir) as [files|] eqn:Hd; cbn [fst snd]; [|apply R_refl].
  apply R_put. eauto.
Qed.

Lemma stable_build_workspace w atts temp_fixed tmpdir :
  stable R (build_workspace w atts temp_fixed tmpdir).
Proof.
  unfold build_workspace.
  pose proof stable_download_submission_attachments.
  pose proof stable_copy_files_to_submission_dir.
  stable_auto; auto.
Qed.

Lemma stable_popen a b : stable R (popen a b).
Proof. unfold popen. stable_auto. Qed.

Lemma stable_communicate w p t : stable R (communicate w p t).
Proof. unfold communicate. stable_auto. Qed.

Lemma stable_run_precommand w run : stable R (run_precommand w run).
Proof.
  unfold run_precommand, debug.
  pose proof stable_popen. pose proof stable_communicate.
  pose proof (@stable_errorWithException unit).
  stable_auto; auto.
Qed.

Lemma stable_run_command w command d : stable R (run_command w command d).
Proof.
  unfold run_command, kill, communicate_killed, mark_submission_as_inactive_if_present.
  pose proof stable_popen. pose proof stable_communicate.
  stable_auto; auto.
Qed.

Lemma stable_evaluate_distributed_tests w self temp_fixed tmpdir d :
  stable R (evaluate_distributed_tests w self temp_fixed tmpdir d).
Proof.
  unfold evaluate_distributed_tests, run_distributed_tests.
  pose proof (@stable_getitem string). pose proof (@stable_getitem (gmap string string)).
  stable_auto; auto.
Qed.

Lemma stable_evaluate w self temp_fixed tmpdir d :
  stable R (evaluate w self temp_fixed tmpdir d).
Proof.
  unfold evaluate, debug.
  pose proof (@stable_getitem string). pose proof (@stable_getitem (gmap string string)).
  pose proof (@stable_errorWithException unit).
  pose proof stable_run_precommand. pose proof stable_run_command.
  pose proof stable_evaluate_distributed_tests.
  stable_auto; auto.
Qed.

Lemma stable_grade_message w self a temp_fixed tmpdir sub :
  stable R (grade_message w self a temp_fixed tmpdir sub).
Proof.
  unfold grade_message, grade_steps, grade_failure, print_exc, info, debug.
  pose proof stable_build_workspace. pose proof stable_evaluate.
  stable_auto; auto.
Qed.

Lemma stable_report w cfg sub message : stable R (report w cfg sub message).
Proof. unfold report, info, debug, warn. stable_auto. Qed.

(** A temporary directory, made and removed, is within [R]. *)
Hypothesis R_tempdir :
  ∀ {A} path (body : string → M A), (∀ d, stable R (body d)) → stable R (with_tempdir path body).

Lemma stable_grade_submission w cfg self a temp_fixed sub :
  stable R (grade_submission w cfg self a temp_fixed sub).
Proof.
  unfold grade_submission, debug, set_acls, info.
  apply R_tempdir. intros tmpdir.
  pose proof stable_grade_message. pose proof stable_report.
  stable_auto; auto.
Qed.

Lemma stable_grade_if_eligible w cfg self a temp_fixed sub :
  stable R (grade_if_eligible w cfg self a temp_fixed sub).
Proof.
  unfold grade_if_eligible. pose proof stable_grade_submission. stable_auto; auto.
Qed.

(** Changing a setting of the descriptor is within [R]. *)
Hypothesis R_compile_timeout : ∀ s n, R s (set_compile_timeout n s).
Hypothesis R_has_distributed_tests : ∀ s b, R s (set_has_distributed_tests b s).
Hypothesis R_executable : ∀ s e, R s (set_executable e s).





End Frame.

Lemma wp_post {A} (P : state → Prop) (m : M A) s
    (Q : result A → state → list event → Prop) :
  (∀ r s' t, P s' → Q r s' t) → P (final (m s)) → wp m s Q.
Proof. unfold wp. auto. Qed.

(** One step of a run, chosen by the head construct. *)
Ltac wp_go :=
  lazymatch goal with
  | |- wp (bind _ _) _ _ => apply wp_bind
  | |- wp (ret _) _ _ => apply wp_ret
  | |- wp (raise _) _ _ => apply wp_raise
  | |- wp (emit _) _ _ => apply wp_emit
  | |- wp (gets _) _ _ => apply wp_gets
  | |- wp (modify _) _ _ => apply wp_modify
  | |- wp (try_except _ _ _) _ _ => apply wp_try
  end;
  cbv beta iota.





Lemma same_settings_refl s : same_settings s s.
Proof. repeat split. Qed.

Lemma same_settings_trans s1 s2 s3 :
  same_settings s1 s2 → same_settings s2 s3 → same_settings s1 s3.
Proof. unfold same_settings. intros (? & ? & ?) (? & ? & ?). repeat split; congruence. Qed.

Lemma same_settings_tempdir {A} path (body : string → M A) :
  (∀ d, stable same_settings (body d)) → stable same_settings (with_tempdir path body).
Proof.
  intros H s. specialize (H path (entered path s)).
  unfold with_tempdir, entered, final in *.
  destruct (body path _) as [[r s1] t]. cbn [fst snd] in *.
  destruct H as (? & ? & ?). repeat split; assumption.
Qed.

(** X6: grading the submissions of an assignment never changes what its
    descriptor has set: the timeout, the distributed-test flag and the
    executable are the same after the loop over the submissions as before
    it, whatever happens to the submissions. *)
Theorem grading_keeps_settings w cfg self a temp_fixed subs s :
  same_settings s (final (for_each subs (grade_if_eligible w cfg self a temp_fixed) s)).
Proof.
  apply stable_for_each; [apply same_settings_refl | apply same_settings_trans |].
  intros sub. apply stable_grade_if_eligible.
  - apply same_settings_refl.
  - apply same_settings_trans.
  - intros s' n. repeat split.
  - intros s' d files _. repeat split.
  - intros A path body. apply same_settings_tempdir.
Qed.






(** ** The regrade decision, continued *)

(** X8: the decision depends on the set of comments only: two submissions
    handed in at the same time, with the same comments in any order and
    any number of copies, get the same decision. *)
Theorem decision_ignores_comment_order (sub sub' : submission) :
  submitted_at sub = submitted_at sub' →
  (∀ c, In c (submission_comments sub) ↔ In c (submission_comments sub')) →
  should_check_submission sub = should_check_submission sub'.
Proof.
  intros Htime Hsame.
  destruct (should_check_submission sub) eqn:E, (should_check_submission sub') eqn:E';
    try reflexivity.
  - apply should_check_submission_false in E' as (c & Hin & Hc).
    assert (should_check_submission sub = false) as H; [|congruence].
    apply should_check_submission_false. exists c. split; [apply Hsame, Hin|].
    rewrite Htime. exact Hc.
  - apply should_check_submission_false in E as (c & Hin & Hc).
    assert (should_check_submission sub' = false) as H; [|congruence].
    apply should_check_submission_false. exists c. split; [apply Hsame, Hin|].
    rewrite <- Htime. exact Hc.
Qed.

(** A note and a verdict, against the verdict, the note and the verdict again. *)
Lemma decision_ignores_comment_order_witness :
  should_check_submission
    (Sample.with_comments
       [ {| comment_text := "late"; created_at := "2024-02-01T08:00:00Z" |};
         {| comment_text := grade_comment "PASSED"; created_at := "2024-03-01T12:01:00Z" |} ]
       Sample.fresh)
  = should_check_submission
      (Sample.with_comments
         [ {| comment_text := grade_comment "PASSED"; created_at := "2024-03-01T12:01:00Z" |};
           {| comment_text := "late"; created_at := "2024-02-01T08:00:00Z" |};
           {| comment_text := grade_comment "PASSED"; created_at := "2024-03-01T12:01:00Z" |} ]
         Sample.fresh).
Proof.
  apply decision_ignores_comment_order; [reflexivity|].
  intros c. cbn [submission_comments Sample.with_comments In]. tauto.
Defined.

(** ** Looking a file up in the folder *)

Lemma get_file_run folder file_name outpath s :
  get_file folder file_name outpath s
  = if negb (Py.truthy file_name) then
      (Raised (Exn EnvironmentError "No file name was given."), s,
       [Log LError "No file name was given."])
    else
      match named file_name (folder_files folder) with
      | [] =>
          (Raised (Exn EnvironmentError
                     (file_name +:+ " file not found in " +:+ CODEVAL_FOLDER +:+ ".")), s,
           [Log LError (file_name +:+ " file not found in " +:+ CODEVAL_FOLDER +:+ ".")])
      | [file] =>
          match fs s !! outpath.1 with
          | Some files =>
              (Ok outpath,
               set_fs (<[outpath.1 := <[outpath.2 := file_data file]> files]> (fs s)) s,
               [Log LDebug (file_name +:+ " downloaded at " +:+ path_str outpath +:+ ".")])
          | None =>
              (Raised (Exn FileNotFoundError
                         ("[Errno 2] No such file or directory: " +:+ Py.repr_str outpath.1)),
               s, [])
          end
      | file :: more =>
          (Raised (Exn EnvironmentError
                     ("Multiple files found matching " +:+ file_name +:+ ": "
                      +:+ Py.repr_str_list (map display_name (file :: more)) +:+ ".")), s,
           [Log LError ("Multiple files found matching " +:+ file_name +:+ ": "
                        +:+ Py.repr_str_list (map display_name (file :: more)) +:+ ".")])
      end.
Proof.
  unfold get_file, named.
  destruct (negb (Py.truthy file_name)); [reflexivity|].
  destruct (List.filter _ _) as [|file [|file' more]]; try reflexivity.
  unfold write_file, get_dir, put_dir, no_such_file, debug, getindex, bind, modify, emit,
    ret, raise.
  cbn [length Nat.eqb Nat.ltb Nat.leb nth_error].
  destruct (fs s !! outpath.1); reflexivity.
Qed.

(** X9: [get_file] is all or nothing.  When it returns, it returns the
    path it was given, exactly one file of the folder has the name asked
    for, and that file's content is what a read of the path now gives;
    when it raises, it raises an [Exception] and leaves the state as it
    was. *)
Theorem get_file_all_or_nothing folder file_name outpath s :
  match outcome (get_file folder file_name outpath s) with
  | Ok p =>
      p = outpath
      ∧ Py.truthy file_name = true
      ∧ ∃ file,
          named file_name (folder_files folder) = [file]
          ∧ read_file outpath (final (get_file folder file_name outpath s))
            = (Ok (file_data file), final (get_file folder file_name outpath s), [])
  | Raised e =>
      final (get_file folder file_name outpath s) = s ∧ is_Exception e = true
  end.
Proof.
  rewrite get_file_run.
  destruct (Py.truthy file_name); cbn [negb]; [|split; reflexivity].
  destruct (named file_name (folder_files folder)) as [|file [|file' more]];
    try (split; reflexivity).
  destruct (fs s !! outpath.1) as [files|] eqn:Hdir; [|split; reflexivity].
  unfold outcome, final. cbn [fst snd].
  split; [reflexivity|]. split; [reflexivity|]. exists file. split; [reflexivity|].
  unfold read_file, get_dir, bind, ret. cbn [fs set_fs].
  rewrite lookup_insert_eq. rewrite lookup_insert_eq. reflexivity.
Qed.

(** ** The specs of a course *)

Lemma append_cons (c : ascii) (a b : string) : String c a +:+ b = String c (a +:+ b).
Proof. reflexivity. Qed.

Lemma append_nil_r (s : string) : s +:+ "" = s.
Proof.
  induction s as [|c s IH]; [reflexivity|]. rewrite append_cons, IH. reflexivity.
Qed.

Lemma append_assoc (a b c : string) : (a +:+ b) +:+ c = a +:+ (b +:+ c).
Proof.
  induction a as [|x a IH]; [reflexivity|]. rewrite !append_cons, IH. reflexivity.
Qed.

Lemma length_append (a b : string) :
  String.length (a +:+ b) = (String.length a + String.length b)%nat.
Proof.
  induction a as [|x a IH]; [reflexivity|]. rewrite append_cons. simpl. rewrite IH. reflexivity.
Qed.

Lemma substring_append (a b : string) : String.substring 0 (String.length a) (a +:+ b) = a.
Proof.
  induction a as [|x a IH].
  - destruct b; reflexivity.
  - rewrite append_cons. simpl. rewrite IH. reflexivity.
Qed.

Lemma prefix_append (p s : string) :
  String.prefix p s = true ↔ ∃ r, s = p +:+ r.
Proof.
  revert s. induction p as [|x p IH]; intros s.
  - split; [intros _; exists s; reflexivity | intros _; destruct s; reflexivity].
  - destruct s as [|y s]; simpl.
    + split; [discriminate | intros (r & H); discriminate].
    + destruct (Ascii.ascii_dec x y) as [->|Hne].
      * rewrite IH. split; intros (r & H); exists r; rewrite ?append_cons in *; congruence.
      * split; [discriminate | intros (r & H); rewrite append_cons in H; congruence].
Qed.

Lemma rev_onto_acc (s acc : string) : Py.rev_onto s acc = Py.rev_onto s "" +:+ acc.
Proof.
  revert acc. induction s as [|c s IH]; intros acc; simpl; [reflexivity|].
  rewrite (IH (String c acc)), (IH (String c "")), append_assoc. reflexivity.
Qed.

Lemma rev_onto_append (a b acc : string) :
  Py.rev_onto (a +:+ b) acc = Py.rev_onto b (Py.rev_onto a acc).
Proof.
  revert acc. induction a as [|c a IH]; intros acc; [reflexivity|].
  rewrite append_cons. simpl. apply IH.
Qed.

Lemma rev_onto_involutive (s : string) : Py.rev_onto (Py.rev_onto s "") "" = s.
Proof.
  induction s as [|c s IH]; simpl; [reflexivity|].
  rewrite (rev_onto_acc s (String c "")), rev_onto_append. simpl. rewrite IH. reflexivity.
Qed.

(** A string ends with a suffix exactly when it is something followed by it. *)
Lemma endswith_append (s suffix : string) :
  endswith s suffix = true ↔ ∃ a, s = a +:+ suffix.
Proof.
  unfold endswith. rewrite prefix_append. split.
  - intros (r & H). exists (Py.rev_onto r "").
    rewrite <- (rev_onto_involutive s), H, rev_onto_append.
    rewrite rev_onto_involutive. apply rev_onto_acc.
  - intros (a & ->). exists (Py.rev_onto a "").
    rewrite rev_onto_append. apply rev_onto_acc.
Qed.

Lemma drop_last_append (a suffix : string) :
  drop_last (String.length suffix) (a +:+ suffix) = a.
Proof.
  unfold drop_last. rewrite length_append.
  replace (String.length a + String.length suffix - String.length suffix)%nat
    with (String.length a) by lia.
  apply substring_append.
Qed.

(** The names of the specs of a folder. *)
Lemma specs_of_In (files : list canvas_file) (name : string) :
  In name (specs_of files)
  ↔ ∃ spec, In spec files ∧ display_name spec = name +:+ CODEVAL_SUFFIX.
Proof.
  unfold specs_of. rewrite in_map_iff. split.
  - intros (spec & Hname & Hin). apply filter_In in Hin as [Hin Hend].
    apply endswith_append in Hend as (a & Ha).
    exists spec. split; [exact Hin|].
    rewrite Ha in Hname. rewrite drop_last_append in Hname. subst a. exact Ha.
  - intros (spec & Hin & Hname). exists spec. split.
    + rewrite Hname. apply drop_last_append.
    + apply filter_In. split; [exact Hin|].
      apply endswith_append. exists name. exact Hname.
Qed.

(** X10: [get_assignment_specs] returns the first folder of the course
    whose full name is that of the CodEval folder, with exactly the names
    that, followed by the suffix .codeval, are the display name of a file
    of that folder; it returns nothing only when the course has no folder
    of that name. *)
Theorem specs_are_the_descriptor_names (course_folders : list folder) :
  match get_assignment_specs course_folders with
  | Some (f, specs) =>
      (∃ before after,
          course_folders = before ++ f :: after
          ∧ full_name f = CODEVAL_FOLDER
          ∧ Forall (fun g => full_name g ≠ CODEVAL_FOLDER) before)
      ∧ ∀ name,
          In name specs
          ↔ ∃ spec, In spec (folder_files f) ∧ display_name spec = name +:+ CODEVAL_SUFFIX
  | None => Forall (fun g => full_name g ≠ CODEVAL_FOLDER) course_folders
  end.
Proof.
  induction course_folders as [|f rest IH]; [constructor|].
  cbn [get_assignment_specs].
  destruct (String.eqb_spec (full_name f) CODEVAL_FOLDER) as [Heq|Hne].
  - split; [|intros name; apply specs_of_In].
    exists [], rest. split; [reflexivity|]. split; [exact Heq | constructor].
  - destruct (get_assignment_specs rest) as [[g specs]|].
    + destruct IH as [(before & after & -> & Hg & Hbefore) Hnames].
      split; [|exact Hnames].
      exists (f :: before), after. split; [reflexivity|]. split; [exact Hg|].
      constructor; assumption.
    + constructor; assumption.
Qed.

Lemma in_specs_In name specs : in_specs name specs = true ↔ In name specs.
Proof.
  unfold in_specs. rewrite existsb_exists. split.
  - intros (x & Hin & Heq). apply String.eqb_eq in Heq. subst. exact Hin.
  - intros Hin. exists name. split; [exact Hin | apply String.eqb_refl].
Qed.

Lemma named_unique (files : list canvas_file) (f : canvas_file) :
  List.NoDup (map display_name files) → In f files →
  named (display_name f) files = [f].
Proof.
  unfold named. induction files as [|g files IH]; intros Hnd Hin; [destruct Hin|].
  simpl in Hnd. apply List.NoDup_cons_iff in Hnd as [Hnotin Hnd].
  assert (∀ h, In h files → display_name h ≠ display_name g) as Hdiff.
  { intros h Hh Heq. apply Hnotin. rewrite <- Heq. apply in_map. exact Hh. }
  simpl. destruct Hin as [->|Hin].
  - rewrite String.eqb_refl. f_equal.
    clear IH Hnd Hnotin. induction files as [|h files IH']; [reflexivity|].
    simpl. destruct (String.eqb_spec (display_name h) (display_name f)) as [Heq|_].
    + exfalso. apply (Hdiff h); [left; reflexivity | exact Heq].
    + apply IH'. intros h' Hh'. apply Hdiff. right. exact Hh'.
  - destruct (String.eqb_spec (display_name g) (display_name f)) as [Heq|_].
    + exfalso. apply (Hdiff f Hin). symmetry. exact Heq.
    + apply IH; assumption.
Qed.

Lemma truthy_append_r (a b : string) : Py.truthy b = true → Py.truthy (a +:+ b) = true.
Proof. destruct a; [intros H; exact H | reflexivity]. Qed.

(** X11: an assignment that has a spec has its descriptor.  When the
    display names of the folder are all different and the destination
    directory exists, [get_file] finds the file called after the
    assignment, writes its content to testcases.txt there, and returns
    that path. *)
Theorem spec_found_for_graded_assignment folder name dest_dir s :
  in_specs name (specs_of (folder_files folder)) = true →
  List.NoDup (map display_name (folder_files folder)) →
  is_Some (fs s !! dest_dir) →
  ∃ spec files,
    In spec (folder_files folder)
    ∧ display_name spec = name +:+ CODEVAL_SUFFIX
    ∧ fs s !! dest_dir = Some files
    ∧ get_file folder (name +:+ CODEVAL_SUFFIX) (dest_dir, "testcases.txt") s
      = (Ok (dest_dir, "testcases.txt"),
         set_fs (<[dest_dir := <["testcases.txt" := file_data spec]> files]> (fs s)) s,
         [Log LDebug ((name +:+ CODEVAL_SUFFIX) +:+ " downloaded at "
                      +:+ path_str (dest_dir, "testcases.txt") +:+ ".")]).
Proof.
  intros Hspec Hnd [files Hdir].
  apply in_specs_In, specs_of_In in Hspec as (spec & Hin & Hname).
  exists spec, files. split; [exact Hin|]. split; [exact Hname|]. split; [exact Hdir|].
  rewrite get_file_run.
  rewrite truthy_append_r by reflexivity. cbn [negb].
  rewrite <- Hname, (named_unique _ spec Hnd Hin). cbn [fst snd].
  rewrite Hdir. reflexivity.
Qed.

(** The spec of hw2, looked up into an empty directory. *)
Lemma spec_found_for_graded_assignment_witness :
  ∃ spec files,
    In spec (folder_files Sample.specs_folder)
    ∧ display_name spec = "hw2" +:+ CODEVAL_SUFFIX
    ∧ fs (entered "/tmp/codeval2fixed" initial_state) !! "/tmp/codeval2fixed" = Some files
    ∧ get_file Sample.specs_folder ("hw2" +:+ CODEVAL_SUFFIX)
        ("/tmp/codeval2fixed", "testcases.txt") (entered "/tmp/codeval2fixed" initial_state)
      = (Ok ("/tmp/codeval2fixed", "testcases.txt"),
         set_fs (<["/tmp/codeval2fixed" := <["testcases.txt" := file_data spec]> files]>
                   (fs (entered "/tmp/codeval2fixed" initial_state)))
           (entered "/tmp/codeval2fixed" initial_state),
         [Log LDebug (("hw2" +:+ CODEVAL_SUFFIX) +:+ " downloaded at "
                      +:+ path_str ("/tmp/codeval2fixed", "testcases.txt") +:+ ".")]).
Proof.
  apply (spec_found_for_graded_assignment Sample.specs_folder "hw2" "/tmp/codeval2fixed"
           (entered "/tmp/codeval2fixed" initial_state)).
  - reflexivity.
  - repeat constructor; simpl; intuition discriminate.
  - eexists. vm_compute. reflexivity.
Defined.

(** ** The descriptor parser, continued *)

Lemma stable_bind_ret {A B} (R : state → state → Prop) (a : A) (f : A → M B) :
  stable R (f a) → stable R (bind (ret a) f).
Proof.
  intros H s. specialize (H s). unfold bind, ret, final in *.
  destruct (f a s) as [[r s2] t2]. exact H.
Qed.

Lemma stable_bind_raise {A B} (R : state → state → Prop) e (f : A → M B) :
  (∀ s, R s s) → stable R (bind (raise e) f).
Proof. intros H s. apply H. Qed.

Lemma stable_for_each_Forall {A} (R : state → state → Prop) (l : list A) (body : A → M unit) :
  (∀ s, R s s) → (∀ s1 s2 s3, R s1 s2 → R s2 s3 → R s1 s3) →
  Forall (fun x => stable R (body x)) l → stable R (for_each l body).
Proof.
  intros Hrefl Htrans. induction 1 as [|x l Hx _ IH]; simpl.
  - apply stable_ret, Hrefl.
  - apply stable_bind; [exact Htrans | exact Hx | intros _; exact IH].
Qed.

Section Directive.

Context (R : state → state → Prop).
Hypothesis R_refl : ∀ s, R s s.
Hypothesis R_trans : ∀ s1 s2 s3, R s1 s2 → R s2 s3 → R s1 s3.
Hypothesis R_put : ∀ s d files, is_Some (fs s !! d) → R s (set_fs (<[d := files]> (fs s)) s).

(** A line is within [R] when the setting its keyword changes is. *)
Lemma stable_directive_unless w self folder dest_dir line :
  (keyword line = "CTO" → ∀ s n, R s (set_compile_timeout n s)) →
  (keyword line = "USING" → ∀ s e, R s (set_executable e s)) →
  (keyword line = "--DT--" → ∀ s b, R s (set_has_distributed_tests b s)) →
  stable R (directive w self folder dest_dir line).
Proof.
  unfold keyword, directive. intros Hcto Husing Hdt.
  destruct (negb (Py.truthy (Py.strip line))); [apply stable_ret, R_refl|].
  destruct (Py.split " " (Py.strip line)) as [|tok rest].
  { unfold getindex at 1. cbn [nth_error]. apply stable_bind_raise, R_refl. }
  cbn [hd] in *. unfold getindex at 1. cbn [nth_error].
  apply stable_bind_ret.
  destruct (String.eqb_spec tok "Z") as [_|_].
  { unfold debug.
    repeat lazymatch goal with
      | |- stable _ (bind _ _) => apply stable_bind; [exact R_trans | |intros ?]
      | |- stable _ (emit _) => apply stable_emit, R_refl
      | |- stable _ (get_file _ _ _) => apply stable_get_file; assumption
      | |- stable _ (unzip _ _ _ _) => apply stable_unzip; assumption
      end. }
  destruct (String.eqb_spec tok "CTO") as [Hk|_].
  { apply stable_bind; [exact R_trans | apply stable_getindex, R_refl |]. intros a.
    destruct (Py.int a); [apply stable_modify; intros; apply (Hcto Hk) | apply stable_raise, R_refl]. }
  destruct (String.eqb_spec tok "USING") as [Hk|_].
  { apply stable_bind; [exact R_trans | apply stable_getindex, R_refl |]. intros a.
    apply stable_bind; [exact R_trans | apply stable_get_dir, R_refl |]. intros listing.
    destruct (listing !! a); [|apply stable_errorWithException; assumption].
    apply stable_bind; [exact R_trans | apply stable_modify; intros; apply (Husing Hk) |].
    intros _. apply stable_emit, R_refl. }
  destruct (String.eqb_spec tok "--DT--") as [Hk|_]; [|apply stable_ret, R_refl].
  apply stable_bind; [exact R_trans | apply stable_modify; intros; apply (Hdt Hk) |].
  intros _. unfold _check_distributed_config, _check_config, sys_exit, error. cbn [for_each].
  repeat lazymatch goal with
    | |- stable _ (bind _ _) => apply stable_bind; [exact R_trans | |intros ?]
    | |- stable _ (match ?x with _ => _ end) => destruct x
    | |- stable _ (ret _) => apply stable_ret, R_refl
    | |- stable _ (raise _) => apply stable_raise, R_refl
    | |- stable _ (emit _) => apply stable_emit, R_refl
    end.
Qed.

End Directive.

Lemma truthy_path_str (p : path) : Py.truthy (path_str p) = true.
Proof. unfold path_str. destruct p as [[|c d] n]; reflexivity. Qed.

(** Parsing, once the descriptor is found: the file is written, the
    executable reset, and the lines are gone through in order. *)
Lemma get_valid_test_file_run w self course_name folder name dest_dir s spec files :
  named (name +:+ CODEVAL_SUFFIX) (folder_files folder) = [spec] →
  fs s !! dest_dir = Some files →
  get_valid_test_file w self course_name folder name dest_dir s
  = let r := for_each (Py.readlines (file_data spec)) (directive w self folder dest_dir)
               (set_executable None
                  (set_fs (<[dest_dir := <["testcases.txt" := file_data spec]> files]> (fs s))
                     s)) in
    (outcome r, final r,
     [Log LDebug ("getting " +:+ name +:+ " from " +:+ course_name);
      Log LDebug ((name +:+ CODEVAL_SUFFIX) +:+ " downloaded at "
                  +:+ path_str (dest_dir, "testcases.txt") +:+ ".");
      Log LDebug ("testcase file downloaded at " +:+ path_str (dest_dir, "testcases.txt"))]
     ++ effects r).
Proof.
  intros Hnamed Hdir.
  unfold get_valid_test_file, debug. unfold bind at 1 2. unfold emit at 1.
  rewrite get_file_run. rewrite truthy_append_r by reflexivity. cbn [negb].
  rewrite Hnamed. cbn [fst snd]. rewrite Hdir.
  unfold bind at 1. rewrite truthy_path_str. cbn [negb]. unfold ret at 1.
  unfold bind at 1. unfold emit at 1.
  unfold bind at 1. unfold read_file, get_dir, bind at 1. cbn [fst snd fs set_fs].
  rewrite lookup_insert_eq. cbn [fst snd]. rewrite lookup_insert_eq. unfold ret at 1.
  unfold bind at 1, modify.
  cbv zeta. unfold outcome, final, effects.
  destruct (for_each _ _ _) as [[r s2] t2]. reflexivity.
Qed.

(** X12: each setting is changed only by its own directive.  When the
    descriptor is found and the destination directory exists, then,
    however the parse ends: without a USING line the executable is the
    default ([None]), whatever it was before; without a CTO line the
    timeout is the one in force before the parse; without a --DT-- line
    the distributed-test flag is the one in force before the parse. *)
Theorem settings_follow_their_directives w self course_name folder name dest_dir s spec :
  named (name +:+ CODEVAL_SUFFIX) (folder_files folder) = [spec] →
  is_Some (fs s !! dest_dir) →
  (uses "USING" (file_data spec) = false →
   executable (final (get_valid_test_file w self course_name folder name dest_dir s)) = None)
  ∧ (uses "CTO" (file_data spec) = false →
     compile_timeout (final (get_valid_test_file w self course_name folder name dest_dir s))
     = compile_timeout s)
  ∧ (uses "--DT--" (file_data spec) = false →
     has_distributed_tests
       (final (get_valid_test_file w self course_name folder name dest_dir s))
     = has_distributed_tests s).
Proof.
  intros Hnamed [files Hdir].
  rewrite (get_valid_test_file_run w self course_name folder name dest_dir s spec files
             Hnamed Hdir).
  cbv zeta. unfold final at 1 3 5. cbn [fst snd].
  set (s1 := set_executable None _).
  assert (∀ kw (R : state → state → Prop),
            (∀ s, R s s) → (∀ a b c, R a b → R b c → R a c) →
            (∀ s d files, is_Some (fs s !! d) → R s (set_fs (<[d := files]> (fs s)) s)) →
            (kw ≠ "CTO" → ∀ s n, R s (set_compile_timeout n s)) →
            (kw ≠ "USING" → ∀ s e, R s (set_executable e s)) →
            (kw ≠ "--DT--" → ∀ s b, R s (set_has_distributed_tests b s)) →
            uses kw (file_data spec) = false →
            R s1 (final (for_each (Py.readlines (file_data spec))
                           (directive w self folder dest_dir) s1))) as Hframe.
  { intros kw R Hrefl Htrans Hput Hcto Husing Hdt Huses.
    apply stable_for_each_Forall; [exact Hrefl | exact Htrans|].
    apply List.Forall_forall. intros line Hline.
    assert (keyword line ≠ kw) as Hkw.
    { unfold uses in Huses. intros Heq.
      assert (existsb (fun l => String.eqb (keyword l) kw) (Py.readlines (file_data spec))
              = true) as H; [|congruence].
      apply existsb_exists. exists line. split; [exact Hline|].
      rewrite Heq. apply String.eqb_refl. }
    apply stable_directive_unless; try assumption.
    - intros Hk. apply Hcto. congruence.
    - intros Hk. apply Husing. congruence.
    - intros Hk. apply Hdt. congruence. }
  split; [|split]; intros Huses.
  - apply (Hframe "USING" (fun a b => executable b = executable a)); auto; try congruence.
  - apply (Hframe "CTO" (fun a b => compile_timeout b = compile_timeout a)); auto;
      try congruence.
  - apply (Hframe "--DT--" (fun a b => has_distributed_tests b = has_distributed_tests a));
      auto; try congruence.
Qed.

(** The empty descriptor of hw2, parsed after settings were changed. *)
Lemma settings_follow_their_directives_witness :
  executable
    (final (get_valid_test_file Sample.all_pass (Sample.self_of Sample.run_dist) "cs101"
              Sample.specs_folder "hw2" "/tmp/codeval2fixed"
              (set_executable (Some "run.sh")
                 (entered "/tmp/codeval2fixed" initial_state)))) = None.
Proof.
  apply (proj1 (settings_follow_their_directives Sample.all_pass
                  (Sample.self_of Sample.run_dist) "cs101" Sample.specs_folder "hw2"
                  "/tmp/codeval2fixed"
                  (set_executable (Some "run.sh") (entered "/tmp/codeval2fixed" initial_state))
                  {| display_name := "hw2.codeval"; file_data := "" |}
                  eq_refl ltac:(eexists; vm_compute; reflexivity))).
  reflexivity.
Defined.

Lemma stable_ok_of_stable {A} (R : state → state → Prop) (m : M A) :
  stable R m → stable_ok R m.
Proof. intros H s a _. apply H. Qed.

Lemma stable_ok_bind {A B} (R : state → state → Prop) (m : M A) (f : A → M B) :
  (∀ s1 s2 s3, R s1 s2 → R s2 s3 → R s1 s3) →
  stable_ok R m → (∀ a, stable_ok R (f a)) → stable_ok R (bind m f).
Proof.
  intros Htrans Hm Hf s b. specialize (Hm s). unfold bind, outcome, final in *.
  destruct (m s) as [[[a|e] s1] t1]; cbn [fst snd] in *; [|discriminate].
  specialize (Hf a s1). unfold outcome, final in Hf.
  destruct (f a s1) as [[r2 s2] t2]; cbn [fst snd] in *.
  intros ->. eapply Htrans; [apply (Hm a eq_refl) | apply (Hf b eq_refl)].
Qed.

Lemma stable_ok_for_each_Forall {A} (R : state → state → Prop) (l : list A)
    (body : A → M unit) :
  (∀ s, R s s) → (∀ s1 s2 s3, R s1 s2 → R s2 s3 → R s1 s3) →
  Forall (fun x => stable_ok R (body x)) l → stable_ok R (for_each l body).
Proof.
  intros Hrefl Htrans. induction 1 as [|x l Hx _ IH]; simpl.
  - intros s a _. apply Hrefl.
  - apply stable_ok_bind; [exact Htrans | exact Hx | intros _; exact IH].
Qed.

(** When the parse returns normally, the descriptor was found and the
    destination directory existed. *)
Lemma get_valid_test_file_ok w self course_name folder name dest_dir s :
  outcome (get_valid_test_file w self course_name folder name dest_dir s) = Ok tt →
  ∃ spec files,
    named (name +:+ CODEVAL_SUFFIX) (folder_files folder) = [spec]
    ∧ fs s !! dest_dir = Some files.
Proof.
  unfold get_valid_test_file, debug. unfold bind at 1 2. unfold emit at 1.
  rewrite get_file_run.
  destruct (negb (Py.truthy (name +:+ CODEVAL_SUFFIX))); [discriminate|].
  destruct (named _ _) as [|spec [|spec' more]]; try discriminate.
  cbn [fst snd]. destruct (fs s !! dest_dir) as [files|]; [|discriminate].
  intros _. exists spec, files. auto.
Qed.

(** Without the keys of distributed testing, a --DT-- line never passes. *)
Lemma dt_line_exits w self folder dest_dir line s :
  dist_configured self = false →
  keyword line = "--DT--" →
  ∃ e, outcome (directive w self folder dest_dir line s) = Raised e.
Proof.
  unfold keyword, directive, dist_configured. intros Hd Hk.
  destruct (negb (Py.truthy (Py.strip line))) eqn:Hblank.
  { apply negb_true_iff in Hblank. destruct (Py.strip line); [discriminate Hk|discriminate]. }
  destruct (Py.split " " (Py.strip line)) as [|tok rest]; [discriminate Hk|].
  cbn [hd] in Hk. subst tok.
  unfold getindex, _check_distributed_config, _check_config, sys_exit, error.
  cbn [nth_error for_each String.eqb Ascii.eqb Bool.eqb andb].
  unfold bind, modify, emit, raise, ret, outcome. cbn [fst snd].
  destruct (parser self !! "RUN") as [run|]; cbn [fst snd]; [|eexists; reflexivity].
  destruct (run !! "dist_command"); cbn [fst snd]; [|eexists; reflexivity].
  destruct (run !! "host_ip"); [discriminate Hd|]. cbn [fst snd]. eexists; reflexivity.
Qed.

(** X13: distributed tests are only turned on with their configuration.
    When the parse of a descriptor returns normally and leaves the
    distributed-test flag set although it was not set before, [RUN] has
    dist_command and host_ip. *)
Theorem flag_set_only_when_configured w self course_name folder name dest_dir s :
  outcome (get_valid_test_file w self course_name folder name dest_dir s) = Ok tt →
  has_distributed_tests s = false →
  has_distributed_tests (final (get_valid_test_file w self course_name folder name dest_dir s))
  = true →
  dist_configured self = true.
Proof.
  intros Hok Hbefore Hafter.
  destruct (dist_configured self) eqn:Hd; [reflexivity|]. exfalso.
  destruct (get_valid_test_file_ok _ _ _ _ _ _ _ Hok) as (spec & files & Hnamed & Hdir).
  rewrite (get_valid_test_file_run w self course_name folder name dest_dir s spec files
             Hnamed Hdir) in Hok, Hafter.
  cbv zeta in Hok, Hafter. unfold outcome at 1 in Hok. unfold final at 1 in Hafter.
  cbn [fst snd] in Hok, Hafter.
  set (s1 := set_executable None _) in *.
  assert (has_distributed_tests
            (final (for_each (Py.readlines (file_data spec))
                      (directive w self folder dest_dir) s1))
          = has_distributed_tests s1) as Hsame.
  { apply (stable_ok_for_each_Forall
             (fun a b => has_distributed_tests b = has_distributed_tests a))
      with (a := tt); [reflexivity | congruence | | exact Hok].
    apply List.Forall_forall. intros line _.
    destruct (String.eqb_spec (keyword line) "--DT--") as [Hkw|Hkw].
    - intros s' a Hline.
      destruct (dt_line_exits w self folder dest_dir line s' Hd Hkw) as [e He]. congruence.
    - apply stable_ok_of_stable. apply stable_directive_unless; try congruence; auto. }
  rewrite Hsame in Hafter. cbn in Hafter. congruence.
Qed.

(** A run in which hw1 turns distributed testing on. *)
Lemma flag_set_only_when_configured_witness :
  dist_configured (Sample.self_of Sample.run_dist) = true.
Proof.
  apply (flag_set_only_when_configured Sample.all_pass (Sample.self_of Sample.run_dist)
           "cs101" Sample.specs_folder "hw1" "/tmp/codeval1fixed"
           (entered "/tmp/codeval1fixed" initial_state)); vm_compute; reflexivity.
Defined.

Lemma wp_get_dir d s files (Q : result dir → state → list event → Prop) :
  fs s !! d = Some files → Q (Ok files) s [] → wp (get_dir d) s Q.
Proof. intros H HQ. eapply wp_run; [apply get_dir_run, H | exact HQ]. Qed.

Lemma wp_put_dir d files s (Q : result unit → state → list event → Prop) :
  Q (Ok tt) (set_fs (<[d := files]> (fs s)) s) [] → wp (put_dir d files) s Q.
Proof. exact id. Qed.

Lemma executable_present_put dest_dir s (files files' : dir) :
  fs s !! dest_dir = Some files →
  files' !! "extrafiles.zip" = None →
  (∀ f, is_Some (files !! f) → f ≠ "extrafiles.zip" → is_Some (files' !! f)) →
  executable_present dest_dir s →
  executable_present dest_dir (set_fs (<[dest_dir := files']> (fs s)) s).
Proof.
  intros Hdir Hzip Hkeep (files0 & Hdir0 & Hzip0 & Hexe).
  rewrite Hdir in Hdir0. injection Hdir0 as <-.
  exists files'. cbn [fs set_fs executable]. rewrite lookup_insert_eq.
  split; [reflexivity|]. split; [exact Hzip|].
  intros f Hf. apply Hkeep; [apply Hexe, Hf|].
  intros ->. destruct (Hexe _ Hf) as [x Hx]. congruence.
Qed.

Lemma check_distributed_config_final self s :
  final (_check_distributed_config self s) = s.
Proof.
  unfold _check_distributed_config, _check_config, sys_exit, error. cbn [for_each].
  unfold bind, emit, raise, ret, final.
  destruct (parser self !! "RUN") as [run|]; [|reflexivity].
  destruct (run !! "dist_command"); [|reflexivity].
  destruct (run !! "host_ip"); reflexivity.
Qed.

(** A line that passes keeps the executable among the fixed files. *)
Lemma directive_keeps_executable w self folder dest_dir line s :
  executable_present dest_dir s →
  wp (directive w self folder dest_dir line) s
     (fun r s' _ => ∀ a, r = Ok a → executable_present dest_dir s').
Proof.
  intros HJ. pose proof HJ as (files & Hdir & Hzip & Hexe).
  unfold directive.
  destruct (negb (Py.truthy (Py.strip line))); [wp_go; auto|].
  wp_go. unfold getindex at 1.
  destruct (nth_error _ 0) as [tok|]; wp_go; [|discriminate].
  destruct (String.eqb tok "Z").
  { unfold debug. do 3 wp_go.
    unfold wp at 1. rewrite get_file_run.
    destruct (negb (Py.truthy _)); [discriminate|].
    destruct (named _ _) as [|file [|file' more]]; try discriminate.
    cbn [fst snd]. rewrite Hdir. unfold outcome, final, effects. cbn [fst snd].
    unfold unzip, read_file. cbn [fst snd]. do 3 wp_go.
    eapply wp_get_dir; [cbn [fs set_fs]; apply lookup_insert_eq|]. cbv beta iota.
    rewrite lookup_insert_eq. wp_go.
    destruct (w_unzip w (file_data file)) as [why|entries]; [wp_go; discriminate|].
    wp_go. eapply wp_get_dir; [cbn [fs set_fs]; apply lookup_insert_eq|]. cbv beta iota.
    wp_go. apply wp_put_dir. cbv beta iota.
    unfold remove_file. cbn [fst snd]. wp_go.
    eapply wp_get_dir; [cbn [fs set_fs]; apply lookup_insert_eq|]. cbv beta iota.
    destruct (extract_keeps entries (<["extrafiles.zip" := file_data file]> files)
                "extrafiles.zip") as [kept Hkept]; [rewrite lookup_insert_eq; eauto|].
    rewrite Hkept. apply wp_put_dir. cbv beta iota. wp_go.
    intros _ _. cbn [fs set_fs]. rewrite !insert_insert_eq.
    apply (executable_present_put dest_dir s files); auto.
    - apply lookup_delete_eq.
    - intros f Hf Hne. rewrite lookup_delete_ne by congruence.
      apply extract_keeps. rewrite lookup_insert_ne by congruence. exact Hf. }
  destruct (String.eqb tok "CTO").
  { wp_go. unfold getindex. destruct (nth_error _ 1) as [arg|]; wp_go; [|discriminate].
    destruct (Py.int arg); wp_go; [|discriminate].
    intros _ _. exists files. auto. }
  destruct (String.eqb tok "USING").
  { wp_go. unfold getindex. destruct (nth_error _ 1) as [arg|]; wp_go; [|discriminate].
    wp_go. eapply wp_get_dir; [exact Hdir|]. cbv beta iota.
    destruct (files !! arg) as [x|] eqn:Harg.
    - unfold debug. do 3 wp_go. intros _ _. exists files.
      cbn [fs set_executable executable]. repeat split; auto.
      intros f [= <-]. eauto.
    - unfold errorWithException, error. do 3 wp_go. discriminate. }
  destruct (String.eqb tok "--DT--"); [|wp_go; auto].
  do 2 wp_go.
  apply (wp_post (fun s' => executable_present dest_dir s')); [auto|].
  rewrite check_distributed_config_final. exists files. auto.
Qed.

Lemma for_each_keeps {A} (I : state → Prop) (l : list A) (body : A → M unit) :
  (∀ x s, I s → wp (body x) s (fun r s' _ => ∀ a, r = Ok a → I s')) →
  ∀ s, I s → wp (for_each l body) s (fun r s' _ => ∀ a, r = Ok a → I s').
Proof.
  intros Hbody. induction l as [|x l IH]; intros s Hs; simpl.
  - apply wp_ret. auto.
  - apply wp_bind. specialize (Hbody x s Hs). unfold wp in *.
    destruct (outcome (body x s)) as [[]|e]; [|discriminate].
    apply IH. apply (Hbody tt). reflexivity.
Qed.

(** X14: the executable a descriptor names is one of the fixed files.
    When the parse returns normally, started with a destination directory
    that holds no extrafiles.zip, every executable it has set is a file of
    that directory as the parse leaves it, and the archives of extra files
    are gone. *)
Theorem executable_is_a_fixed_file w self course_name folder name dest_dir s (files0 : dir) :
  fs s !! dest_dir = Some files0 →
  files0 !! "extrafiles.zip" = None →
  outcome (get_valid_test_file w self course_name folder name dest_dir s) = Ok tt →
  ∃ files : dir,
    fs (final (get_valid_test_file w self course_name folder name dest_dir s)) !! dest_dir
    = Some files
    ∧ files !! "extrafiles.zip" = None
    ∧ ∀ f,
        executable (final (get_valid_test_file w self course_name folder name dest_dir s))
        = Some f →
        is_Some (files !! f).
Proof.
  intros Hdir Hzip Hok.
  destruct (get_valid_test_file_ok _ _ _ _ _ _ _ Hok) as (spec & files & Hnamed & Hdir').
  rewrite Hdir in Hdir'. injection Hdir' as <-.
  rewrite (get_valid_test_file_run w self course_name folder name dest_dir s spec files0
             Hnamed Hdir) in *.
  cbv zeta in *. unfold outcome at 1 in Hok. unfold final at 1 2. cbn [fst snd] in *.
  set (s1 := set_executable None _) in *.
  assert (executable_present dest_dir s1) as H1.
  { exists (<["testcases.txt" := file_data spec]> files0). subst s1.
    cbn [fs set_fs set_executable executable]. rewrite lookup_insert_eq.
    split; [reflexivity|]. split; [|discriminate].
    rewrite lookup_insert_ne by discriminate. exact Hzip. }
  apply (for_each_keeps (executable_present dest_dir) (Py.readlines (file_data spec))
           (directive w self folder dest_dir)
           (fun line s' => directive_keeps_executable w self folder dest_dir line s')
           s1 H1 tt Hok).
Qed.

(** A descriptor that fetches an archive of extra files and then names one
    of them as the executable. *)
Lemma executable_is_a_fixed_file_witness :
  ∃ files : dir,
    fs (final (get_valid_test_file Sample.all_pass (Sample.self_of Sample.run_plain) "cs101"
                 Cases.using_folder "hw4" "/tmp/codeval4fixed"
                 (entered "/tmp/codeval4fixed" initial_state))) !! "/tmp/codeval4fixed"
    = Some files
    ∧ files !! "extrafiles.zip" = None
    ∧ ∀ f,
        executable
          (final (get_valid_test_file Sample.all_pass (Sample.self_of Sample.run_plain)
                    "cs101" Cases.using_folder "hw4" "/tmp/codeval4fixed"
                    (entered "/tmp/codeval4fixed" initial_state))) = Some f →
        is_Some (files !! f).
Proof.
  apply (executable_is_a_fixed_file Sample.all_pass (Sample.self_of Sample.run_plain) "cs101"
           Cases.using_folder "hw4" "/tmp/codeval4fixed"
           (entered "/tmp/codeval4fixed" initial_state) ∅);
    vm_compute; reflexivity.
Defined.

(** ** The orchestrator, continued *)

Lemma posted_to_app (a b : list event) : posted_to (a ++ b) = posted_to a ++ posted_to b.
Proof. unfold posted_to. apply flat_map_app. Qed.

Lemma posted_to_no_edit (t : list event) :
  Forall (fun ev => is_edit ev = false) t → posted_to t = [].
Proof.
  induction 1 as [|ev t Hev _ IH]; [reflexivity|].
  unfold posted_to in *. cbn [flat_map]. rewrite IH.
  destruct ev; try reflexivity. discriminate.
Qed.

Lemma report_posts_once w cfg sub message s :
  dry_run cfg = false →
  posted_to (effects (report w cfg sub message s)) = [submission_id sub].
Proof.
  intros Hdry. unfold report. rewrite Hdry.
  unfold debug, warn, try_except, bind, emit, raise, ret, effects.
  destruct (w_edit _ _ _); reflexivity.
Qed.

Lemma grade_message_no_edit w self a temp_fixed tmpdir sub s :
  Forall (fun ev => is_edit ev = false)
         (effects (grade_message w self a temp_fixed tmpdir sub s)).
Proof.
  apply (sound_grade_message (fun ev => is_edit ev = false) (fun _ => true)); auto.
Qed.

Lemma grade_submission_posts_once w cfg self a temp_fixed sub s :
  dry_run cfg = false →
  posted_to (effects (grade_submission w cfg self a temp_fixed sub s)) = [submission_id sub].
Proof.
  intros Hdry.
  change (wp (grade_submission w cfg self a temp_fixed sub) s
            (fun _ _ t => posted_to t = [submission_id sub])).
  unfold grade_submission, debug, set_acls, info.
  apply wp_with_tempdir. do 5 wp_go.
  unfold wp at 1.
  destruct (total_grade_message w self a temp_fixed (w_tmpdir w sub) sub
              (entered (w_tmpdir w sub) s)) as [message ->].
  pose proof (grade_message_no_edit w self a temp_fixed (w_tmpdir w sub) sub
                (entered (w_tmpdir w sub) s)) as Hmsg.
  apply posted_to_no_edit in Hmsg.
  wp_go.
  assert (∀ s' pre, posted_to pre = [] →
            wp (report w cfg sub message) s'
               (fun _ _ t2 => posted_to (pre ++ t2) = [submission_id sub])) as Hrep.
  { intros s' pre Hpre. unfold wp. rewrite posted_to_app, Hpre.
    apply report_posts_once, Hdry. }
  destruct (copy_tmpdir cfg).
  - do 3 wp_go.
    match goal with |- wp _ _ (fun _ _ t2 => posted_to ?f = _) => idtac end.
    unfold wp. rewrite !posted_to_app, Hmsg, (report_posts_once _ _ _ _ _ Hdry). reflexivity.
  - wp_go.
    unfold wp. rewrite !posted_to_app, Hmsg, (report_posts_once _ _ _ _ _ Hdry). reflexivity.
Qed.

(** X15: when the run is not a dry run, the loop over the submissions of an
    assignment posts exactly one comment to each eligible submission, in
    the order of the submissions, and none to any other, whatever happens
    while they are graded. *)
Theorem one_comment_per_eligible_submission w cfg self a temp_fixed subs s :
  dry_run cfg = false →
  posted_to (effects (for_each subs (grade_if_eligible w cfg self a temp_fixed) s))
  = map submission_id (List.filter (eligible cfg) subs).
Proof.
  intros Hdry. revert s. induction subs as [|sub subs IH]; intros s; [reflexivity|].
  change (wp (for_each (sub :: subs) (grade_if_eligible w cfg self a temp_fixed)) s
            (fun _ _ t => posted_to t
                          = map submission_id (List.filter (eligible cfg) (sub :: subs)))).
  cbn [for_each]. apply wp_bind. unfold wp at 1.
  rewrite (total_unit _ s (total_grade_if_eligible w cfg self a temp_fixed sub)).
  unfold wp. rewrite posted_to_app, IH. cbn [List.filter].
  unfold grade_if_eligible. destruct (eligible cfg sub).
  - rewrite (grade_submission_posts_once _ _ _ _ _ _ _ Hdry). reflexivity.
  - reflexivity.
Qed.

(** Three submissions: one that cannot be fetched, one fresh, one graded. *)
Lemma one_comment_per_eligible_submission_witness :
  posted_to
    (effects (for_each [Sample.broken; Sample.fresh; Sample.graded_later]
                (grade_if_eligible Sample.all_pass (Sample.options false false)
                   (Sample.self_of Sample.run_plain) Sample.hw3 "/tmp/fixed")
                Sample.prepared))
  = [8%Z; 7%Z].
Proof.
  rewrite (one_comment_per_eligible_submission Sample.all_pass (Sample.options false false)
             (Sample.self_of Sample.run_plain) Sample.hw3 "/tmp/fixed"
             [Sample.broken; Sample.fresh; Sample.graded_later] Sample.prepared eq_refl).
  reflexivity.
Defined.

(** ** Courses *)

Lemma str_contains_spec (needle s : string) :
  str_contains needle s = true ↔ ∃ a b, s = a +:+ needle +:+ b.
Proof.
  induction s as [|c s IH]; cbn [str_contains].
  - rewrite orb_false_r, prefix_append. split.
    + intros (r & H). exists "", r. exact H.
    + intros (a & b & H). destruct a as [|x a]; [exists b; exact H|].
      rewrite append_cons in H. discriminate.
  - rewrite orb_true_iff, prefix_append, IH. split.
    + intros [(r & H)|(a & b & H)].
      * exists "", r. exact H.
      * exists (String c a), b. rewrite append_cons, H. reflexivity.
    + intros (a & b & H). destruct a as [|x a].
      * left. exists b. exact H.
      * right. rewrite append_cons in H. injection H as _ H. exists a, b. exact H.
Qed.

Lemma str_contains_empty (s : string) : str_contains "" s = true.
Proof. apply str_contains_spec. exists "", s. reflexivity. Qed.

(** X16: [get_courses] lists, in the order of the API, exactly the courses
    whose name contains the name asked for and that pass the filters on
    the dates: when only active courses are asked for, those that have
    started and not ended; when finished ones are excluded, those that
    have not ended.  A date the course lacks counts as the present. *)
Theorem listed_courses_are_the_matching_ones courses now name is_active is_finished :
  sublist (map listed_of (get_courses courses now name is_active is_finished)) courses
  ∧ ∀ lc,
      In lc (get_courses courses now name is_active is_finished) ↔
      ∃ c, In c courses
           ∧ lc = {| listed_of := c;
                     start := default now (start_at_date c);
                     end_ := default now (end_at_date c) |}
           ∧ (∃ a b, cc_name c = a +:+ name +:+ b)
           ∧ (is_active = true → (start lc ≤ now ≤ end_ lc)%Z)
           ∧ (is_finished = true → (now ≤ end_ lc)%Z).
Proof.
  induction courses as [|c courses [IHsub IH]].
  { split; [constructor|]. intros lc. split; [intros [] | intros (c & [] & _)]. }
  cbn [get_courses]. cbv zeta.
  set (st := default now (start_at_date c)). set (en := default now (end_at_date c)).
  assert (∀ lc, lc = {| listed_of := c; start := st; end_ := en |} →
                (∃ a b, cc_name c = a +:+ name +:+ b)
                ∧ (is_active = true → (start lc ≤ now ≤ end_ lc)%Z)
                ∧ (is_finished = true → (now ≤ end_ lc)%Z)
                ↔ (is_active && ((st >? now)%Z || (en <? now)%Z) = false
                   ∧ is_finished && (en <? now)%Z = false
                   ∧ str_contains name (cc_name c) = true)) as Hkeep.
  { intros lc ->. cbn [start end_]. rewrite str_contains_spec.
    destruct is_active, is_finished; cbn [andb];
      rewrite ?orb_false_iff, ?Z.gtb_ltb, ?Z.ltb_ge; intuition (try lia; try discriminate). }
  assert (∀ lc, (∃ c', In c' (c :: courses)
                  ∧ lc = {| listed_of := c'; start := default now (start_at_date c');
                            end_ := default now (end_at_date c') |}
                  ∧ (∃ a b, cc_name c' = a +:+ name +:+ b)
                  ∧ (is_active = true → (start lc ≤ now ≤ end_ lc)%Z)
                  ∧ (is_finished = true → (now ≤ end_ lc)%Z))
                ↔ (lc = {| listed_of := c; start := st; end_ := en |}
                   ∧ is_active && ((st >? now)%Z || (en <? now)%Z) = false
                   ∧ is_finished && (en <? now)%Z = false
                   ∧ str_contains name (cc_name c) = true)
                  ∨ In lc (get_courses courses now name is_active is_finished)) as Hsplit.
  { intros lc. rewrite IH. split.
    - intros (c' & [<-|Hin] & Heq & Hrest).
      + left. split; [exact Heq|]. apply (Hkeep lc Heq), Hrest.
      + right. exists c'. auto.
    - intros [(Heq & Hrest)|(c' & Hin & Hrest)].
      + exists c. split; [left; reflexivity|]. split; [exact Heq|].
        apply (Hkeep lc Heq), Hrest.
      + exists c'. split; [right; exact Hin | exact Hrest]. }
  destruct (is_active && ((st >? now)%Z || (en <? now)%Z)) eqn:Hact.
  { split; [apply sublist_cons, IHsub|]. intros lc. rewrite Hsplit.
    split; [auto | intros [(_ & H & _)|H]; [discriminate | exact H]]. }
  destruct (is_finished && (en <? now)%Z) eqn:Hfin.
  { split; [apply sublist_cons, IHsub|]. intros lc. rewrite Hsplit.
    split; [auto | intros [(_ & _ & H & _)|H]; [discriminate | exact H]]. }
  destruct (str_contains name (cc_name c)) eqn:Hname.
  - split; [apply sublist_skip, IHsub|]. intros lc. rewrite Hsplit. cbn [In].
    split; [intros [<-|H]; auto | intros [(-> & _)|H]; auto].
  - split; [apply sublist_cons, IHsub|]. intros lc. rewrite Hsplit.
    split; [auto | intros [(_ & _ & _ & H)|H]; [discriminate | exact H]].
Qed.

(** X17: asking for active courses makes the exclusion of finished ones
    redundant, and a course without dates is never filtered out by date:
    whatever the flags and the time, it is listed when its name matches. *)
Theorem date_filters_overlap courses now name is_finished :
  get_courses courses now name true is_finished = get_courses courses now name true false
  ∧ ∀ is_active c before after,
      start_at_date c = None → end_at_date c = None →
      str_contains name (cc_name c) = true →
      In {| listed_of := c; start := now; end_ := now |}
         (get_courses (before ++ c :: after) now name is_active is_finished).
Proof.
  split.
  - induction courses as [|c courses IH]; [reflexivity|].
    cbn [get_courses]. cbv zeta. rewrite IH. cbn [andb].
    destruct (_ || _) eqn:Hout; [reflexivity|].
    apply orb_false_iff in Hout as [_ ->]. rewrite andb_false_r. reflexivity.
  - intros is_active c before after Hstart Hend Hname.
    induction before as [|c' before IH]; cbn [app get_courses]; cbv zeta.
    + rewrite Hstart, Hend, Hname. cbn [default].
      rewrite Z.gtb_ltb, Z.ltb_irrefl, !andb_false_r.
      left. reflexivity.
    + repeat match goal with |- context [if ?t then _ else _] => destruct t end;
        try exact IH; right; exact IH.
Qed.

Lemma for_each_error {A} (l : list A) (f : A → string) s :
  for_each l (fun c => error (f c)) s = (Ok tt, s, map (fun c => Log LError (f c)) l).
Proof.
  induction l as [|c l IH]; [reflexivity|].
  cbn [for_each]. unfold bind, error at 1, emit. rewrite IH. reflexivity.
Qed.

(** The three ways [get_course] ends. *)
Lemma get_course_run listed relisted name is_active s :
  get_course listed relisted name is_active s
  = match get_courses listed.1 listed.2 name is_active false with
    | [] =>
        (Raised (Exn SystemExit "2"), s,
         Log LError ("no courses found that contain " +:+ name +:+ ". options are:")
         :: map (fun c => Log LError ("    " +:+ listed_name c))
                (get_courses relisted.1 relisted.2 "" is_active false))
    | [c] => (Ok c, s, [])
    | c :: c' :: more =>
        (Raised (Exn SystemExit "2"), s,
         Log LError ("multiple courses found for " +:+ name +:+ ": "
                     +:+ Py.repr_str_list (map listed_name (c :: c' :: more)))
         :: map (fun c => Log LError ("    " +:+ listed_name c)) (c :: c' :: more))
    end.
Proof.
  unfold get_course. cbv zeta.
  destruct (get_courses listed.1 listed.2 name is_active false) as [|c [|c' more]];
    [|reflexivity|].
  - unfold bind, error at 1, emit. rewrite for_each_error.
    unfold sys_exit, raise. cbn [app]. rewrite app_nil_r. reflexivity.
  - unfold bind, error at 1, emit. rewrite for_each_error.
    unfold sys_exit, raise. cbn [app]. rewrite app_nil_r. reflexivity.
Qed.

Lemma Forall_error_logs {A} (f : A → string) (l : list A) :
  Forall (fun ev => is_error_log ev = true) (map (fun c => Log LError (f c)) l).
Proof. induction l; constructor; auto. Qed.

(** X18: [get_course] returns a course only when it is the single one
    [get_courses] lists for the name, and then silently; otherwise it
    exits with status 2, having logged errors and nothing else, the first
    of which says whether none or several courses matched.  Either way
    the state is as it was. *)
Theorem get_course_needs_exactly_one listed relisted name is_active s :
  final (get_course listed relisted name is_active s) = s
  ∧ match outcome (get_course listed relisted name is_active s) with
    | Ok c =>
        get_courses listed.1 listed.2 name is_active false = [c]
        ∧ effects (get_course listed relisted name is_active s) = []
    | Raised e =>
        e = Exn SystemExit "2"
        ∧ length (get_courses listed.1 listed.2 name is_active false) ≠ 1%nat
        ∧ Forall (fun ev => is_error_log ev = true)
                 (effects (get_course listed relisted name is_active s))
        ∧ ∃ rest,
            effects (get_course listed relisted name is_active s)
            = Log LError
                (if (length (get_courses listed.1 listed.2 name is_active false) =? 0)%nat
                 then "no courses found that contain " +:+ name +:+ ". options are:"
                 else "multiple courses found for " +:+ name +:+ ": "
                      +:+ Py.repr_str_list
                            (map listed_name
                               (get_courses listed.1 listed.2 name is_active false)))
              :: rest
    end.
Proof.
  rewrite get_course_run.
  destruct (get_courses listed.1 listed.2 name is_active false) as [|c [|c' more]];
    unfold final, outcome, effects; cbn [fst snd].
  - split; [reflexivity|]. split; [reflexivity|]. split; [discriminate|].
    split; [constructor; [reflexivity | apply Forall_error_logs]|].
    eexists. reflexivity.
  - auto.
  - split; [reflexivity|]. split; [reflexivity|]. split; [discriminate|].
    split; [constructor; [reflexivity | apply Forall_error_logs]|].
    eexists. reflexivity.
Qed.

(** ** Exceptions that leave the orchestrator *)


Ltac sound_go leaf :=
  repeat lazymatch goal with
  | |- sound _ _ (bind _ _) => apply sound_bind; [|intros]
  | |- sound _ _ (try_except _ _ _) => apply sound_try; [|intros]
  | |- sound _ _ (for_each _ _) => apply sound_for_each; intros
  | |- sound _ _ (with_tempdir _ _) => apply sound_with_tempdir; intros
  | |- sound _ _ (if ?b then _ else _) => destruct b
  | |- sound _ _ (match ?x with _ => _ end) => destruct x
  | |- sound _ _ (ret _) => apply sound_ret
  | |- sound _ _ (gets _) => apply sound_gets
  | |- sound _ _ (modify _) => apply sound_modify
  | |- sound _ _ (emit _) => apply sound_emit; leaf
  | |- sound _ _ (raise _) => apply sound_raise; leaf
  | |- _ => leaf
  end.


Section Exits.

Context (P : event → Prop) (C : exn → bool).
Hypothesis P_other : ∀ ev, is_edit ev = false → P ev.
Hypothesis C_Exception : ∀ e, is_Exception e = true → C e = true.
Hypothesis C_exit : C (Exn SystemExit "1") = true.





End Exits.



(** ** The grading command *)

Lemma sound_get_course (P : event → Prop) (C : exn → bool) listed relisted name is_active :
  (∀ ev, is_edit ev = false → P ev) →
  C (Exn SystemExit "2") = true →
  sound P C (get_course listed relisted name is_active).
Proof.
  intros P_other C_exit. unfold get_course, sys_exit, error. cbv zeta.
  sound_go ltac:(first [apply P_other; reflexivity | exact C_exit]).
Qed.



(** X20: on a dry run the command first warns that nothing will be
    updated, and then posts no comment, whichever course and assignments
    the name selects. *)
Theorem dry_run_command_posts_nothing w self listed relisted verbose_ course_name
    force_ copytmpdir s :
  existsb is_edit
    (effects (cmd_grade_submissions w self listed relisted true verbose_ course_name
                force_ copytmpdir s)) = false
  ∧ ∃ rest,
      effects (cmd_grade_submissions w self listed relisted true verbose_ course_name
                 force_ copytmpdir s)
      = Log LWarn "This is a dry run. No updates to canvas will be made." :: rest.
Proof.
  split.
  - apply no_edit_existsb.
    assert (sound (fun ev => is_edit ev = false) (fun _ => true)
              (cmd_grade_submissions w self listed relisted true verbose_ course_name
                 force_ copytmpdir)) as Hsound; [|exact (proj1 (Hsound s))].
    unfold cmd_grade_submissions, CanvasHandler_grade_submissions, warn. cbv zeta.
    apply sound_bind; [apply sound_emit; reflexivity|]. intros _.
    apply sound_bind; [apply sound_get_course; auto|]. intros c.
    apply sound_grade_submissions; auto.
  - unfold cmd_grade_submissions, warn. cbv zeta. unfold bind at 1, emit at 1.
    destruct (CanvasHandler_grade_submissions _ _ _ _ _ _ _) as [[r s'] t].
    exists t. reflexivity.
Qed.

(** ** The constructor *)

(** X21: the constructor returns only for a configuration with url and
    token under [SERVER] and command under [RUN], after the server has
    accepted the connection; it then has logged who it connected as and
    reset the executable.  For a configuration that lacks one of the keys
    it exits with status 1 without trying the connection; when the
    connection fails, for whatever reason, it fails with the same fixed
    message. *)
Theorem constructor_checks_configuration self connect s :
  match outcome (init self connect s) with
  | Ok _ =>
      configured self = true
      ∧ final (init self connect s) = set_executable None s
      ∧ ∃ url token name ident,
          connect url token = inr (name, ident)
          ∧ effects (init self connect s)
            = [Log LInfo ("connected to canvas as " +:+ name
                          +:+ " (" +:+ Py.str_of_int ident +:+ ")")]
  | Raised e =>
      final (init self connect s) = s
      ∧ ((configured self = false
          ∧ e = Exn SystemExit "1"
          ∧ ∀ connect', init self connect' s = init self connect s)
         ∨ (configured self = true
            ∧ e = Exn EnvironmentError "there was a problem accessing canvas."))
  end.
Proof.
  unfold init, configured, _check_config, getitem, sys_exit. cbn [for_each].
  unfold info, errorWithException, error.
  unfold bind, try_except, ret, raise, emit, modify, outcome, final, effects.
  assert (∀ run : option (gmap string string),
            match run with Some _ | _ => false end = false) as Hno.
  { intros []; reflexivity. }
  destruct (parser self !! "SERVER") as [server|]; cbn [fst snd app];
    [|split; [reflexivity|]; left; auto].
  destruct (server !! "url") as [url|]; cbn [fst snd app];
    [|split; [reflexivity|]; left; auto].
  destruct (server !! "token") as [token|]; cbn [fst snd app];
    [|split; [reflexivity|]; left; auto].
  destruct (parser self !! "RUN") as [run|]; cbn [fst snd app];
    [|split; [reflexivity|]; left; auto].
  destruct (run !! "command") as [command|]; cbn [fst snd app];
    [|split; [reflexivity|]; left; auto].
  destruct (connect url token) as [failure|[name ident]] eqn:Hconnect; cbn [fst snd app].
  - split; [reflexivity|]. right. auto.
  - split; [reflexivity|]. split; [reflexivity|].
    exists url, token, name, ident. auto.
Qed.

(** The exceptions of [evaluate], by their classes. *)
Lemma evaluate_raises_cases w self temp_fixed tmpdir d s e :
  configured self = true →
  outcome (evaluate w self temp_fixed tmpdir d s) = Raised e →
  match exn_class_of e with
  | EnvironmentError | TimeoutExpired => True
  | CollaboratorError => has_distributed_tests s = true
  | KeyError => has_distributed_tests s = true ∧ dist_configured self = false
  | _ => False
  end.
Proof.
  unfold configured. intros Hconf Hraise.
  destruct (parser self !! "SERVER") as [server|]; [|discriminate].
  destruct (parser self !! "RUN") as [run|] eqn:Hrun; [|discriminate].
  destruct (server !! "url") as [url|]; [|discriminate].
  destruct (server !! "token") as [token|]; [|discriminate].
  destruct (run !! "command") as [command|] eqn:Hcmd; [|discriminate].
  destruct (Py.truthy command) eqn:Htruthy.
  2:{ unfold evaluate, getitem, bind in Hraise.
      rewrite Hrun in Hraise. unfold ret at 1 in Hraise.
      rewrite Hcmd in Hraise. unfold ret at 1 in Hraise.
      rewrite Htruthy in Hraise. cbn [negb] in Hraise.
      unfold errorWithException, error, bind, emit, raise, outcome in Hraise.
      cbn [fst snd] in Hraise. injection Hraise as <-. exact I. }
  destruct (run_precommand w run s) as [[r1 s1] t1] eqn:Hp. destruct r1 as [[]|e1].
  2:{ rewrite (evaluate_precommand_raises _ _ _ _ _ _ _ _ _ _ _ Hrun Hcmd Htruthy Hp) in Hraise.
      injection Hraise as <-.
      destruct (run !! "precommand") as [precommand|] eqn:Hpre.
      - rewrite (run_precommand_cases _ _ _ _ Hpre) in Hp.
        destruct (pb_wait _ _) as [[[out err] rc]|]; [destruct (Py.truthy err)|];
          try discriminate; inversion Hp; exact I.
      - unfold run_precommand in Hp. rewrite Hpre in Hp. discriminate. }
  assert (precommand_passes w run s = true) as Hpasses.
  { unfold precommand_passes.
    destruct (run !! "precommand") as [precommand|] eqn:Hpre; [|reflexivity].
    rewrite (run_precommand_cases _ _ _ _ Hpre) in Hp.
    destruct (pb_wait _ _) as [[[out err] rc]|]; [destruct (Py.truthy err)|];
      try discriminate; reflexivity. }
  destruct (main_wait w run command tmpdir s) as [[[out err] rc]|] eqn:Hwait.
  2:{ unfold main_wait in Hwait.
      rewrite (evaluate_killed _ _ _ _ _ _ _ _ Hrun Hcmd Htruthy Hpasses Hwait) in Hraise.
      discriminate. }
  destruct (Z.eq_dec rc 0%Z) as [->|Hrc].
  2:{ unfold main_wait in Hwait.
      rewrite (evaluate_failed _ _ _ _ _ _ _ _ _ _ _ Hrun Hcmd Htruthy Hpasses Hwait Hrc)
        in Hraise.
      discriminate. }
  rewrite (evaluate_passed _ _ _ _ _ _ _ _ _ _ Hrun Hcmd Htruthy Hpasses Hwait) in Hraise.
  cbv zeta in Hraise.
  destruct (has_distributed_tests s) eqn:Hdt; [|discriminate].
  unfold outcome at 1 in Hraise. cbn [fst snd] in Hraise.
  unfold dist_configured. rewrite Hrun.
  unfold evaluate_distributed_tests, run_distributed_tests, getitem, bind in Hraise.
  rewrite Hrun in Hraise. unfold ret at 1 in Hraise.
  destruct (run !! "dist_command") as [dist_command|].
  2:{ injection Hraise as <-. split; reflexivity. }
  unfold ret at 1 in Hraise.
  destruct (run !! "host_ip") as [host_ip|].
  2:{ injection Hraise as <-. split; reflexivity. }
  unfold ret at 1, emit, raise, outcome in Hraise.
  destruct (w_run_distributed _ _ _ _ _ _ _); cbn [fst snd] in Hraise; [|discriminate].
  injection Hraise as <-. reflexivity.
Qed.

(** X22: what [evaluate] can raise, for a configuration the constructor
    accepts.  An environment error, for an empty command and for a
    precommand that writes to its error stream; the expiry of the
    precommand; a failure of the distributed tests, when they are turned
    on; and a key error, only when they are turned on although [RUN] lacks
    one of their keys.  The lookups of [RUN] and of command never fail. *)
Theorem evaluate_raises_only w self temp_fixed tmpdir d s e :
  configured self = true →
  outcome (evaluate w self temp_fixed tmpdir d s) = Raised e →
  match exn_class_of e with
  | EnvironmentError | TimeoutExpired => True
  | CollaboratorError => has_distributed_tests s = true
  | KeyError => has_distributed_tests s = true ∧ dist_configured self = false
  | _ => False
  end.
Proof. apply evaluate_raises_cases. Qed.

(** The distributed tests are turned on, and [RUN] has the command only:
    the lookup of dist_command fails. *)
Lemma evaluate_raises_only_witness :
  has_distributed_tests (set_has_distributed_tests true Sample.prepared) = true
  ∧ dist_configured Cases.complete = false.
Proof.
  apply (evaluate_raises_only Sample.all_pass Cases.complete "/tmp/fixed" "/tmp/sub"
           Sample.data (set_has_distributed_tests true Sample.prepared)
           (Exn KeyError "'dist_command'")); reflexivity.
Defined.

(** ** The text of a posted comment *)

Lemma append_nil_l (s : string) : "" +:+ s = s.
Proof. reflexivity. Qed.

Lemma contains_cons (c x : ascii) (s : string) :
  Py.contains c (String x s) = Ascii.eqb c x || Py.contains c s.
Proof. reflexivity. Qed.

Lemma prefix_NUL (c : ascii) (s : string) :
  String.prefix NUL (String c s) = Ascii.eqb (ascii_of_nat 0) c.
Proof.
  destruct (Ascii.eqb_spec (ascii_of_nat 0) c) as [<-|Hne].
  - apply prefix_append. exists s. reflexivity.
  - destruct (String.prefix NUL (String c s)) eqn:Hp; [|reflexivity].
    apply prefix_append in Hp as (r & Hr). unfold NUL in Hr.
    rewrite append_cons in Hr. injection Hr as Hc _. congruence.
Qed.

Lemma replace_from_NUL_free (s : string) (skip : nat) :
  Py.contains (ascii_of_nat 0) (Py.replace_from NUL "\0" skip s) = false.
Proof.
  revert skip. induction s as [|c s IH]; intros skip; [reflexivity|].
  cbn [Py.replace_from]. destruct skip as [|k]; [|apply IH].
  rewrite prefix_NUL. destruct (Ascii.eqb (ascii_of_nat 0) c) eqn:Hc.
  - rewrite !append_cons, append_nil_l, !contains_cons. rewrite (IH _). reflexivity.
  - rewrite contains_cons, Hc. apply IH.
Qed.

Lemma replace_NUL_id (s : string) :
  Py.contains (ascii_of_nat 0) s = false → Py.replace s NUL "\0" = s.
Proof.
  unfold Py.replace, NUL.
  change (String (ascii_of_nat 0) "") with NUL.
  induction s as [|c s IH]; [reflexivity|].
  rewrite contains_cons. intros H. apply orb_false_iff in H as [Hc Hs].
  cbn [Py.replace_from]. rewrite prefix_NUL, Hc, (IH Hs). reflexivity.
Qed.

(** X23: no comment the grader posts has a NUL byte in it, whatever the
    output of the evaluation; and a message without NUL bytes is posted as
    it is, after the marker line. *)
Theorem posted_comments_are_nul_free w cfg self course_name c s :
  Forall (fun ev => ∀ id text, ev = Edit id text → Py.contains (ascii_of_nat 0) text = false)
         (effects (grade_submissions w cfg self course_name c s))
  ∧ ∀ message,
      Py.contains (ascii_of_nat 0) message = false →
      grade_comment message = "[AG]" +:+ LF +:+ message.
Proof.
  split.
  - apply (sound_grade_submissions
             (fun ev => ∀ id text, ev = Edit id text
                                   → Py.contains (ascii_of_nat 0) text = false)
             (fun _ => true)); auto.
    + intros ev Hev id text ->. discriminate Hev.
    + intros _ sub message id text [= _ <-]. unfold grade_comment, Py.replace, NUL.
      change (String (ascii_of_nat 0) "") with NUL.
      unfold LF. rewrite !append_cons, !append_nil_l, !contains_cons.
      apply replace_from_NUL_free.
  - intros message H. unfold grade_comment. rewrite (replace_NUL_id _ H). reflexivity.
Qed.

(** ** Creating an assignment *)

Lemma awp_ret {A} (a : A) g (Q : aresult A → globals → list aevent → Prop) :
  Q (AOk a) g [] → awp (aret a) g Q.
Proof. exact id. Qed.

Lemma awp_raise {A} e g (Q : aresult A → globals → list aevent → Prop) :
  Q (ARaised e) g [] → awp (araise e) g Q.
Proof. exact id. Qed.

Lemma awp_emit ev g (Q : aresult unit → globals → list aevent → Prop) :
  Q (AOk tt) g [ev] → awp (aemit ev) g Q.
Proof. exact id. Qed.

Lemma awp_gets {A} (f : globals → A) g (Q : aresult A → globals → list aevent → Prop) :
  Q (AOk (f g)) g [] → awp (agets f) g Q.
Proof. exact id. Qed.

Lemma awp_modify f g (Q : aresult unit → globals → list aevent → Prop) :
  Q (AOk tt) (f g) [] → awp (amodify f) g Q.
Proof. exact id. Qed.

Lemma awp_bind {A B} (m : K A) (f : A → K B) g
    (Q : aresult B → globals → list aevent → Prop) :
  awp m g (fun r g1 t1 =>
             match r with
             | AOk a => awp (f a) g1 (fun r2 g2 t2 => Q r2 g2 (t1 ++ t2))
             | ARaised e => Q (ARaised e) g1 t1
             end) →
  awp (abind m f) g Q.
Proof.
  unfold awp, abind, aoutcome, afinal, aeffects.
  destruct (m g) as [[[a|e] g1] t1]; cbn [fst snd]; [|exact id].
  destruct (f a g1) as [[r2 g2] t2]; exact id.
Qed.

Lemma awp_try_else {A B} (body : K A) (catches : aexn → bool) (handler : aexn → K B)
    (orelse : A → K B) g
    (Q : aresult B → globals → list aevent → Prop) :
  awp body g (fun r g1 t1 =>
                match r with
                | AOk a => awp (orelse a) g1 (fun r2 g2 t2 => Q r2 g2 (t1 ++ t2))
                | ARaised e =>
                    if catches e
                    then awp (handler e) g1 (fun r2 g2 t2 => Q r2 g2 (t1 ++ t2))
                    else Q (ARaised e) g1 t1
                end) →
  awp (try_else body catches handler orelse) g Q.
Proof.
  unfold awp, try_else, aoutcome, afinal, aeffects.
  destruct (body g) as [[[a|e] g1] t1]; cbn [fst snd].
  - destruct (orelse a g1) as [[r2 g2] t2]; exact id.
  - destruct (catches e); [|exact id].
    destruct (handler e g1) as [[r2 g2] t2]; exact id.
Qed.

Lemma awp_lift {A} (m : M A) g (Q : aresult A → globals → list aevent → Prop) :
  wp m (grading g)
     (fun r s t =>
        Q (match r with Ok a => AOk a | Raised e => ARaised (Known e) end)
          (set_grading s g) (map Did t)) →
  awp (lift m) g Q.
Proof.
  unfold awp, wp, lift, aoutcome, afinal, aeffects, outcome, final, effects.
  destruct (m (grading g)) as [[r s] t]. exact id.
Qed.

Lemma awp_call {A} ev (r : string + A) g (Q : aresult A → globals → list aevent → Prop) :
  match r with
  | inl why => Q (ARaised (Known (Exn CollaboratorError why))) g [ev]
  | inr a => Q (AOk a) g [ev]
  end →
  awp (call ev r) g Q.
Proof. unfold awp, call, abind, aemit, araise, aret. destruct r; exact id. Qed.

Lemma awp_sound {A} (P : aevent → Prop) (C : aexn → bool) (m : K A) g
    (Q : aresult A → globals → list aevent → Prop) :
  asound P C m →
  (∀ r g' t, Forall P t → (∀ e, r = ARaised e → C e = true) → Q r g' t) →
  awp m g Q.
Proof. intros Hm HQ. unfold awp. apply HQ; apply (Hm g). Qed.

(** One step of a run of the command, chosen by the head construct. *)
Ltac awp_go :=
  lazymatch goal with
  | |- awp (abind _ _) _ _ => apply awp_bind
  | |- awp (aret _) _ _ => apply awp_ret
  | |- awp (araise _) _ _ => apply awp_raise
  | |- awp (aemit _) _ _ => apply awp_emit
  | |- awp (agets _) _ _ => apply awp_gets
  | |- awp (amodify _) _ _ => apply awp_modify
  | |- awp (try_else _ _ _ _) _ _ => apply awp_try_else
  | |- awp (lift _) _ _ => apply awp_lift
  | |- awp (call _ _) _ _ => apply awp_call
  | |- wp (bind _ _) _ _ => apply wp_bind
  | |- wp (ret _) _ _ => apply wp_ret
  | |- wp (raise _) _ _ => apply wp_raise
  | |- wp (emit _) _ _ => apply wp_emit
  end;
  cbv beta iota.

Section Authoring.

Context (P : aevent → Prop) (C : aexn → bool).

Lemma asound_ret {A} (a : A) : asound P C (aret a).
Proof. intros g. split; [constructor | discriminate]. Qed.

Lemma asound_gets {A} (f : globals → A) : asound P C (agets f).
Proof. intros g. split; [constructor | discriminate]. Qed.

Lemma asound_modify f : asound P C (amodify f).
Proof. intros g. split; [constructor | discriminate]. Qed.

Lemma asound_emit ev : P ev → asound P C (aemit ev).
Proof. intros H g. split; [repeat constructor; exact H | discriminate]. Qed.

Lemma asound_raise {A} e : C e = true → asound P C (@araise A e).
Proof.
  intros H g. split; [constructor|].
  unfold aoutcome; cbn [fst snd araise]. intros e' [= <-]. exact H.
Qed.

Lemma asound_bind {A B} (m : K A) (f : A → K B) :
  asound P C m → (∀ a, asound P C (f a)) → asound P C (abind m f).
Proof.
  intros Hm Hf g. specialize (Hm g). unfold abind, aeffects, aoutcome in *.
  destruct (m g) as [[[a|e] g1] t1]; cbn [fst snd] in *.
  2:{ destruct Hm as [Hm1 Hm2]. split; [exact Hm1|].
      intros e' [= <-]. apply Hm2. reflexivity. }
  specialize (Hf a g1). unfold aeffects, aoutcome in Hf.
  destruct (f a g1) as [[r2 g2] t2]; cbn [fst snd] in *.
  destruct Hm as [Hm _], Hf as [Hf1 Hf2]. split; [|exact Hf2].
  apply Forall_app. split; assumption.
Qed.

Lemma asound_try_else {A B} (body : K A) (catches : aexn → bool) (handler : aexn → K B)
    (orelse : A → K B) :
  asound P (fun e => C e || catches e) body →
  (∀ e, asound P C (handler e)) → (∀ a, asound P C (orelse a)) →
  asound P C (try_else body catches handler orelse).
Proof.
  intros Hm Hh Ho g. specialize (Hm g). unfold try_else, aeffects, aoutcome in *.
  destruct (body g) as [[[a|e] g1] t1]; cbn [fst snd] in *.
  - specialize (Ho a g1). unfold aeffects, aoutcome in Ho.
    destruct (orelse a g1) as [[r2 g2] t2]; cbn [fst snd] in *.
    destruct Hm as [Hm _], Ho as [Ho1 Ho2]. split; [|exact Ho2].
    apply Forall_app. split; assumption.
  - destruct Hm as [Hm1 Hm2]. specialize (Hm2 e eq_refl). cbv beta in Hm2.
    destruct (catches e).
    + specialize (Hh e g1). unfold aeffects, aoutcome in Hh.
      destruct (handler e g1) as [[r2 g2] t2]; cbn [fst snd] in *.
      destruct Hh as [Hh1 Hh2]. split; [|exact Hh2].
      apply Forall_app. split; assumption.
    + rewrite orb_false_r in Hm2. split; [exact Hm1|]. intros e' [= <-]. exact Hm2.
Qed.

Lemma asound_for_each {A} (l : list A) (body : A → K unit) :
  (∀ x, asound P C (body x)) → asound P C (afor_each l body).
Proof.
  intros H. induction l as [|x l IH]; cbn [afor_each].
  - apply asound_ret.
  - apply asound_bind; [apply H | intros _; exact IH].
Qed.

Lemma asound_fold {A V} (l : list A) (v : V) (body : V → A → K V) :
  (∀ v x, asound P C (body v x)) → asound P C (afold l v body).
Proof.
  intros H. revert v. induction l as [|x l IH]; intros v; cbn [afold].
  - apply asound_ret.
  - apply asound_bind; [apply H | intros v'; apply IH].
Qed.

Lemma asound_lift {A} (m : M A) :
  sound (fun ev => P (Did ev)) (fun e => C (Known e)) m → asound P C (lift m).
Proof.
  intros Hm g. specialize (Hm (grading g)).
  unfold lift, aeffects, aoutcome, effects, outcome in *.
  destruct (m (grading g)) as [[r s] t]; cbn [fst snd] in *.
  destruct Hm as [Hm1 Hm2]. split.
  - induction Hm1; constructor; assumption.
  - destruct r as [a|e]; [discriminate|]. intros e' [= <-]. apply Hm2. reflexivity.
Qed.

Lemma asound_call {A} ev (r : string + A) :
  P ev → (∀ why, C (Known (Exn CollaboratorError why)) = true) → asound P C (call ev r).
Proof.
  intros Hev HC. unfold call.
  apply asound_bind; [apply asound_emit, Hev|]. intros _.
  destruct r; [apply asound_raise, HC | apply asound_ret].
Qed.

End Authoring.

(** A computation of the grading side raises none but the exceptions of
    that side, and has none but its effects. *)
Lemma asound_lift_any {A} (P : aevent → Prop) (C : aexn → bool) (m : M A) :
  (∀ ev, P (Did ev)) → (∀ e, C (Known e) = true) → asound P C (lift m).
Proof.
  intros HP HC. apply asound_lift. intros s. split.
  - induction (effects (m s)); constructor; auto.
  - intros e _. apply HC.
Qed.

Ltac asound_go leaf :=
  repeat lazymatch goal with
  | |- asound _ _ (abind _ _) => apply asound_bind; [|intros]
  | |- asound _ _ (try_else _ _ _ _) => apply asound_try_else; [|intros|intros]
  | |- asound _ _ (afor_each _ _) => apply asound_for_each; intros
  | |- asound _ _ (afold _ _ _) => apply asound_fold; intros
  | |- asound _ _ (if true then _ else _) => cbv iota
  | |- asound _ _ (if false then _ else _) => cbv iota
  | |- asound _ _ (if ?b then _ else _) => destruct b
  | |- asound _ _ (match ?x with _ => _ end) => destruct x
  | |- asound _ _ (aret _) => apply asound_ret
  | |- asound _ _ (agets _) => apply asound_gets
  | |- asound _ _ (amodify _) => apply asound_modify
  | |- asound _ _ (aemit _) => apply asound_emit; leaf
  | |- asound _ _ (araise _) => apply asound_raise; leaf
  | |- asound _ _ (call _ _) => apply asound_call; [leaf | intros; leaf]
  | |- asound _ _ (lift _) => apply asound_lift_any; [intros; leaf | intros; leaf]
  end.

(** X24: a dry run of the command changes nothing of the course: it
    uploads no file, edits and creates no assignment, and creates and
    updates no discussion topic, however it ends. *)
Theorem dry_run_changes_no_course w self listed relisted local_path verbose_ course_name
    group_name specname g :
  existsb changes_course
    (aeffects (create_assignment w self listed relisted local_path true verbose_
                 course_name group_name specname g)) = false.
Proof.
  assert (asound (fun ev => changes_course ev = false) (fun _ => true)
            (create_assignment w self listed relisted local_path true verbose_
               course_name group_name specname)) as Hsound.
  { unfold create_assignment, write_assignment, upload_assignment_files,
      update_assignments, create_new_assignment.
    cbv zeta. cbn [dry_run].
    asound_go ltac:(reflexivity). }
  destruct (Hsound g) as [Hall _].
  induction Hall as [|ev t Hev _ IH]; [reflexivity|].
  cbn [existsb]. rewrite Hev, IH. reflexivity.
Qed.

Lemma course_changes_app (a b : list aevent) :
  course_changes (a ++ b) = course_changes a ++ course_changes b.
Proof. apply List.filter_app. Qed.

Lemma course_changes_quiet (t : list aevent) : Forall quiet t → course_changes t = [].
Proof.
  induction 1 as [|ev t Hev _ IH]; [reflexivity|].
  unfold course_changes in *. cbn [List.filter]. unfold quiet in Hev.
  rewrite Hev. exact IH.
Qed.

Lemma awp_bind_pre {A B} (m : K A) (f : A → K B) g
    (Q : aresult B → globals → list aevent → Prop) (pre : list aevent) :
  awp m g (fun r g1 t1 =>
             match r with
             | AOk a => awp (f a) g1 (fun r2 g2 t2 => Q r2 g2 ((pre ++ t1) ++ t2))
             | ARaised e => Q (ARaised e) g1 (pre ++ t1)
             end) →
  awp (abind m f) g (fun r g' t => Q r g' (pre ++ t)).
Proof.
  intros H. apply awp_bind. unfold awp in *.
  destruct (aoutcome (m g)); [|exact H]. rewrite app_assoc. exact H.
Qed.

Lemma asound_upload_assignment_files w cfg self local_path course :
  asound quiet is_known (upload_assignment_files w cfg self local_path course).
Proof. unfold upload_assignment_files. cbv zeta. asound_go ltac:(reflexivity). Qed.

Lemma asound_update_assignments (P : aevent → Prop) w dry course grp :
  (∀ ev, P ev) → asound P is_known (update_assignments w dry course grp).
Proof. intros HP. unfold update_assignments. asound_go ltac:(first [apply HP | reflexivity]). Qed.

(** The loop over the groups gives the last group of the name asked for,
    and only logs. *)
Lemma find_group_run (groups : list assignment_group) (group_name : string)
    (v : option assignment_group) g
    (Q : aresult (option assignment_group) → globals → list aevent → Prop) :
  (∀ g' t, Forall quiet t → same_globals g g' →
           Q (AOk (last_group group_name groups v)) g' t) →
  awp (afold groups v (fun grp_name assign_group =>
         if String.eqb (ag_name assign_group) group_name then
           (lift (debug ("The group id is: " +:+ Py.str_of_int (ag_id assign_group))) ;;
            aret (Some assign_group))%K
         else aret grp_name)) g Q.
Proof.
  revert v g Q. induction groups as [|x groups IH]; intros v g Q HQ; cbn [afold].
  - awp_go. apply HQ; [constructor | repeat split].
  - change (last_group group_name (x :: groups) v)
      with (last_group group_name groups
              (if String.eqb (ag_name x) group_name then Some x else v)) in HQ.
    awp_go. destruct (String.eqb (ag_name x) group_name).
    + awp_go. awp_go. unfold debug. awp_go. awp_go.
      apply IH. intros g' t Ht Hsame.
      apply HQ; [apply Forall_app; split; [repeat constructor | exact Ht] | exact Hsame].
    + awp_go. apply IH. intros g' t Ht Hsame. apply HQ; assumption.
Qed.

Lemma last_group_In (group_name : string) (groups : list assignment_group)
    (v : option assignment_group) (grp : assignment_group) :
  last_group group_name groups v = Some grp →
  v = Some grp ∨ (In grp groups ∧ ag_name grp = group_name).
Proof.
  unfold last_group. revert v. induction groups as [|x groups IH]; intros v; cbn [fold_left].
  - auto.
  - intros H. apply IH in H as [H|[Hin Hname]].
    + destruct (String.eqb_spec (ag_name x) group_name) as [Hx|_]; [|left; exact H].
      injection H as <-. right. split; [left; reflexivity | exact Hx].
    + right. split; [right; exact Hin | exact Hname].
Qed.

Lemma Forall_quiet_Did (t : list event) : Forall quiet (map Did t).
Proof. induction t; constructor; [reflexivity | assumption]. Qed.

Ltac quiet_tail H :=
  apply H; repeat first [assumption | apply Forall_quiet_Did | apply Forall_app; split].

(** Up to the writing of the assignment, the command only uploads and
    logs, and raises none but the exceptions of the grading side; it gets
    to the writing with the single course of that name, the spec file and
    the last group of the name asked for. *)
Lemma create_assignment_prefix w self listed relisted local_path dry verbose_ course_name
    group_name specname g (Q : aresult unit → globals → list aevent → Prop) :
  (∀ e g' t, Forall quiet t → Q (ARaised (Known e)) g' t) →
  (∀ found grp g1 pre,
     get_courses listed.1 listed.2 course_name true false = [found] →
     last_group group_name (cc_groups (listed_of found)) None = Some grp →
     aw_isfile w (local_path +:+ "/" +:+ specname) = true →
     Forall quiet pre →
     awp (write_assignment w dry (listed_of found) grp) g1
         (fun r g' t => Q r g' (pre ++ t))) →
  awp (create_assignment w self listed relisted local_path dry verbose_ course_name
         group_name specname) g Q.
Proof.
  intros Hfail Htail.
  change Q with (fun r g' t => Q r g' ([] ++ t)).
  assert (Forall quiet []) as Hpre by constructor. revert Hpre. generalize (@nil aevent).
  intros pre Hpre.
  unfold create_assignment. cbv zeta.
  destruct (get_courses listed.1 listed.2 course_name true false) as [|found [|found' more]]
    eqn:Hfound;
    apply awp_bind_pre; awp_go; awp_go; unfold wp; rewrite get_course_run, Hfound;
    unfold outcome, final, effects;
    cbn [fst snd is_Exception' is_Exception exn_class_of];
    [quiet_tail Hfail | | quiet_tail Hfail].
  awp_go. awp_go. unfold debug at 1. awp_go. awp_go.
  assert (∀ (m : K unit) (k : unit → K unit) g0 pre0,
            asound quiet is_known m → Forall quiet pre0 →
            (∀ g1 t1, Forall quiet (pre0 ++ t1) →
                      awp (k tt) g1 (fun r g' t => Q r g' ((pre0 ++ t1) ++ t))) →
            awp (abind m k) g0 (fun r g' t => Q r g' (pre0 ++ t))) as Hstep.
  { intros m k g0 pre0 Hm Hpre0 Hk. apply awp_bind_pre.
    apply (awp_sound quiet is_known _ _ _ Hm). intros [[]|e] g1 t1 Ht1 He1.
    - apply Hk. apply Forall_app. split; assumption.
    - destruct e as [e|n]; [quiet_tail Hfail|].
      specialize (He1 _ eq_refl). discriminate. }
  apply Hstep; [apply asound_upload_assignment_files | |].
  { apply Forall_app. split; [exact Hpre|]. cbn [map app]. repeat constructor. }
  intros g1 t1 Hpre2.
  apply Hstep; [asound_go ltac:(reflexivity) | exact Hpre2|].
  intros g2 t2 Hpre3.
  destruct (aw_isfile w (local_path +:+ "/" +:+ specname)) eqn:Hisfile; cbn [negb].
  2:{ apply awp_bind_pre. awp_go. unfold errorWithException, error.
      awp_go. awp_go. awp_go.
      quiet_tail Hfail. }
  apply Hstep; [asound_go ltac:(reflexivity) | exact Hpre3|].
  intros g3 t3 Hpre4.
  apply awp_bind_pre. awp_go.
  apply Hstep; [asound_go ltac:(reflexivity) | rewrite app_nil_r; exact Hpre4|].
  intros g4 t4 Hpre5.
  apply Hstep; [asound_go ltac:(reflexivity) | exact Hpre5|].
  intros g5 t5 Hpre6.
  apply awp_bind_pre. apply find_group_run.
  intros g6 t6 Ht6 _.
  destruct (last_group group_name (cc_groups (listed_of found)) None) as [grp|] eqn:Hgrp.
  - apply (Htail found grp _ _ eq_refl Hgrp eq_refl).
    apply Forall_app. split; assumption.
  - awp_go. unfold errorWithException, error. awp_go. awp_go. awp_go.
    quiet_tail Hfail.
Qed.

Lemma called_nil (name : string) (c : canvas_course) :
  existsb (String.eqb name) (map assignment_name (assignments (cc_content c))) = false →
  called name c = [].
Proof.
  unfold called. induction (assignments (cc_content c)) as [|a l IH]; [reflexivity|].
  cbn [map existsb List.filter]. intros H. apply orb_false_iff in H as [Ha Hl].
  rewrite String.eqb_sym, Ha. apply IH, Hl.
Qed.

(** X25: the command raises a [NameError] exactly at one place: on a dry
    run, once the course, the files, the converted text and the group
    have all been found, when the course has no assignment of the name
    yet.  The name it fails to read is assignment_name. *)
Theorem dry_run_of_new_assignment_fails w self listed relisted local_path dry verbose_
    course_name group_name specname g n :
  aoutcome (create_assignment w self listed relisted local_path dry verbose_ course_name
              group_name specname g) = ARaised (NameError n) →
  dry = true
  ∧ n = "assignment_name"
  ∧ ∃ found grp,
      get_courses listed.1 listed.2 course_name true false = [found]
      ∧ last_group group_name (cc_groups (listed_of found)) None = Some grp
      ∧ called (assign_name
                  (afinal (create_assignment w self listed relisted local_path dry verbose_
                             course_name group_name specname g)))
               (listed_of found) = [].
Proof.
  change (awp (create_assignment w self listed relisted local_path dry verbose_ course_name
                 group_name specname) g
            (fun r g' _ =>
               r = ARaised (NameError n) →
               dry = true
               ∧ n = "assignment_name"
               ∧ ∃ found grp,
                   get_courses listed.1 listed.2 course_name true false = [found]
                   ∧ last_group group_name (cc_groups (listed_of found)) None = Some grp
                   ∧ called (assign_name g') (listed_of found) = [])).
  apply create_assignment_prefix; [discriminate|].
  intros found grp g1 pre Hfound Hgrp _ _.
  unfold write_assignment. cbv zeta.
  awp_go. awp_go. unfold debug. awp_go. awp_go. awp_go.
  cbn [assign_name set_grading].
  destruct (existsb _ _) eqn:Hexists.
  - apply (awp_sound (fun _ => True) is_known);
      [apply asound_update_assignments; auto|].
    intros r g' t _ He ->. specialize (He _ eq_refl). discriminate.
  - unfold create_new_assignment. destruct dry.
    + awp_go. intros [= <-]. split; [reflexivity|]. split; [reflexivity|].
      exists found, grp. repeat split; try assumption.
      apply called_nil. exact Hexists.
    + apply (awp_sound (fun _ => True) is_known).
      * asound_go ltac:(first [exact I | reflexivity]).
      * intros r g' t _ He ->. specialize (He _ eq_refl). discriminate.
Qed.

(** A dry run for hw9, which the course does not have yet. *)
Lemma dry_run_of_new_assignment_fails_witness :
  true = true
  ∧ "assignment_name" = "assignment_name"
  ∧ ∃ found grp,
      get_courses Cases.term.1 Cases.term.2 "CS 101" true false = [found]
      ∧ last_group "Assignments" (cc_groups (listed_of found)) None = Some grp
      ∧ called (assign_name
                  (afinal (create_assignment Cases.desk Cases.complete Cases.term Cases.term
                             "assignmentFiles" true false "CS 101" "Assignments" "hw9.md"
                             initial_globals)))
               (listed_of found) = [].
Proof.
  apply (dry_run_of_new_assignment_fails Cases.desk Cases.complete Cases.term Cases.term
           "assignmentFiles" true false "CS 101" "Assignments" "hw9.md" initial_globals
           "assignment_name").
  vm_compute. reflexivity.
Defined.







(** ** Uploading the files of the assignment *)

Lemma awp_server_url self g (Q : aresult string → globals → list aevent → Prop) :
  match server_url self with
  | Some url => Q (AOk url) (set_grading (grading g) g) []
  | None => ∀ e, Q (ARaised (Known e)) (set_grading (grading g) g) []
  end →
  awp (lift (server <- getitem (parser self) "SERVER" ;; getitem server "url")%M) g Q.
Proof.
  unfold server_url, getitem. intros H. awp_go. awp_go.
  destruct (parser self !! "SERVER") as [server|]; cbn [mbind option_bind] in H.
  - awp_go. destruct (server !! "url"); awp_go; [exact H | apply H].
  - awp_go. apply H.
Qed.

(** One file, on a run that uploads: an upload to each CodEval folder, in
    the order of the folders. *)
Lemma upload_file_run w self local_path (file : string) (fols : list (nat * string)) g
    (Q : aresult unit → globals → list aevent → Prop) :
  (∀ r g' t,
     (r = AOk tt →
      List.filter changes_course t
      = map (fun fol => Upload (fst fol) (local_path +:+ "/" +:+ file))
            (List.filter (fun fol => String.eqb (snd fol) "CodEval") fols)) →
     Q r g' t) →
  awp (afor_each fols (fun fol =>
         if String.eqb (snd fol) "CodEval" then
           if false then
             (lift (info "would not upload the files") ;;
              url <- lift (server <- getitem (parser self) "SERVER" ;;
                           getitem server "url")%M ;;
              amodify (fun g => set_file_dict (<[file := url]> (file_dict g)) g))%K
           else
             try_else
               (call (Upload (fst fol) (local_path +:+ "/" +:+ file))
                     (aw_upload w (fst fol) (local_path +:+ "/" +:+ file)))
               is_Exception'
               (fun e =>
                  aemit (Traceback e) ;;
                  lift (errorWithException
                          ("Error uploading the file " +:+ file
                           +:+ " in CodEval folder due to error : " +:+ aexn_str e
                           +:+ ". Exiting!!")))%K
               (fun file_spec =>
                  amodify (fun g =>
                    set_file_dict (<[fst file_spec := snd file_spec]> (file_dict g)) g))
         else aret tt)) g Q.
Proof.
  revert g Q. induction fols as [|fol fols IH]; intros g Q HQ;
    cbn [afor_each List.filter].
  - awp_go. apply HQ. reflexivity.
  - awp_go. destruct (String.eqb (snd fol) "CodEval") eqn:Hfol.
    + cbv iota. awp_go. awp_go.
      destruct (aw_upload w (fst fol) (local_path +:+ "/" +:+ file)) as [why|file_spec];
        cbn [is_Exception' is_Exception exn_class_of].
      * awp_go. awp_go. awp_go. unfold errorWithException, error.
        awp_go. awp_go. awp_go. apply HQ. discriminate.
      * awp_go. apply IH. intros r g' t Hch. apply HQ. intros Hr.
        cbn [List.filter]. rewrite Hfol.
        rewrite !List.filter_app, (Hch Hr). reflexivity.
    + awp_go. apply IH. intros r g' t Hch. apply HQ. intros Hr.
      cbn [List.filter]. rewrite Hfol.
      rewrite ?List.filter_app, (Hch Hr). reflexivity.
Qed.

(** One file, on a dry run: nothing changes on the course, the entries
    of the dictionary that hold the url of the server stay, and the file
    gets one when there is a CodEval folder. *)
Lemma pretend_file_run self (file : string) (fols : list (nat * string)) g
    (Q : aresult unit → globals → list aevent → Prop) :
  (∀ r g' t,
     List.filter changes_course t = [] →
     (∀ f url, server_url self = Some url → file_dict g !! f = Some url →
               file_dict g' !! f = Some url) →
     (r = AOk tt → List.filter (fun fol => String.eqb (snd fol) "CodEval") fols ≠ [] →
      ∃ url, server_url self = Some url ∧ file_dict g' !! file = Some url) →
     Q r g' t) →
  awp (afor_each fols (fun fol =>
         if String.eqb (snd fol) "CodEval" then
           (lift (info "would not upload the files") ;;
            url <- lift (server <- getitem (parser self) "SERVER" ;;
                         getitem server "url")%M ;;
            amodify (fun g => set_file_dict (<[file := url]> (file_dict g)) g))%K
         else aret tt)) g Q.
Proof.
  revert g Q. induction fols as [|fol fols IH]; intros g Q HQ;
    cbn [afor_each List.filter].
  - awp_go. apply HQ; [reflexivity | auto | intros _ Hne; contradiction].
  - awp_go. destruct (String.eqb (snd fol) "CodEval") eqn:Hfol.
    + awp_go. awp_go. unfold info. awp_go. awp_go.
      apply awp_server_url. destruct (server_url self) as [url|] eqn:Hurl.
      * awp_go. apply IH. intros r g' t Hquiet Hkeep Hset.
        cbn [file_dict set_file_dict set_grading] in Hkeep, Hset.
        apply HQ.
        -- rewrite !List.filter_app, Hquiet. reflexivity.
        -- intros f url' [= <-] Hf. apply Hkeep; [reflexivity|].
           destruct (decide (file = f)) as [<-|Hne].
           ++ apply lookup_insert_eq.
           ++ rewrite lookup_insert_ne by exact Hne. exact Hf.
        -- intros _ _. exists url. split; [reflexivity|].
           apply Hkeep; [reflexivity | apply lookup_insert_eq].
      * intros e. apply HQ; [reflexivity | discriminate | discriminate].
    + awp_go. apply IH. intros r g' t Hquiet Hkeep Hset.
      apply HQ; [rewrite ?List.filter_app, Hquiet; reflexivity | exact Hkeep |].
      intros Hr Hne. apply (Hset Hr). cbn [List.filter] in Hne. rewrite Hfol in Hne.
      exact Hne.
Qed.

(** X27: what [upload_assignment_files] does when it returns normally, for
    a directory that exists.  On a run that uploads, each file of the
    directory is uploaded once to each folder called CodEval, file by
    file in the order of the listing, and nothing else changes on the
    course.  On a dry run nothing changes on the course, and when the
    course has a folder called CodEval, the dictionary of the files holds
    the url of the server for each file of the directory. *)
Theorem uploads_go_to_every_codeval_folder w cfg self local_path course g files :
  aw_listdir w local_path = Some files →
  aoutcome (upload_assignment_files w cfg self local_path course g) = AOk tt →
  if dry_run cfg then
    List.filter changes_course
      (aeffects (upload_assignment_files w cfg self local_path course g)) = []
    ∧ (upload_folders course ≠ [] →
       ∀ file, In file files →
         ∃ url, server_url self = Some url
                ∧ file_dict (afinal (upload_assignment_files w cfg self local_path course g))
                  !! file = Some url)
  else
    List.filter changes_course
      (aeffects (upload_assignment_files w cfg self local_path course g))
    = flat_map (fun file =>
                  map (fun i => Upload i (local_path +:+ "/" +:+ file)) (upload_folders course))
               files.
Proof.
  intros Hdir.
  change (awp (upload_assignment_files w cfg self local_path course) g
            (fun r g' t =>
               r = AOk tt →
               if dry_run cfg then
                 List.filter changes_course t = []
                 ∧ (upload_folders course ≠ [] →
                    ∀ file, In file files →
                      ∃ url, server_url self = Some url ∧ file_dict g' !! file = Some url)
               else
                 List.filter changes_course t
                 = flat_map (fun file =>
                               map (fun i => Upload i (local_path +:+ "/" +:+ file))
                                   (upload_folders course))
                            files)).
  unfold upload_assignment_files, upload_folders. rewrite Hdir. cbv zeta.
  set (fols := indexed (cc_folder_names course)).
  assert (awp (afor_each files (fun file =>
            afor_each fols (fun fol =>
              if String.eqb (snd fol) "CodEval" then
                if dry_run cfg then
                  (lift (info "would not upload the files") ;;
                   url <- lift (server <- getitem (parser self) "SERVER" ;;
                                getitem server "url")%M ;;
                   amodify (fun g => set_file_dict (<[file := url]> (file_dict g)) g))%K
                else
                  try_else
                    (call (Upload (fst fol) (local_path +:+ "/" +:+ file))
                          (aw_upload w (fst fol) (local_path +:+ "/" +:+ file)))
                    is_Exception'
                    (fun e =>
                       aemit (Traceback e) ;;
                       lift (errorWithException
                               ("Error uploading the file " +:+ file
                                +:+ " in CodEval folder due to error : " +:+ aexn_str e
                                +:+ ". Exiting!!")))%K
                    (fun file_spec =>
                       amodify (fun g =>
                         set_file_dict (<[fst file_spec := snd file_spec]> (file_dict g)) g))
              else aret tt))) g
            (fun r g' t =>
               r = AOk tt →
               if dry_run cfg then
                 List.filter changes_course t = []
                 ∧ (map fst (List.filter (fun fol => String.eqb (snd fol) "CodEval") fols) ≠ [] →
                    ∀ file, In file files →
                      ∃ url, server_url self = Some url ∧ file_dict g' !! file = Some url)
               else
                 List.filter changes_course t
                 = flat_map (fun file =>
                               map (fun i => Upload i (local_path +:+ "/" +:+ file))
                                   (map fst (List.filter
                                               (fun fol => String.eqb (snd fol) "CodEval")
                                               fols)))
                            files)) as Hloop.
  { clear Hdir. destruct (dry_run cfg).
    - assert (∀ g0 (Q : aresult unit → globals → list aevent → Prop),
                (∀ r g' t,
                   List.filter changes_course t = [] →
                   (∀ f url, server_url self = Some url → file_dict g0 !! f = Some url →
                             file_dict g' !! f = Some url) →
                   (r = AOk tt →
                    List.filter (fun fol => String.eqb (snd fol) "CodEval") fols ≠ [] →
                    ∀ file, In file files →
                      ∃ url, server_url self = Some url ∧ file_dict g' !! file = Some url) →
                   Q r g' t) →
                awp (afor_each files (fun file =>
                       afor_each fols (fun fol =>
                         if String.eqb (snd fol) "CodEval" then
                           (lift (info "would not upload the files") ;;
                            url <- lift (server <- getitem (parser self) "SERVER" ;;
                                         getitem server "url")%M ;;
                            amodify (fun g => set_file_dict (<[file := url]> (file_dict g)) g))%K
                         else aret tt))) g0 Q) as Hfiles.
      { induction files as [|file files IH]; intros g0 Q HQ; cbn [afor_each].
        - awp_go. apply HQ; [reflexivity | auto | intros _ _ file []].
        - awp_go. apply pretend_file_run. intros r g1 t1 Hquiet1 Hkeep1 Hset1.
          destruct r as [[]|e].
          + apply IH. intros r g' t Hquiet Hkeep Hset. apply HQ.
            * rewrite List.filter_app, Hquiet1, Hquiet. reflexivity.
            * intros f url Hurl Hf. apply (Hkeep f url Hurl), (Hkeep1 f url Hurl), Hf.
            * intros Hr Hne file' [<-|Hin]; [|apply (Hset Hr Hne file' Hin)].
              destruct (Hset1 eq_refl Hne) as (url & Hurl & Hfile).
              exists url. split; [exact Hurl|]. apply (Hkeep _ _ Hurl Hfile).
          + apply HQ; [exact Hquiet1 | exact Hkeep1 | discriminate]. }
      apply Hfiles. intros r g' t Hquiet _ Hset Hr. split; [exact Hquiet|].
      intros Hne. apply (Hset Hr). intros Hnil. apply Hne. rewrite Hnil. reflexivity.
    - assert (∀ g0 (Q : aresult unit → globals → list aevent → Prop),
                (∀ r g' t,
                   (r = AOk tt →
                    List.filter changes_course t
                    = flat_map (fun file =>
                                  map (fun fol => Upload (fst fol) (local_path +:+ "/" +:+ file))
                                      (List.filter
                                         (fun fol => String.eqb (snd fol) "CodEval") fols))
                               files) →
                   Q r g' t) →
                awp (afor_each files (fun file =>
                       afor_each fols (fun fol =>
                         if String.eqb (snd fol) "CodEval" then
                           if false then
                             (lift (info "would not upload the files") ;;
                              url <- lift (server <- getitem (parser self) "SERVER" ;;
                                           getitem server "url")%M ;;
                              amodify (fun g =>
                                set_file_dict (<[file := url]> (file_dict g)) g))%K
                           else
                             try_else
                               (call (Upload (fst fol) (local_path +:+ "/" +:+ file))
                                     (aw_upload w (fst fol) (local_path +:+ "/" +:+ file)))
                               is_Exception'
                               (fun e =>
                                  aemit (Traceback e) ;;
                                  lift (errorWithException
                                          ("Error uploading the file " +:+ file
                                           +:+ " in CodEval folder due to error : "
                                           +:+ aexn_str e +:+ ". Exiting!!")))%K
                               (fun file_spec =>
                                  amodify (fun g =>
                                    set_file_dict
                                      (<[fst file_spec := snd file_spec]> (file_dict g)) g))
                         else aret tt))) g0 Q) as Hfiles.
      { induction files as [|file files IH]; intros g0 Q HQ; cbn [afor_each flat_map].
        - awp_go. apply HQ. reflexivity.
        - awp_go. apply (upload_file_run w self). intros r g1 t1 Hch1.
          destruct r as [[]|e].
          + apply IH. intros r g' t Hch. apply HQ. intros Hr.
            rewrite List.filter_app, (Hch1 eq_refl), (Hch Hr). reflexivity.
          + apply HQ. discriminate. }
      apply Hfiles. intros r g' t Hch Hr. rewrite (Hch Hr).
      apply List.flat_map_ext. intros file. rewrite List.map_map. reflexivity. }
  destruct files as [|file files]; [|exact Hloop].
  awp_go. unfold error. awp_go. intros _.
  destruct (dry_run cfg); [|reflexivity]. split; [reflexivity|]. intros _ file [].
Qed.

(** The two files of the directory, uploaded to the one CodEval folder. *)
Lemma uploads_go_to_every_codeval_folder_witness :
  List.filter changes_course
    (aeffects (upload_assignment_files Cases.desk (Sample.options false false) Cases.complete
                 "assignmentFiles" Cases.cs101 initial_globals))
  = [Upload 0 "assignmentFiles/hw9.md"; Upload 0 "assignmentFiles/fig.png"].
Proof.
  exact (uploads_go_to_every_codeval_folder Cases.desk (Sample.options false false)
           Cases.complete "assignmentFiles" Cases.cs101 initial_globals
           ["hw9.md"; "fig.png"] eq_refl eq_refl).
Defined.

(** ** The order of the checks and the changes *)

(** X28: no assignment and no discussion topic is changed before the
    checks have passed.  When a run has edited or created anything, it was
    no dry run, the spec file was there, the name selected exactly one
    active course, and the course has a group of the name asked for. *)
Theorem course_is_written_only_after_the_checks w self listed relisted local_path dry
    verbose_ course_name group_name specname g :
  course_changes
    (aeffects (create_assignment w self listed relisted local_path dry verbose_ course_name
                 group_name specname g)) ≠ [] →
  dry = false
  ∧ aw_isfile w (local_path +:+ "/" +:+ specname) = true
  ∧ ∃ found grp,
      get_courses listed.1 listed.2 course_name true false = [found]
      ∧ last_group group_name (cc_groups (listed_of found)) None = Some grp.
Proof.
  change (awp (create_assignment w self listed relisted local_path dry verbose_ course_name
                 group_name specname) g
            (fun _ _ t =>
               course_changes t ≠ [] →
               dry = false
               ∧ aw_isfile w (local_path +:+ "/" +:+ specname) = true
               ∧ ∃ found grp,
                   get_courses listed.1 listed.2 course_name true false = [found]
                   ∧ last_group group_name (cc_groups (listed_of found)) None = Some grp)).
  apply create_assignment_prefix.
  - intros e g' t Ht Hne. rewrite (course_changes_quiet _ Ht) in Hne. contradiction.
  - intros found grp g1 pre Hfound Hgrp Hisfile Hpre. destruct dry.
    + apply (awp_sound quiet (fun _ => true)).
      * unfold write_assignment, update_assignments, create_new_assignment. cbv zeta.
        asound_go ltac:(reflexivity).
      * intros r g' t Ht _ Hne. exfalso. apply Hne.
        rewrite course_changes_app, (course_changes_quiet _ Hpre), (course_changes_quiet _ Ht).
        reflexivity.
    + unfold awp. intros _. split; [reflexivity|]. split; [exact Hisfile|].
      exists found, grp. split; assumption.
Qed.

(** The run that creates hw9 has changed the course. *)
Lemma course_is_written_only_after_the_checks_witness :
  false = false
  ∧ aw_isfile Cases.desk ("assignmentFiles" +:+ "/" +:+ "hw9.md") = true
  ∧ ∃ found grp,
      get_courses Cases.term.1 Cases.term.2 "CS 101" true false = [found]
      ∧ last_group "Assignments" (cc_groups (listed_of found)) None = Some grp.
Proof.
  apply (course_is_written_only_after_the_checks Cases.desk Cases.complete Cases.term
           Cases.term "assignmentFiles" false false "CS 101" "Assignments" "hw9.md"
           initial_globals).
  vm_compute. discriminate.
Defined.

(** X29: the failure of the course lookup is not seen by the [except]
    clause around it.  When the name does not select exactly one active
    course, the command exits with status 2, as the lookup does, with the
    errors of the lookup as its only effects: the message of the handler
    is not logged, nothing is uploaded and nothing is changed. *)
Theorem unknown_course_exits_the_command w self listed relisted local_path dry verbose_
    course_name group_name specname g :
  length (get_courses listed.1 listed.2 course_name true false) ≠ 1%nat →
  aoutcome (create_assignment w self listed relisted local_path dry verbose_ course_name
              group_name specname g) = ARaised (Known (Exn SystemExit "2"))
  ∧ aeffects (create_assignment w self listed relisted local_path dry verbose_ course_name
                group_name specname g)
    = map Did (effects (get_course listed relisted course_name true (grading g)))
  ∧ same_globals g (afinal (create_assignment w self listed relisted local_path dry verbose_
                              course_name group_name specname g)).
Proof.
  intros Hne.
  unfold create_assignment, abind, try_else, lift. cbv zeta.
  rewrite get_course_run. unfold effects.
  destruct (get_courses listed.1 listed.2 course_name true false) as [|c [|c' more]];
    [| contradiction Hne; reflexivity |];
    cbn [fst snd is_Exception' is_Exception exn_class_of aoutcome aeffects afinal];
    repeat split.
Qed.

(** Two active courses match CS. *)
Lemma unknown_course_exits_the_command_witness :
  aoutcome (create_assignment Cases.desk Cases.complete Cases.term Cases.term
              "assignmentFiles" false false "CS" "Assignments" "hw9.md" initial_globals)
  = ARaised (Known (Exn SystemExit "2")).
Proof.
  apply (unknown_course_exits_the_command Cases.desk Cases.complete Cases.term Cases.term
           "assignmentFiles" false false "CS" "Assignments" "hw9.md" initial_globals).
  vm_compute. discriminate.
Defined.

(** ** The configuration of distributed testing, throughout a run *)

Section Guarded.

Context (J : state → Prop) (P : event → Prop) (C : exn → bool).

Lemma guarded_ret {A} (a : A) : guarded J P C (ret a).
Proof. intros s Hs. split; [constructor | exact Hs]. Qed.

Lemma guarded_gets {A} (f : state → A) : guarded J P C (gets f).
Proof. intros s Hs. split; [constructor | exact Hs]. Qed.

Lemma guarded_emit ev : P ev → guarded J P C (emit ev).
Proof. intros H s Hs. split; [repeat constructor; exact H | exact Hs]. Qed.

Lemma guarded_raise {A} e : C e = true → guarded J P C (@raise A e).
Proof. intros H s Hs. split; [constructor|]. split; [exact H | intros _; exact Hs]. Qed.

Lemma guarded_modify f : (∀ s, J s → J (f s)) → guarded J P C (modify f).
Proof. intros H s Hs. split; [constructor | apply H, Hs]. Qed.

Lemma guarded_bind {A B} (m : M A) (f : A → M B) :
  guarded J P C m → (∀ a, guarded J P C (f a)) → guarded J P C (bind m f).
Proof.
  intros Hm Hf s Hs. specialize (Hm s Hs). unfold bind, effects, outcome, final in *.
  destruct (m s) as [[[a|e] s1] t1]; cbn [fst snd] in *; [|exact Hm].
  destruct Hm as [Ht1 Hs1]. specialize (Hf a s1 Hs1). unfold effects, outcome, final in Hf.
  destruct (f a s1) as [[r2 s2] t2]; cbn [fst snd] in *.
  destruct Hf as [Ht2 Hr2]. split; [apply Forall_app; split; assumption | exact Hr2].
Qed.

Lemma guarded_try {A} (body : M A) (catches : exn → bool) (handler : exn → M A) :
  (∀ e, catches e = true → is_Exception e = true) →
  guarded J P C body → (∀ e, C e = true → guarded J P C (handler e)) →
  guarded J P C (try_except body catches handler).
Proof.
  intros Hc Hm Hh s Hs. specialize (Hm s Hs). unfold try_except, effects, outcome, final in *.
  destruct (body s) as [[[a|e] s1] t1]; cbn [fst snd] in *; [exact Hm|].
  destruct Hm as [Ht1 [HC HJ]].
  destruct (catches e) eqn:Hce; [|cbn [fst snd]; auto].
  specialize (Hh e HC s1 (HJ (Hc e Hce))). unfold effects, outcome, final in Hh.
  destruct (handler e s1) as [[r2 s2] t2]; cbn [fst snd] in *.
  destruct Hh as [Ht2 Hr2]. split; [apply Forall_app; split; assumption | exact Hr2].
Qed.

Lemma guarded_for_each {A} (l : list A) (body : A → M unit) :
  (∀ x, guarded J P C (body x)) → guarded J P C (for_each l body).
Proof.
  intros H. induction l as [|x l IH]; cbn [for_each].
  - apply guarded_ret.
  - apply guarded_bind; [apply H | intros _; exact IH].
Qed.

Lemma guarded_with_tempdir {A} path (body : string → M A) :
  (∀ s f, J s → J (set_fs f s)) →
  (∀ d, guarded J P C (body d)) → guarded J P C (with_tempdir path body).
Proof.
  intros Hfs Hb s Hs.
  specialize (Hb path (set_fs (<[path := ∅]> (fs s)) s) (Hfs _ _ Hs)).
  unfold with_tempdir, effects, outcome, final in *.
  destruct (body path _) as [[r s1] t]; cbn [fst snd] in *.
  destruct Hb as [Ht Hr]. split; [exact Ht|].
  destruct r as [a|e]; [apply Hfs, Hr|].
  destruct Hr as [HC HJ]. split; [exact HC|]. intros He. apply Hfs, HJ, He.
Qed.

End Guarded.

Ltac guarded_go leaf :=
  repeat lazymatch goal with
  | |- guarded _ _ _ (bind (modify (set_has_distributed_tests _)) _) => leaf
  | |- guarded _ _ _ (bind _ _) => apply guarded_bind; [|intros]
  | |- guarded _ _ _ (try_except _ _ _) =>
      apply guarded_try;
      [ let c := fresh "c" in let H := fresh "H" in
        intros [c ?] H; destruct c; first [reflexivity | discriminate H]
      | | intros ]
  | |- guarded _ _ _ (for_each _ _) => apply guarded_for_each; intros
  | |- guarded _ _ _ (with_tempdir _ _) =>
      apply guarded_with_tempdir;
      [ let H := fresh "H" in intros ? ? H; exact H | intros ]
  | |- guarded _ _ _ (if ?b then _ else _) => destruct b
  | |- guarded _ _ _ (match ?x with _ => _ end) => destruct x
  | |- guarded _ _ _ (ret _) => apply guarded_ret
  | |- guarded _ _ _ (gets _) => apply guarded_gets
  | |- guarded _ _ _ (modify _) =>
      apply guarded_modify; let H := fresh "H" in intros ? H; exact H
  | |- guarded _ _ _ (emit _) => apply guarded_emit; leaf
  | |- guarded _ _ _ (raise _) => apply guarded_raise; leaf
  | |- _ => leaf
  end.

Section NoKeyError.

Context (self : handler).
Hypothesis Hconfigured : configured self = true.

Local Abbreviation G := (guarded (dist_ok self) no_key_error_shown not_key_error).

Ltac nk_leaf := first [exact I | reflexivity | assumption | solve [auto 2]].

Lemma nk_get_dir d : G (get_dir d).
Proof.
  intros s Hs. unfold get_dir, no_such_file, raise, effects, outcome, final.
  destruct (fs s !! d); cbn [fst snd]; split; try constructor; auto.
Qed.

Lemma nk_read_file p : G (read_file p).
Proof. pose proof nk_get_dir. unfold read_file, no_such_file. guarded_go nk_leaf. Qed.

Lemma nk_write_file p data : G (write_file p data).
Proof. pose proof nk_get_dir. unfold write_file, put_dir. guarded_go nk_leaf. Qed.

Lemma nk_remove_file p : G (remove_file p).
Proof. pose proof nk_get_dir. unfold remove_file, put_dir, no_such_file. guarded_go nk_leaf. Qed.

Lemma nk_unzip w archive dest del : G (unzip w archive dest del).
Proof.
  pose proof nk_get_dir. pose proof nk_read_file. pose proof nk_remove_file.
  unfold unzip, put_dir. guarded_go nk_leaf.
Qed.

Lemma nk_get_file folder file_name outpath : G (get_file folder file_name outpath).
Proof.
  pose proof nk_write_file.
  unfold get_file, errorWithException, error, getindex, debug. cbv zeta.
  guarded_go nk_leaf.
Qed.

Lemma nk_build_workspace w atts temp_fixed tmpdir : G (build_workspace w atts temp_fixed tmpdir).
Proof.
  pose proof nk_get_dir. pose proof nk_write_file. pose proof nk_unzip.
  unfold build_workspace, download_submission_attachments, download_attachment,
    copy_files_to_submission_dir, put_dir.
  guarded_go nk_leaf.
Qed.

Lemma evaluate_shows_no_key_error w temp_fixed tmpdir d :
  sound no_key_error_shown (fun _ => true) (evaluate w self temp_fixed tmpdir d).
Proof.
  unfold evaluate, run_precommand, run_command, evaluate_distributed_tests,
    run_distributed_tests, popen, communicate, kill, communicate_killed,
    mark_submission_as_inactive_if_present, errorWithException, error, debug, getitem.
  sound_go ltac:(first [exact I | reflexivity]).
Qed.

Lemma nk_evaluate w temp_fixed tmpdir d : G (evaluate w self temp_fixed tmpdir d).
Proof.
  intros s Hs. split; [apply evaluate_shows_no_key_error|].
  assert (has_distributed_tests (final (evaluate w self temp_fixed tmpdir d s))
          = has_distributed_tests s) as Hflag.
  { apply (stable_evaluate (fun a b => has_distributed_tests b = has_distributed_tests a));
      try reflexivity; intros; congruence. }
  assert (dist_ok self (final (evaluate w self temp_fixed tmpdir d s))) as Hfinal.
  { unfold dist_ok. rewrite Hflag. exact Hs. }
  destruct (outcome (evaluate w self temp_fixed tmpdir d s)) as [out|e] eqn:Hout;
    [exact Hfinal|].
  split; [|intros _; exact Hfinal].
  pose proof (evaluate_raises_cases w self temp_fixed tmpdir d s e Hconfigured Hout) as Hcases.
  unfold not_key_error. destruct (exn_class_of e); try reflexivity.
  destruct Hcases as [Hon Hoff]. rewrite (Hs Hon) in Hoff. discriminate.
Qed.

Lemma nk_grade_message w a temp_fixed tmpdir sub :
  G (grade_message w self a temp_fixed tmpdir sub).
Proof.
  pose proof nk_build_workspace. pose proof nk_evaluate.
  unfold grade_message, grade_steps, grade_failure, print_exc, debug, info. cbv zeta.
  guarded_go nk_leaf.
Qed.

Lemma nk_report w cfg sub message : G (report w cfg sub message).
Proof. unfold report, info, debug, warn. cbv zeta. guarded_go nk_leaf. Qed.

Lemma nk_grade_if_eligible w cfg a temp_fixed sub :
  G (grade_if_eligible w cfg self a temp_fixed sub).
Proof.
  pose proof nk_grade_message. pose proof nk_report.
  unfold grade_if_eligible, grade_submission, set_acls, debug, info.
  guarded_go nk_leaf.
Qed.

(** The line --DT--: the flag is set, and the keys are there or the run
    exits. *)
Lemma nk_distributed_line :
  G (modify (set_has_distributed_tests true) ;; _check_distributed_config self).
Proof.
  intros s _. unfold _check_distributed_config, _check_config, sys_exit, error.
  cbn [for_each]. unfold bind, modify, emit, raise, ret, effects, outcome, final, dist_ok,
    dist_configured.
  destruct (parser self !! "RUN") as [run|]; cbn [fst snd app];
    [|split; [repeat constructor | split; [reflexivity | discriminate]]].
  destruct (run !! "dist_command"); cbn [fst snd app];
    [|split; [repeat constructor | split; [reflexivity | discriminate]]].
  destruct (run !! "host_ip"); cbn [fst snd app];
    [|split; [repeat constructor | split; [reflexivity | discriminate]]].
  split; [constructor | reflexivity].
Qed.

Lemma nk_directive w folder dest_dir line : G (directive w self folder dest_dir line).
Proof.
  pose proof nk_get_dir. pose proof nk_get_file. pose proof nk_unzip.
  pose proof nk_distributed_line.
  unfold directive, getindex, errorWithException, error, debug. cbv zeta.
  guarded_go nk_leaf.
Qed.

Lemma nk_grade_submissions w cfg course_name c :
  G (grade_submissions w cfg self course_name c).
Proof.
  pose proof nk_get_file. pose proof nk_read_file. pose proof nk_directive.
  pose proof nk_grade_if_eligible.
  unfold grade_submissions, grade_if_spec, grade_assignment, get_valid_test_file,
    skip_assignment, print_exc, debug, error, warn.
  cbv zeta.
  guarded_go nk_leaf.
Qed.

End NoKeyError.

(** X30: no lookup in the configuration fails while submissions are
    graded.  For a configuration the constructor accepts, in a run that
    starts with the distributed tests off, or on with their keys in
    [RUN], no traceback of a [KeyError] is ever printed: no submission
    and no assignment fails on a missing key.  This rests on the
    distributed tests never being on without their keys, which every
    part of the run keeps. *)
Theorem no_configuration_lookup_fails w cfg self course_name c s :
  configured self = true →
  dist_ok self s →
  Forall no_key_error_shown (effects (grade_submissions w cfg self course_name c s))
  ∧ (outcome (grade_submissions w cfg self course_name c s) = Ok tt →
     dist_ok self (final (grade_submissions w cfg self course_name c s))).
Proof.
  intros Hconfigured Hs.
  destruct (nk_grade_submissions self Hconfigured w cfg course_name c s Hs) as [Heffects Hout].
  split; [exact Heffects|]. intros Hok. rewrite Hok in Hout. exact Hout.
Qed.

(** A run over two assignments, from a state with the distributed tests
    off. *)
Lemma no_configuration_lookup_fails_witness :
  Forall no_key_error_shown
    (effects (grade_submissions Sample.all_pass (Sample.options false false) Cases.complete
                "cs101" Sample.two_assignments initial_state)).
Proof.
  apply (no_configuration_lookup_fails Sample.all_pass (Sample.options false false)
           Cases.complete "cs101" Sample.two_assignments initial_state).
  - reflexivity.
  - intros H. discriminate H.
Defined.
